(** * A shallow embedding of the OGG page writer and reader of ogg-bitstream

    Sources: [src/src/lib.rs] (constants and little-endian helpers),
    [src/src/writer.rs] ([StreamWriter], [push_packet], [write_page]) and
    [src/src/reader.rs] ([BitStreamReader]: [next_packet], [sync_with_next_page],
    [read_page_data], [verify_crc32], [seek]).

    Conventions of the embedding:
    - [usize] values are [nat]; [u8], [u32] and [u64] values are [Z] in their range,
      with overflow of [+=] and [-] written out as a panic (overflow checks on);
    - a Rust panic (out-of-range slice or arithmetic overflow) is the outcome
      [Panic], which ends the computation;
    - a method taking [&mut self] becomes a function from the state to the new
      state paired with its [Result]; mutations done before an early return by [?]
      are kept in the returned state. *)

From Stdlib Require Import List ZArith Lia Bool Arith PeanoNat.
Import ListNotations.

(** ** Outcomes: [Result] plus panics *)

Inductive PanicKind := IndexOutOfBounds | ArithmeticOverflow.

Inductive res (A E : Type) : Type :=
| Ok (a : A)
| Err (e : E)
| Panic (p : PanicKind).
Arguments Ok {A E} a.
Arguments Err {A E} e.
Arguments Panic {A E} p.

(** ** Constants of [lib.rs] *)

Definition CONTINUATION_VALUE : Z := 1.
Definition BOS_VALUE : Z := 2.
Definition EOS_VALUE : Z := 4.
Definition MAX_PAGE_HEADER_SIZE : nat := 27 + 255.
(** [65_025] in the source, i.e. [255 * 255]. *)
Definition MAX_PAGE_DATA_SIZE : nat := 255 * 255.
Definition MAX_PAGE_SIZE : nat := MAX_PAGE_HEADER_SIZE + MAX_PAGE_DATA_SIZE.
Definition PAGER_MARKER : list Z := [79; 103; 103; 83]%Z.
Definition VERSION_INDEX : nat := 4.
Definition HEADER_TYPE_INDEX : nat := 5.
Definition SEGMENT_COUNT_INDEX : nat := 26.
Definition SEGMENT_TABLE_INDEX : nat := 27.

Definition U32_MAX : Z := (2 ^ 32 - 1)%Z.
Definition U64_MAX : Z := (2 ^ 64 - 1)%Z.

(** [x.to_le_bytes()] for an [n]-byte unsigned integer. *)
Fixpoint le_bytes (n : nat) (v : Z) : list Z :=
  match n with
  | O => []
  | S n' => (v mod 256)%Z :: le_bytes n' (v / 256)%Z
  end.

(** [u32::from_le_bytes] / [u64::from_le_bytes]: [parse_u32_le], [parse_u64_le]. *)
Fixpoint le_value (bs : list Z) : Z :=
  match bs with
  | [] => 0%Z
  | b :: bs' => (b + 256 * le_value bs')%Z
  end.

Definition parse_u32_le (source : list Z) : Z := le_value (firstn 4 source).
Definition parse_u64_le (source : list Z) : Z := le_value (firstn 8 source).

(** [&s[a..b]]: panics unless [a <= b <= s.len()]. *)
Definition slice (s : list Z) (a b : nat) : option (list Z) :=
  if (a <=? b) && (b <=? length s) then Some (firstn (b - a) (skipn a s)) else None.

(** [dst[a..b].copy_from_slice(src)]: panics unless the range is valid and
    [src.len() == b - a]. *)
Definition copy_into (dst : list Z) (a b : nat) (src : list Z) : option (list Z) :=
  if (a <=? b) && (b <=? length dst) && (length src =? b - a)
  then Some (firstn a dst ++ src ++ skipn b dst) else None.

(** ** CRC-32 *)

(** Modelled from the spec: the crate's [crc32] module ([src/src/crc32.rs]) is not
    among the sources. Section 4.1: CRC-32 over bytes with polynomial [0x04C11DB7],
    MSB first, no reflection, initial value 0, no final XOR; this is the
    bit-at-a-time form of the table-driven computation. *)
Fixpoint crc32_shift (k : nat) (c : Z) : Z :=
  match k with
  | O => c
  | S k' =>
      let c' := Z.land (Z.shiftl c 1) 4294967295 in
      crc32_shift k' (if Z.testbit c 31 then Z.lxor c' 79764919 else c')
  end.

Definition crc32_update (crc : Z) (byte : Z) : Z :=
  crc32_shift 8 (Z.lxor crc (Z.shiftl byte 24)).

Definition crc32 (data : list Z) : Z := fold_left crc32_update data 0%Z.

(** The BOS page of the [test_sync] fixture of [reader.rs]: its stored CRC
    (bytes 22..26, [F9 20 89 F8]) is the CRC-32 above of the page with that
    field zeroed, which checks the model of the CRC against real OGG data. *)
Definition test_sync_page : list Z :=
  [0x4F; 0x67; 0x67; 0x53; 0x00; 0x02; 0x00; 0x00; 0x00; 0x00; 0x00; 0x00; 0x00; 0x00;
   0x4A; 0xC9; 0x09; 0xB6; 0x00; 0x00; 0x00; 0x00; 0xF9; 0x20; 0x89; 0xF8; 0x01; 0x13;
   0x4F; 0x70; 0x75; 0x73; 0x48; 0x65; 0x61; 0x64; 0x01; 0x02; 0x38; 0x01; 0x80; 0xBB;
   0x00; 0x00; 0x00; 0x00; 0x00]%Z.

(** The CRC field of a page and the page with that field zeroed. *)
Definition stored_crc (page : list Z) : Z := parse_u32_le (skipn 22 page).
Definition zero_crc (page : list Z) : list Z :=
  firstn 22 page ++ [0; 0; 0; 0]%Z ++ skipn 26 page.


(** [bind] for [res], with the usual notation. *)
Definition bind {A B E : Type} (m : res A E) (k : A -> res B E) : res B E :=
  match m with
  | Ok a => k a
  | Err e => Err e
  | Panic p => Panic p
  end.

Notation "x <- m ;; k" := (bind m (fun x => k))
  (at level 61, m at next level, right associativity).

(** [u8::try_from(usize)]. *)
Definition u8_try_from {E : Type} (conv_error : E) (n : nat) : res Z E :=
  if n <=? 255 then Ok (Z.of_nat n) else Err conv_error.

(** ** The writer ([writer.rs]) *)

Module WriteError.
Inductive t :=
| IoError
| TryFromIntError
| UnknownBitstreamSerialNumber
| BitstreamAlreadyInitialized
| InitialPacketTooBig.
End WriteError.

Module Writer.

(** The byte sink [W: Write]. Each [write_all] call is numbered; [sink_fails k]
    says whether the [k]-th call fails with an I/O error (a failing call writes
    nothing). [sink_pages] holds the buffers of the successful calls in order. *)
Record Sink := {
  sink_pages : list (list Z);
  sink_count : nat;
  sink_fails : nat -> bool
}.

Definition sink_bytes (w : Sink) : list Z := concat (sink_pages w).

(** A sink on which every write succeeds, such as a [Cursor<Vec<u8>>]. *)
Definition vec_sink : Sink :=
  {| sink_pages := []; sink_count := 0; sink_fails := fun _ => false |}.

Definition write_all (w : Sink) (buf : list Z) : Sink * res unit WriteError.t :=
  let failed := sink_fails w (sink_count w) in
  ({| sink_pages := if failed then sink_pages w else sink_pages w ++ [buf];
      sink_count := S (sink_count w);
      sink_fails := sink_fails w |},
   if failed then Err WriteError.IoError else Ok tt).

Record StreamState := {
  bitstream_serial_number : Z;
  data_buffer : list Z;
  data_head : nat;
  packet_sizes : list nat;
  page_sequence_number : Z;
  granule_position : Z;
  header_type : Z
}.

(** [StreamState { bitstream_serial_number, ..Default::default() }]. *)
Definition new_state (serial : Z) : StreamState :=
  {| bitstream_serial_number := serial;
     data_buffer := repeat 0%Z MAX_PAGE_DATA_SIZE;
     data_head := 0;
     packet_sizes := [];
     page_sequence_number := 0;
     granule_position := 0;
     header_type := 0 |}.

Definition set_header_type (s : StreamState) (v : Z) : StreamState :=
  {| bitstream_serial_number := bitstream_serial_number s; data_buffer := data_buffer s;
     data_head := data_head s; packet_sizes := packet_sizes s;
     page_sequence_number := page_sequence_number s;
     granule_position := granule_position s; header_type := v |}.

Definition set_granule_position (s : StreamState) (v : Z) : StreamState :=
  {| bitstream_serial_number := bitstream_serial_number s; data_buffer := data_buffer s;
     data_head := data_head s; packet_sizes := packet_sizes s;
     page_sequence_number := page_sequence_number s;
     granule_position := v; header_type := header_type s |}.

(** The free function [push_packet(state, packet_data)]. The source range
    [packet_data[data_head..data_head + size]] is taken as in the source. *)
Definition push_packet (state : StreamState) (packet_data : list Z)
  : res StreamState WriteError.t :=
  let size := length packet_data in
  let head := data_head state in
  if negb (head + size <=? length (data_buffer state)) then Panic IndexOutOfBounds else
  match slice packet_data head (head + size) with
  | None => Panic IndexOutOfBounds
  | Some src =>
      match copy_into (data_buffer state) head (head + size) src with
      | None => Panic IndexOutOfBounds
      | Some buf =>
          Ok {| bitstream_serial_number := bitstream_serial_number state;
                data_buffer := buf;
                data_head := head + size;
                packet_sizes := packet_sizes state ++ [size];
                page_sequence_number := page_sequence_number state;
                granule_position := granule_position state;
                header_type := header_type state |}
      end
  end.

(** [segment_count += 1] on the [u8] counter. *)
Definition u8_inc (c : Z) : res Z WriteError.t :=
  if (c <? 255)%Z then Ok (c + 1)%Z else Panic ArithmeticOverflow.

(** [for _ in 0..full_segments { page_buffer[27 + segment_count] = 255; segment_count += 1; }];
    [table] is the part of the segment table written so far. *)
Fixpoint write_full_segments (k : nat) (count : Z) (table : list Z)
  : res (Z * list Z) WriteError.t :=
  match k with
  | O => Ok (count, table)
  | S k' => c <- u8_inc count ;; write_full_segments k' c (table ++ [255%Z])
  end.

(** The segment-table loop of [write_page]. *)
Fixpoint build_segment_table (sizes : list nat) (count : Z) (table : list Z)
  : res (Z * list Z) WriteError.t :=
  match sizes with
  | [] => Ok (count, table)
  | packet_size :: rest =>
      full <- u8_try_from WriteError.TryFromIntError (packet_size / 255) ;;
      ct <- write_full_segments (Z.to_nat full) count table ;;
      remainder <- u8_try_from WriteError.TryFromIntError (packet_size mod 255) ;;
      if (remainder >? 0)%Z then
        c <- u8_inc (fst ct) ;; build_segment_table rest c (snd ct ++ [remainder])
      else build_segment_table rest (fst ct) (snd ct)
  end.

(** The first [data_end] bytes of the writer's [page_buffer] after assembly.
    [StreamWriter::new] writes the capture pattern at 0..4 and the buffer starts
    zeroed, so byte 4 (version) is 0; every other byte up to [data_end] is written
    by [write_page] itself, so the page does not depend on earlier pages. *)
Definition assemble_page (header_type granule serial sequence crc segment_count : Z)
  (table data : list Z) : list Z :=
  PAGER_MARKER ++ [0%Z; header_type] ++ le_bytes 8 granule ++ le_bytes 4 serial
  ++ le_bytes 4 sequence ++ le_bytes 4 crc ++ [segment_count] ++ table ++ data.

(** [state.page_sequence_number += 1] on a [u32]. *)
Definition u32_inc (v : Z) : res Z WriteError.t :=
  if (v <? U32_MAX)%Z then Ok (v + 1)%Z else Panic ArithmeticOverflow.

Definition write_page (writer : Sink) (state : StreamState)
  : Sink * StreamState * res unit WriteError.t :=
  match build_segment_table (packet_sizes state) 0 [] with
  | Err e => (writer, state, Err e)
  | Panic p => (writer, state, Panic p)
  | Ok (segment_count, table) =>
      let granule :=
        if (segment_count =? 255)%Z then U64_MAX else granule_position state in
      let data_start := SEGMENT_TABLE_INDEX + Z.to_nat segment_count in
      let data_end := data_start + data_head state in
      if negb (data_end <=? MAX_PAGE_SIZE) then (writer, state, Panic IndexOutOfBounds) else
      match slice (data_buffer state) 0 (data_head state) with
      | None => (writer, state, Panic IndexOutOfBounds)
      | Some data =>
          let page0 := assemble_page (header_type state) granule
                         (bitstream_serial_number state) (page_sequence_number state)
                         0 segment_count table data in
          let page := assemble_page (header_type state) granule
                        (bitstream_serial_number state) (page_sequence_number state)
                        (crc32 page0) segment_count table data in
          match write_all writer page with
          | (writer', Err e) => (writer', state, Err e)
          | (writer', Panic p) => (writer', state, Panic p)
          | (writer', Ok _) =>
              match u32_inc (page_sequence_number state) with
              | Ok seq =>
                  (writer',
                   {| bitstream_serial_number := bitstream_serial_number state;
                      data_buffer := data_buffer state;
                      data_head := 0;
                      packet_sizes := [];
                      page_sequence_number := seq;
                      granule_position := granule_position state;
                      header_type := header_type state |},
                   Ok tt)
              | Err e => (writer', state, Err e)
              | Panic p => (writer', state, Panic p)
              end
          end
      end
  end.

(** [StreamWriter<W>]: the sink and the live stream states. Its [page_buffer] is
    the scratch space of [write_page], see [assemble_page]. *)
Record StreamWriter := {
  writer : Sink;
  stream_states : list StreamState
}.

Definition new (w : Sink) : StreamWriter := {| writer := w; stream_states := [] |}.

(** [stream_states.iter().find(|s| s.bitstream_serial_number == serial)], with the
    index of the state found. *)
Fixpoint find_stream (states : list StreamState) (serial : Z) : option (nat * StreamState) :=
  match states with
  | [] => None
  | s :: rest =>
      if (bitstream_serial_number s =? serial)%Z then Some (0, s)
      else match find_stream rest serial with
           | Some (i, s') => Some (S i, s')
           | None => None
           end
  end.

(** Writing back through the [&mut StreamState] at index [i]; [Vec::remove(i)]. *)
Definition replace_nth {A : Type} (l : list A) (i : nat) (x : A) : list A :=
  firstn i l ++ x :: skipn (S i) l.
Definition remove_nth {A : Type} (l : list A) (i : nat) : list A :=
  firstn i l ++ skipn (S i) l.

(** The splitting [loop] of [StreamWriter::push_packet]. [fuel] bounds the
    iterations; the callers pass [S size], more than the loop can run since
    [size] drops by [MAX_PAGE_DATA_SIZE] per iteration, so [O] is never reached. *)
Fixpoint split_loop (fuel : nat) (is_first_page : bool) (offset size : nat)
  (packet_data : list Z) (granule : Z) (writer : Sink) (state : StreamState)
  : Sink * StreamState * res unit WriteError.t :=
  match fuel with
  | O => (writer, state, Ok tt)
  | S fuel' =>
      let state := set_header_type state (if is_first_page then 0%Z else CONTINUATION_VALUE) in
      if size <=? MAX_PAGE_DATA_SIZE then
        let state := set_granule_position state granule in
        match slice packet_data offset (offset + size) with
        | None => (writer, state, Panic IndexOutOfBounds)
        | Some chunk =>
            match push_packet state chunk with
            | Ok state => write_page writer state
            | Err e => (writer, state, Err e)
            | Panic p => (writer, state, Panic p)
            end
        end
      else
        let state := set_granule_position state U64_MAX in
        match slice packet_data offset (offset + MAX_PAGE_DATA_SIZE) with
        | None => (writer, state, Panic IndexOutOfBounds)
        | Some chunk =>
            match push_packet state chunk with
            | Ok state =>
                match write_page writer state with
                | (writer, state, Ok _) =>
                    split_loop fuel' false (offset + MAX_PAGE_DATA_SIZE)
                      (size - MAX_PAGE_DATA_SIZE) packet_data granule writer state
                | other => other
                end
            | Err e => (writer, state, Err e)
            | Panic p => (writer, state, Panic p)
            end
        end
  end.

(** The body of [StreamWriter::push_packet] once the stream state is found. *)
Definition push_packet_state (writer : Sink) (state : StreamState) (packet_data : list Z)
  (granule : Z) : Sink * StreamState * res unit WriteError.t :=
  let size := length packet_data in
  (* Flush page if the new data doesn't fit into the free space. *)
  match (if negb (data_head state =? 0) && (MAX_PAGE_DATA_SIZE <? data_head state + size)
         then write_page writer state else (writer, state, Ok tt)) with
  | (writer, state, Ok _) =>
      if data_head state + size <=? MAX_PAGE_DATA_SIZE then
        let state := set_granule_position state granule in
        match push_packet state packet_data with
        | Ok state =>
            if data_head state =? MAX_PAGE_DATA_SIZE then write_page writer state
            else (writer, state, Ok tt)
        | Err e => (writer, state, Err e)
        | Panic p => (writer, state, Panic p)
        end
      else
        match split_loop (S size) true 0 size packet_data granule writer state with
        | (writer, state, Ok _) => (writer, set_header_type state 0, Ok tt)
        | other => other
        end
  | other => other
  end.

Module StreamWriter.

Definition begin_logical_stream (self : StreamWriter) (serial : Z) (first_packet_data : list Z)
  : StreamWriter * res unit WriteError.t :=
  if existsb (fun s => (bitstream_serial_number s =? serial)%Z) (stream_states self) then
    (self, Err WriteError.BitstreamAlreadyInitialized)
  else if MAX_PAGE_DATA_SIZE <? length first_packet_data then
    (self, Err WriteError.InitialPacketTooBig)
  else
    let state := set_header_type (new_state serial) BOS_VALUE in
    match push_packet state first_packet_data with
    | Ok state =>
        match write_page (writer self) state with
        | (w, state, Ok _) =>
            ({| writer := w; stream_states := stream_states self ++ [set_header_type state 0] |},
             Ok tt)
        | (w, _, Err e) => ({| writer := w; stream_states := stream_states self |}, Err e)
        | (w, _, Panic p) => ({| writer := w; stream_states := stream_states self |}, Panic p)
        end
    | Err e => (self, Err e)
    | Panic p => (self, Panic p)
    end.

Definition end_logical_stream (self : StreamWriter) (serial : Z) (last_packet_data : list Z)
  (granule : Z) : StreamWriter * res unit WriteError.t :=
  match find_stream (stream_states self) serial with
  | None => (self, Err WriteError.UnknownBitstreamSerialNumber)
  | Some (index, state) =>
      let states := remove_nth (stream_states self) index in
      match (if negb (data_head state =? 0) then write_page (writer self) state
             else (writer self, state, Ok tt)) with
      | (w, state, Ok _) =>
          let state := set_granule_position (set_header_type state EOS_VALUE) granule in
          match push_packet state last_packet_data with
          | Ok state =>
              let '(w, _, r) := write_page w state in
              ({| writer := w; stream_states := states |}, r)
          | Err e => ({| writer := w; stream_states := states |}, Err e)
          | Panic p => ({| writer := w; stream_states := states |}, Panic p)
          end
      | (w, _, r) => ({| writer := w; stream_states := states |}, r)
      end
  end.

Definition push_packet (self : StreamWriter) (serial : Z) (packet_data : list Z) (granule : Z)
  : StreamWriter * res unit WriteError.t :=
  match find_stream (stream_states self) serial with
  | None => (self, Err WriteError.UnknownBitstreamSerialNumber)
  | Some (index, state) =>
      let '(w, state, r) := push_packet_state (writer self) state packet_data granule in
      ({| writer := w; stream_states := replace_nth (stream_states self) index state |}, r)
  end.

Definition flush (self : StreamWriter) (serial : Z) : StreamWriter * res unit WriteError.t :=
  match find_stream (stream_states self) serial with
  | None => (self, Err WriteError.UnknownBitstreamSerialNumber)
  | Some (index, state) =>
      if negb (data_head state =? 0) then
        let '(w, state, r) := write_page (writer self) state in
        ({| writer := w; stream_states := replace_nth (stream_states self) index state |}, r)
      else (self, Ok tt)
  end.

Definition page_is_empty (self : StreamWriter) (serial : Z) : StreamWriter * res bool WriteError.t :=
  match find_stream (stream_states self) serial with
  | None => (self, Err WriteError.UnknownBitstreamSerialNumber)
  | Some (_, state) => (self, Ok (data_head state =? 0))
  end.

End StreamWriter.

End Writer.

(** ** The reader ([reader.rs]) *)

Module ReadError.
Inductive t :=
| IoError
| TryFromIntError
| UnhandledBitstreamVersion (version : Z)
| UnableToSync.
End ReadError.

Module ReadStatus.
Inductive t := Ok | Eof | Missing.
End ReadStatus.

Module Reader.

(** The byte source: a [std::io::Cursor] over the bytes (values in 0..255). Its
    only I/O error is end of input. *)
Record Cursor := {
  inner : list Z;
  position : nat
}.

Definition remaining (c : Cursor) : list Z := skipn (position c) (inner c).

Definition cursor_at (c : Cursor) (p : nat) : Cursor :=
  {| inner := inner c; position := p |}.

(** [Cursor::read_exact]: on failure the cursor is left at the end of the input. *)
Definition read_exact (c : Cursor) (n : nat) : Cursor * res (list Z) ReadError.t :=
  if (n =? 0) || (position c + n <=? length (inner c)) then
    (cursor_at c (position c + n), Ok (firstn n (remaining c)))
  else (cursor_at c (length (inner c)), Err ReadError.IoError).

(** [Cursor::read] into a buffer of [n] bytes. *)
Definition read (c : Cursor) (n : nat) : Cursor * list Z :=
  let bs := firstn n (remaining c) in (cursor_at c (position c + length bs), bs).

(** [reader.seek(SeekFrom::Start(p))] and [reader.seek(SeekFrom::End(0))]. *)
Definition seek_start (c : Cursor) (p : Z) : Cursor := cursor_at c (Z.to_nat p).
Definition seek_end (c : Cursor) : Cursor * Z :=
  (cursor_at c (length (inner c)), Z.of_nat (length (inner c))).

Record QueuedPacket := {
  range_start : nat;
  range_end : nat;
  is_complete : bool
}.

Record Packet := {
  data : list Z;
  bitstream_serial_number : Z;
  granule_position : Z;
  is_bos : bool;
  is_eos : bool
}.

Definition default_packet : Packet :=
  {| data := []; bitstream_serial_number := 0; granule_position := 0;
     is_bos := false; is_eos := false |}.

Definition set_data (p : Packet) (d : list Z) : Packet :=
  {| data := d; bitstream_serial_number := bitstream_serial_number p;
     granule_position := granule_position p; is_bos := is_bos p; is_eos := is_eos p |}.
Definition set_bos (p : Packet) : Packet :=
  {| data := data p; bitstream_serial_number := bitstream_serial_number p;
     granule_position := granule_position p; is_bos := true; is_eos := is_eos p |}.
Definition set_eos (p : Packet) : Packet :=
  {| data := data p; bitstream_serial_number := bitstream_serial_number p;
     granule_position := granule_position p; is_bos := is_bos p; is_eos := true |}.

(** [page_buffer] is a [Box<[u8]>] of 65_307 bytes, here a function from index to
    byte; every index the reader touches is below 65_307. *)
Record BitStreamReader := {
  page_buffer : nat -> Z;
  queued_packets : list QueuedPacket;
  current_bitstream_serial_number : Z;
  current_page_sequence_number : Z;
  current_granule_position : Z;
  current_is_eos : bool
}.

Definition default_reader : BitStreamReader :=
  {| page_buffer := fun _ => 0%Z; queued_packets := [];
     current_bitstream_serial_number := 0; current_page_sequence_number := 0;
     current_granule_position := 0; current_is_eos := false |}.

Definition set_page_buffer (r : BitStreamReader) (b : nat -> Z) : BitStreamReader :=
  {| page_buffer := b; queued_packets := queued_packets r;
     current_bitstream_serial_number := current_bitstream_serial_number r;
     current_page_sequence_number := current_page_sequence_number r;
     current_granule_position := current_granule_position r;
     current_is_eos := current_is_eos r |}.
Definition set_queued_packets (r : BitStreamReader) (q : list QueuedPacket) : BitStreamReader :=
  {| page_buffer := page_buffer r; queued_packets := q;
     current_bitstream_serial_number := current_bitstream_serial_number r;
     current_page_sequence_number := current_page_sequence_number r;
     current_granule_position := current_granule_position r;
     current_is_eos := current_is_eos r |}.
Definition set_current (r : BitStreamReader) (serial granule : Z) (eos : bool) : BitStreamReader :=
  {| page_buffer := page_buffer r; queued_packets := queued_packets r;
     current_bitstream_serial_number := serial;
     current_page_sequence_number := current_page_sequence_number r;
     current_granule_position := granule;
     current_is_eos := eos |}.

(** [page_buffer[off..off + bytes.len()].copy_from_slice(bytes)] and [&page_buffer[a..b]]. *)
Definition buf_write (b : nat -> Z) (off : nat) (bytes : list Z) : nat -> Z :=
  fun i => if (off <=? i) && (i <? off + length bytes) then nth (i - off) bytes 0%Z else b i.
Definition buf_read (b : nat -> Z) (a e : nat) : list Z := map b (seq a (e - a)).

(** [handle_eof!]: an error whose source is an [std::io::Error] becomes the given
    status, any other error is returned. *)
Definition handle_eof {A : Type} (e : ReadError.t) (action : A) : res A ReadError.t :=
  match e with
  | ReadError.IoError => Ok action
  | e => Err e
  end.

(** The match counter of [sync_with_next_page] over the first four bytes. *)
Definition marker_step (marker_found : nat) (byte : Z) : nat :=
  if (byte =? nth marker_found PAGER_MARKER 0)%Z then S marker_found else 0.

(** The re-sync loop [for _ in 0..MAX_PAGE_SIZE]; [fuel] counts the iterations left. *)
Fixpoint resync (fuel : nat) (marker_found : nat) (c : Cursor) : Cursor * res unit ReadError.t :=
  match fuel with
  | O => (c, Err ReadError.UnableToSync)
  | S fuel' =>
      if marker_found =? 4 then (c, Ok tt) else
      match read_exact c 1 with
      | (c, Ok buffer) => resync fuel' (marker_step marker_found (nth 0 buffer 0%Z)) c
      | (c, Err e) => (c, Err e)
      | (c, Panic p) => (c, Panic p)
      end
  end.

Definition sync_with_next_page (c : Cursor) : Cursor * res unit ReadError.t :=
  match read_exact c 4 with
  | (c, Ok buffer) =>
      if list_eq_dec Z.eq_dec buffer PAGER_MARKER then (c, Ok tt)
      else resync MAX_PAGE_SIZE (fold_left marker_step buffer 0) c
  | (c, Err e) => (c, Err e)
  | (c, Panic p) => (c, Panic p)
  end.

(** The lacing loop of [read_page_data]: returns [segment_size], [read_size] and
    the queue with the complete packets pushed. *)
Fixpoint lacing_loop (table_end : nat) (laces : list Z) (segment_size read_size : nat)
  (queue : list QueuedPacket) : nat * nat * list QueuedPacket :=
  match laces with
  | [] => (segment_size, read_size, queue)
  | lace :: rest =>
      let bytes := Z.to_nat lace in
      let segment_size := segment_size + bytes in
      if bytes =? 255 then lacing_loop table_end rest segment_size read_size queue
      else lacing_loop table_end rest 0 (read_size + segment_size)
             (queue ++ [{| range_start := table_end + read_size;
                           range_end := table_end + read_size + segment_size;
                           is_complete := true |}])
  end.

Definition read_page_data (st : BitStreamReader) (c : Cursor)
  : BitStreamReader * Cursor * res nat ReadError.t :=
  let buf := buf_write (page_buffer st) 0 PAGER_MARKER in
  match read_exact c 23 with
  | (c, Ok header) =>
      let buf := buf_write buf 4 header in
      let table_size := Z.to_nat (buf SEGMENT_COUNT_INDEX) in
      let table_start := SEGMENT_TABLE_INDEX in
      let table_end := SEGMENT_TABLE_INDEX + table_size in
      match read_exact c table_size with
      | (c, Ok table) =>
          let buf := buf_write buf table_start table in
          let '(segment_size, read_size, queue) :=
            lacing_loop table_end (buf_read buf table_start table_end) 0 0 (queued_packets st) in
          let '(read_size, queue) :=
            if segment_size =? 0 then (read_size, queue)
            else (read_size + segment_size,
                  queue ++ [{| range_start := table_end + read_size;
                               range_end := table_end + read_size + segment_size;
                               is_complete := false |}]) in
          let page_end := table_start + table_size + read_size in
          let st := set_queued_packets (set_page_buffer st buf) queue in
          match read_exact c (page_end - table_end) with
          | (c, Ok payload) => (set_page_buffer st (buf_write buf table_end payload), c, Ok page_end)
          | (c, Err e) => (st, c, Err e)
          | (c, Panic p) => (st, c, Panic p)
          end
      | (c, Err e) => (set_page_buffer st buf, c, Err e)
      | (c, Panic p) => (set_page_buffer st buf, c, Panic p)
      end
  | (c, Err e) => (set_page_buffer st buf, c, Err e)
  | (c, Panic p) => (set_page_buffer st buf, c, Panic p)
  end.

Definition verify_crc32 (st : BitStreamReader) (page_size : nat) : BitStreamReader * bool :=
  let target_crc := parse_u32_le (buf_read (page_buffer st) 22 26) in
  let buf := buf_write (page_buffer st) 22 [0; 0; 0; 0]%Z in
  (set_page_buffer st buf, (target_crc =? crc32 (buf_read buf 0 page_size))%Z).

(** [write_frame]: its [write_all] into a [Vec<u8>] cannot fail. *)
Definition write_frame (st : BitStreamReader) (packet : Packet) (q : QueuedPacket) : Packet :=
  {| data := data packet ++ buf_read (page_buffer st) (range_start q) (range_end q);
     bitstream_serial_number := current_bitstream_serial_number st;
     granule_position := current_granule_position st;
     is_bos := false;
     is_eos := false |}.

(** The [loop] of [next_packet]. [fuel] bounds the iterations; callers pass one
    more than the bytes left, and every iteration that continues has consumed a
    page header, so [O] is never reached. *)
Fixpoint next_packet_loop (fuel : nat) (st : BitStreamReader) (packet : Packet) (c : Cursor)
  : BitStreamReader * Packet * Cursor * res ReadStatus.t ReadError.t :=
  match fuel with
  | O => (st, packet, c, Ok ReadStatus.Eof)
  | S fuel' =>
      match sync_with_next_page c with
      | (c, Err e) => (st, packet, c, handle_eof e ReadStatus.Eof)
      | (c, Panic p) => (st, packet, c, Panic p)
      | (c, Ok _) =>
      match read_page_data st c with
      | (st, c, Err e) => (st, packet, c, handle_eof e ReadStatus.Eof)
      | (st, c, Panic p) => (st, packet, c, Panic p)
      | (st, c, Ok page_size) =>
      let '(st, crc_ok) := verify_crc32 st page_size in
      if negb crc_ok then
        (set_queued_packets st [], set_data packet [], c, Ok ReadStatus.Missing)
      else
      let buf := page_buffer st in
      let version := buf VERSION_INDEX in
      let header_type := buf HEADER_TYPE_INDEX in
      let granule := parse_u64_le (buf_read buf 6 14) in
      let serial := parse_u32_le (buf_read buf 14 18) in
      let page_sequence_number := parse_u32_le (buf_read buf 18 22) in
      let is_continuation := (Z.land header_type CONTINUATION_VALUE =? 1)%Z in
      let is_bos := (Z.shiftr (Z.land header_type BOS_VALUE) 1 =? 1)%Z in
      let is_eos := (Z.shiftr (Z.land header_type EOS_VALUE) 2 =? 1)%Z in
      if negb (version =? 0)%Z then
        (st, packet, c, Err (ReadError.UnhandledBitstreamVersion version))
      else
      let st := set_current st serial granule is_eos in
      (* [!packet.data.is_empty() && (current_serial != serial
          || (current_page_sequence_number + 1) > page_sequence_number)] *)
      let discard :=
        match data packet with
        | [] => Ok false
        | _ =>
            if negb (current_bitstream_serial_number st =? serial)%Z then Ok true
            else if (current_page_sequence_number st <? U32_MAX)%Z
            then Ok (page_sequence_number <? current_page_sequence_number st + 1)%Z
            else Panic ArithmeticOverflow
        end in
      match discard with
      | Err e => (st, packet, c, Err e)
      | Panic p => (st, packet, c, Panic p)
      | Ok discard =>
      let packet := if discard then set_data packet [] else packet in
      match queued_packets st with
      | [] => (st, packet, c, Ok ReadStatus.Missing)
      | q :: rest =>
          let st := set_queued_packets st rest in
          if is_continuation && negb (match data packet with [] => true | _ => false end) then
            (st, packet, c, Ok ReadStatus.Missing)
          else
          let packet := write_frame st packet q in
          if negb (is_complete q) then next_packet_loop fuel' st packet c
          else (st, (if is_bos then set_bos packet else packet), c, Ok ReadStatus.Ok)
      end
      end
      end
      end
  end.

Definition next_packet (st : BitStreamReader) (packet : Packet) (c : Cursor)
  : BitStreamReader * Packet * Cursor * res ReadStatus.t ReadError.t :=
  let packet := set_data packet [] in
  let is_last_packet := length (queued_packets st) =? 1 in
  let fuel := S (length (remaining c)) in
  match queued_packets st with
  | [] => next_packet_loop fuel st packet c
  | q :: rest =>
      let st := set_queued_packets st rest in
      let packet := write_frame st packet q in
      let packet := if is_last_packet && current_is_eos st then set_eos packet else packet in
      if is_complete q then (st, packet, c, Ok ReadStatus.Ok)
      else next_packet_loop fuel st packet c
  end.

(** A caller's read loop: [next_packet] called [n] times at most with one reused
    [Packet], stopping after [Eof] or an error; each call's outcome is recorded
    with the packet after the call. *)
Fixpoint read_trace (n : nat) (st : BitStreamReader) (packet : Packet) (c : Cursor)
  : list (res ReadStatus.t ReadError.t * Packet) :=
  match n with
  | O => []
  | S n' =>
      let '(st, packet, c, r) := next_packet st packet c in
      (r, packet) :: match r with
                     | Ok ReadStatus.Ok | Ok ReadStatus.Missing => read_trace n' st packet c
                     | _ => []
                     end
  end.

(** The packets a reader over [bytes] decodes (those returned with [Ok]). *)
Definition decoded_packets (bytes : list Z) : list Packet :=
  flat_map (fun '(r, p) => match r with Ok ReadStatus.Ok => [p] | _ => [] end)
    (read_trace (S (length bytes)) default_reader default_packet
       {| inner := bytes; position := 0 |}).

Record ProbeResult := {
  probe_granule_position : Z;
  probe_bitstream_serial_number : Z;
  probe_start : Z;
  probe_end : Z
}.

Record SearchResult := {
  packet_start : Z;
  packet_end : Z;
  search_granule_position : Z
}.

(** [u64] addition and subtraction with overflow checks. *)
Definition u64_add (a b : Z) : res Z ReadError.t :=
  if (a + b <=? U64_MAX)%Z then Ok (a + b)%Z else Panic ArithmeticOverflow.
Definition u64_sub (a b : Z) : res Z ReadError.t :=
  if (b <=? a)%Z then Ok (a - b)%Z else Panic ArithmeticOverflow.

(** The payload size [probe_page] computes: the sum of the lacing values other than 255. *)
Definition probe_payload_size (laces : list Z) : nat :=
  fold_left (fun acc lace => if Z.to_nat lace =? 255 then acc else acc + Z.to_nat lace) laces 0.

Definition probe_page (st : BitStreamReader) (c : Cursor) (page_start : Z)
  : BitStreamReader * Cursor * res ProbeResult ReadError.t :=
  let c := seek_start c page_start in
  match read_exact c 27 with
  | (c, Ok header) =>
      let buf := buf_write (page_buffer st) 0 header in
      let granule := parse_u64_le (buf_read buf 6 14) in
      let serial := parse_u32_le (buf_read buf 14 18) in
      let table_size := Z.to_nat (buf SEGMENT_COUNT_INDEX) in
      let table_end := SEGMENT_TABLE_INDEX + table_size in
      match read_exact c table_size with
      | (c, Ok table) =>
          let buf := buf_write buf SEGMENT_TABLE_INDEX table in
          let payload_size := probe_payload_size (buf_read buf SEGMENT_TABLE_INDEX table_end) in
          let st := set_page_buffer st buf in
          match u64_add page_start (Z.of_nat (SEGMENT_TABLE_INDEX + table_size + payload_size)) with
          | Ok page_end =>
              (st, c, Ok {| probe_granule_position := granule;
                            probe_bitstream_serial_number := serial;
                            probe_start := page_start; probe_end := page_end |})
          | Err e => (st, c, Err e)
          | Panic p => (st, c, Panic p)
          end
      | (c, Err e) => (set_page_buffer st buf, c, Err e)
      | (c, Panic p) => (set_page_buffer st buf, c, Panic p)
      end
  | (c, Err e) => (st, c, Err e)
  | (c, Panic p) => (st, c, Panic p)
  end.

(** The inner [loop] of [search_next_packet] over one chunk: the index [i] at which
    [marker_found == 4] is seen, or [None] once [i >= read]. *)
Fixpoint scan_chunk (bytes : list Z) (i marker_found : nat) : option nat :=
  match bytes with
  | [] => None
  | b :: rest =>
      if marker_found =? 4 then Some i
      else scan_chunk rest (S i) (marker_step marker_found b)
  end.

(** The ['outer] loop of [search_next_packet]. A loop that does not finish within
    [fuel] iterations gives [None]. *)
Fixpoint search_loop (fuel : nat) (st : BitStreamReader) (c : Cursor) (serial : Z)
  (search_start packet_start : Z)
  : option (BitStreamReader * Cursor * res SearchResult ReadError.t) :=
  match fuel with
  | O => None
  | S fuel' =>
      let '(c, chunk) := read c 64 in
      match chunk with
      | [] => Some (st, c, Err ReadError.IoError)
      | _ =>
          match scan_chunk chunk 0 0 with
          | None =>
              match u64_add search_start (64 - 3) with
              | Ok search_start =>
                  search_loop fuel' st (seek_start c search_start) serial search_start packet_start
              | Err e => Some (st, c, Err e)
              | Panic p => Some (st, c, Panic p)
              end
          | Some i =>
              match bind (u64_sub search_start 4) (fun s => u64_add s (Z.of_nat i)) with
              | Err e => Some (st, c, Err e)
              | Panic p => Some (st, c, Panic p)
              | Ok page_start =>
                  match probe_page st c page_start with
                  | (st, c, Err e) => Some (st, c, Err e)
                  | (st, c, Panic p) => Some (st, c, Panic p)
                  | (st, c, Ok page) =>
                      if negb (probe_bitstream_serial_number page =? serial)%Z then
                        search_loop fuel' st (seek_start c (probe_end page)) serial
                          search_start packet_start
                      else
                      let packet_start := Z.min packet_start (probe_start page) in
                      if (probe_granule_position page =? U64_MAX)%Z then
                        search_loop fuel' st (seek_start c (probe_end page)) serial
                          search_start packet_start
                      else Some (st, c, Ok {| packet_start := packet_start;
                                              packet_end := probe_end page;
                                              search_granule_position := probe_granule_position page |})
                  end
              end
          end
      end
  end.

Definition search_next_packet (fuel : nat) (st : BitStreamReader) (c : Cursor) (serial : Z)
  : option (BitStreamReader * Cursor * res SearchResult ReadError.t) :=
  search_loop fuel st c serial (Z.of_nat (position c)) U64_MAX.

(** The linear [loop] of [seek]: [Ok (Some target)] is [break 'outer] with that
    target, errors of [search_next_packet] are returned by [?]. *)
Fixpoint linear_loop (fuel : nat) (st : BitStreamReader) (c : Cursor) (serial target_granule left : Z)
  : option (BitStreamReader * Cursor * res Z ReadError.t) :=
  match fuel with
  | O => None
  | S fuel' =>
      match search_next_packet fuel st (seek_start c left) serial with
      | None => None
      | Some (st, c, Ok r) =>
          if (target_granule <? search_granule_position r)%Z then Some (st, c, Ok left)
          else linear_loop fuel' st c serial target_granule (packet_end r)
      | Some (st, c, Err e) => Some (st, c, Err e)
      | Some (st, c, Panic p) => Some (st, c, Panic p)
      end
  end.

(** The ['outer: while left < right] loop of [seek]; its [Ok] value is the final
    [target]. *)
Fixpoint bisect_loop (fuel : nat) (st : BitStreamReader) (c : Cursor) (serial target_granule : Z)
  (left right target : Z) : option (BitStreamReader * Cursor * res Z ReadError.t) :=
  match fuel with
  | O => None
  | S fuel' =>
      if negb (left <? right)%Z then Some (st, c, Ok target) else
      match u64_add left right with
      | Err e => Some (st, c, Err e)
      | Panic p => Some (st, c, Panic p)
      | Ok sum =>
      let mid := (sum / 2)%Z in
      match search_next_packet fuel st (seek_start c mid) serial with
      | None => None
      | Some (st, c, Err e) =>
          match handle_eof e tt with
          | Ok _ => Some (st, c, Ok target)
          | Err e => Some (st, c, Err e)
          | Panic p => Some (st, c, Panic p)
          end
      | Some (st, c, Panic p) => Some (st, c, Panic p)
      | Some (st, c, Ok r) =>
          let target := packet_start r in
          let pos := search_granule_position r in
          if (pos =? target_granule)%Z then Some (st, c, Ok target) else
          let left := if (pos <? target_granule)%Z then Z.min (mid + 1) U64_MAX else left in
          let right := if (pos <? target_granule)%Z then right else Z.max (mid - 1) 0 in
          match u64_sub right left with
          | Err e => Some (st, c, Err e)
          | Panic p => Some (st, c, Panic p)
          | Ok width =>
              if (width <? 1024)%Z then linear_loop fuel st c serial target_granule left
              else bisect_loop fuel' st c serial target_granule left right target
          end
      end
      end
  end.

(** [BitStreamReader::seek]; [None] when a loop does not finish within [fuel]
    iterations. *)
Definition seek (fuel : nat) (st : BitStreamReader) (c : Cursor) (serial target_granule : Z)
  : option (BitStreamReader * Cursor * res unit ReadError.t) :=
  let st := set_queued_packets st [] in
  if (target_granule =? U64_MAX)%Z then Some (st, fst (seek_end c), Ok tt)
  else if (target_granule =? 0)%Z then Some (st, seek_start c 0, Ok tt)
  else
    let '(c, max_right) := seek_end c in
    match bisect_loop fuel st c serial target_granule 0 max_right 0 with
    | None => None
    | Some (st, c, Ok target) => Some (st, seek_start c target, Ok tt)
    | Some (st, c, Err e) => Some (st, c, Err e)
    | Some (st, c, Panic p) => Some (st, c, Panic p)
    end.

End Reader.

(** ** Observations on pages and writer runs *)

(** Header fields of an emitted page, read at the offsets of [lib.rs]. *)
Definition page_header_type (page : list Z) : Z := nth HEADER_TYPE_INDEX page 0%Z.
Definition page_granule (page : list Z) : Z := parse_u64_le (skipn 6 page).
Definition page_segment_count (page : list Z) : Z := nth SEGMENT_COUNT_INDEX page 0%Z.
Definition page_segment_table (page : list Z) : list Z :=
  firstn (Z.to_nat (page_segment_count page)) (skipn SEGMENT_TABLE_INDEX page).

(** The lacing values [write_page] writes for a queued packet of [size] bytes. *)
Definition lacing (size : nat) : list Z :=
  repeat 255%Z (size / 255) ++ (if 0 <? size mod 255 then [Z.of_nat (size mod 255)] else []).
Definition lacing_values (sizes : list nat) : list Z := flat_map lacing sizes.

(** A sequence of calls on a [StreamWriter]. *)
Inductive WriterOp :=
| BeginStream (serial : Z) (packet : list Z)
| PushPacket (serial : Z) (packet : list Z) (granule : Z)
| EndStream (serial : Z) (packet : list Z) (granule : Z)
| FlushStream (serial : Z).

Definition run_op (w : Writer.StreamWriter) (op : WriterOp) : Writer.StreamWriter * res unit WriteError.t :=
  match op with
  | BeginStream s d => Writer.StreamWriter.begin_logical_stream w s d
  | PushPacket s d g => Writer.StreamWriter.push_packet w s d g
  | EndStream s d g => Writer.StreamWriter.end_logical_stream w s d g
  | FlushStream s => Writer.StreamWriter.flush w s
  end.

(** Runs the calls in order, stopping at the first one that does not return [Ok]. *)
Fixpoint run_writer (w : Writer.StreamWriter) (ops : list WriterOp)
  : Writer.StreamWriter * res unit WriteError.t :=
  match ops with
  | [] => (w, Ok tt)
  | op :: rest =>
      match run_op w op with
      | (w, Ok _) => run_writer w rest
      | other => other
      end
  end.

(** Runs the calls in order as a caller that handles an [Err] and goes on with the
    next call; a panic ends the run. *)
Fixpoint run_writer_all (w : Writer.StreamWriter) (ops : list WriterOp) : Writer.StreamWriter :=
  match ops with
  | [] => w
  | op :: rest =>
      match run_op w op with
      | (w, Panic _) => w
      | (w, _) => run_writer_all w rest
      end
  end.

(** The bytes written by a fresh writer over a [Vec<u8>] after the calls [ops]. *)
Definition written_bytes (ops : list WriterOp) : list Z :=
  Writer.sink_bytes (Writer.writer (fst (run_writer (Writer.new Writer.vec_sink) ops))).

(** The fields of a read packet: data, serial, granule position, BOS and EOS. *)
Definition packet_view (p : Reader.Packet) : list Z * Z * Z * bool * bool :=
  (Reader.data p, Reader.bitstream_serial_number p, Reader.granule_position p,
   Reader.is_bos p, Reader.is_eos p).

(** A CRC-valid page built with the writer's layout, for inputs the writer does not
    produce itself. *)
Definition crc_page (header_type granule serial sequence : Z) (table payload : list Z) : list Z :=
  let count := Z.of_nat (length table) in
  Writer.assemble_page header_type granule serial sequence
    (crc32 (Writer.assemble_page header_type granule serial sequence 0 count table payload))
    count table payload.

(** Page A: serial 7, sequence 0, an unfinished packet of 255 bytes of value 1. *)
Definition unfinished_page : list Z := crc_page 0 U64_MAX 7 0 [255%Z] (repeat 1%Z 255).
(** Page B: serial 7, sequence 1, continuation flag, the last byte (2) of that packet. *)
Definition continuation_page : list Z := crc_page CONTINUATION_VALUE 9 7 1 [1%Z] [2%Z].
(** Page B': serial 8, sequence 1, no continuation flag, a packet [[3]]. *)
Definition other_stream_page : list Z := crc_page 0 9 8 1 [1%Z] [3%Z].

Definition cursor_of (bytes : list Z) : Reader.Cursor := {| Reader.inner := bytes; Reader.position := 0 |}.

(** A stream state whose queue holds 256 one-byte packets. *)
Definition state_256_bytes : Writer.StreamState :=
  {| Writer.bitstream_serial_number := 1;
     Writer.data_buffer := repeat 0%Z MAX_PAGE_DATA_SIZE;
     Writer.data_head := 256;
     Writer.packet_sizes := repeat 1 256;
     Writer.page_sequence_number := 1;
     Writer.granule_position := 0;
     Writer.header_type := 0 |}.

(** A writer with one live stream of serial 1 over a sink whose writes all fail. *)
Definition failing_writer : Writer.StreamWriter :=
  {| Writer.writer := {| Writer.sink_pages := []; Writer.sink_count := 0;
                         Writer.sink_fails := fun _ => true |};
     Writer.stream_states := [Writer.new_state 1] |}.

(** The fixed part of a page header, before the segment count. *)
Definition page_prefix (ht granule serial sequence crc : Z) : list Z :=
  PAGER_MARKER ++ [0%Z; ht] ++ le_bytes 8 granule ++ le_bytes 4 serial
  ++ le_bytes 4 sequence ++ le_bytes 4 crc.

(** A page whose segment table is the lacing of some packet sizes and has at most
    255 entries. *)
Definition lacing_page (page : list Z) : Prop :=
  exists sizes,
    page_segment_table page = lacing_values sizes /\
    page_segment_count page = Z.of_nat (length (lacing_values sizes)) /\
    length (lacing_values sizes) <= 255.

(** The header type of the [i]-th page emitted by the splitting loop. *)
Definition continuation_header (first : bool) (i : nat) : Z :=
  if first && (i =? 0) then 0%Z else CONTINUATION_VALUE.

(** A writer over a [Vec<u8>] sink with one fresh stream of serial 1. *)
Definition one_stream_writer : Writer.StreamWriter :=
  {| Writer.writer := Writer.vec_sink; Writer.stream_states := [Writer.new_state 1] |}.

(** The page [write_page] emits for a header type, granule position, serial,
    sequence number, segment table and data: the granule position is replaced by
    [u64::MAX] when the table has 255 entries, and the CRC field holds the CRC-32
    of the page with that field zero. *)
Definition page_bytes (ht granule serial sequence : Z) (table data : list Z) : list Z :=
  let cnt := Z.of_nat (length table) in
  let g := if (cnt =? 255)%Z then U64_MAX else granule in
  let page0 := Writer.assemble_page ht g serial sequence 0 cnt table data in
  Writer.assemble_page ht g serial sequence (crc32 page0) cnt table data.

(** A page whose stored CRC is the CRC-32 of the page with its CRC field zeroed,
    the test of [verify_crc32]. *)
Definition crc_valid (page : list Z) : bool := (stored_crc page =? crc32 (zero_crc page))%Z.

Definition page_serial (page : list Z) : Z := parse_u32_le (skipn 14 page).
Definition page_sequence (page : list Z) : Z := parse_u32_le (skipn 18 page).
Definition page_version (page : list Z) : Z := nth VERSION_INDEX page 0%Z.

(** A stream with two bytes of a buffered packet of size 2 (out of a buffer of
    three), serial 1, sequence number 3 and granule position 10. *)
Definition pending_state : Writer.StreamState :=
  {| Writer.bitstream_serial_number := 1; Writer.data_buffer := [5; 6; 7]%Z;
     Writer.data_head := 2; Writer.packet_sizes := [2]; Writer.page_sequence_number := 3;
     Writer.granule_position := 10; Writer.header_type := 0 |}.

(** A writer over sink [w] with that one stream. *)
Definition pending_writer (w : Writer.Sink) : Writer.StreamWriter :=
  {| Writer.writer := w; Writer.stream_states := [pending_state] |}.

(** * Theorems *)

Example crc32_test_sync_page :
  crc32 (zero_crc test_sync_page) = stored_crc test_sync_page.
Proof. vm_compute. reflexivity. Qed.

(** C1 (code bug). Round trip of [begin_logical_stream(1, [1])] then
    [end_logical_stream(1, [2], 5)]: both calls succeed and the reader returns the
    two packets with their serial, bytes and granule positions, [is_bos] on the
    first, but [is_eos] is false on the last packet of the stream. *)
Theorem round_trip_last_packet_not_eos :
  snd (run_writer (Writer.new Writer.vec_sink) [BeginStream 1 [1%Z]; EndStream 1 [2%Z] 5]) = Ok tt /\
  map packet_view
    (Reader.decoded_packets (written_bytes [BeginStream 1 [1%Z]; EndStream 1 [2%Z] 5]))
  = [([1%Z], 1%Z, 0%Z, true, false); ([2%Z], 1%Z, 5%Z, false, false)].
Proof. split; vm_compute; reflexivity. Qed.

(** C2 (code bug). After [begin_logical_stream(1, [1])] and
    [push_packet(1, [2], 5)] the page buffer of stream 1 holds one byte; a second
    [push_packet(1, [3], 6)], which fits, panics on the out-of-range source slice
    [packet_data[1..2]] instead of appending [3] at offset 1. *)
Theorem push_packet_into_nonempty_buffer_panics :
  let w := run_writer (Writer.new Writer.vec_sink) [BeginStream 1 [1%Z]; PushPacket 1 [2%Z] 5] in
  snd w = Ok tt /\
  snd (Writer.StreamWriter.page_is_empty (fst w) 1) = Ok false /\
  snd (Writer.StreamWriter.push_packet (fst w) 1 [3%Z] 6) = Panic IndexOutOfBounds.
Proof. vm_compute. repeat split; reflexivity. Qed.

(** C3 (code bug). Cross-page stitching on two CRC-valid pages. With page A
    (serial 7, sequence 0, unfinished packet) followed by its continuation page B
    (serial 7, sequence 1, continuation flag), [next_packet] returns [Missing] and
    keeps only the 255 bytes of page A instead of appending the byte of page B.
    With page A followed by page B' of serial 8 (sequence 1, no continuation flag),
    the partial data is not discarded: the byte of B' is appended to it and
    returned as one packet of serial 8. *)
Theorem stitching_on_valid_pages :
  (let '(_, p, _, r) := Reader.next_packet Reader.default_reader Reader.default_packet
                           (cursor_of (unfinished_page ++ continuation_page)) in
   (r, Reader.data p)) = (Ok ReadStatus.Missing, repeat 1%Z 255) /\
  (let '(_, p, _, r) := Reader.next_packet Reader.default_reader Reader.default_packet
                           (cursor_of (unfinished_page ++ other_stream_page)) in
   (r, Reader.data p, Reader.bitstream_serial_number p))
  = (Ok ReadStatus.Ok, repeat 1%Z 255 ++ [3%Z], 8%Z).
Proof. split; vm_compute; reflexivity. Qed.


(** C5 (code bug). A packet of 255 bytes, a multiple of 255, written by
    [begin_logical_stream(1, ...)]: its page has one segment-table entry, [255],
    and no terminating [0] entry. The project's reader then never returns the
    packet: it stays unfinished. *)
Theorem lacing_multiple_of_255_no_terminator :
  let w := run_writer (Writer.new Writer.vec_sink) [BeginStream 1 (repeat 9%Z 255)] in
  snd w = Ok tt /\
  map page_segment_table (Writer.sink_pages (Writer.writer (fst w))) = [[255%Z]] /\
  Reader.decoded_packets (written_bytes [BeginStream 1 (repeat 9%Z 255)]) = [].
Proof. vm_compute. repeat split; reflexivity. Qed.

(** C7 (code bug). The bytes written by [begin_logical_stream(1, [1])] decode to
    the packet [[1]]; with a single stray byte [0x4F] ([O]) in front of them, the
    search for the capture pattern resets on the second [O] without re-testing it,
    skips the page, and nothing is decoded. *)
Theorem stray_capture_byte_hides_page :
  map packet_view (Reader.decoded_packets (written_bytes [BeginStream 1 [1%Z]]))
  = [([1%Z], 1%Z, 0%Z, true, false)] /\
  Reader.decoded_packets (79%Z :: written_bytes [BeginStream 1 [1%Z]]) = [].
Proof. split; vm_compute; reflexivity. Qed.

(** C4 (code bug). The splitting loop of [push_packet] sets the caller's granule
    position on the final slice only, but [write_page] replaces it by [u64::MAX]
    whenever the segment table has 255 entries. A packet of [2 * MAX_PAGE_DATA_SIZE]
    bytes with granule position 42, pushed to a stream whose buffer is empty, is split
    over two pages; the last page, whose segment table has 255 entries, carries the
    granule position [u64::MAX] instead of 42. *)
Lemma split_last_page_granule_overridden :
  let w := Writer.StreamWriter.push_packet
             (fst (run_writer (Writer.new Writer.vec_sink) [BeginStream 1 [1%Z]]))
             1 (repeat 5%Z (2 * MAX_PAGE_DATA_SIZE)) 42 in
  snd w = Ok tt /\
  map (fun p => (page_header_type p, page_granule p))
      (skipn 1 (Writer.sink_pages (Writer.writer (fst w))))
  = [(0%Z, U64_MAX); (CONTINUATION_VALUE, U64_MAX)].
Proof. vm_compute. split; reflexivity. Qed.

(** ** Seeking to the ends of the stream *)

(** C9. For every source, serial and amount of loop fuel, [seek(serial, 0)] clears
    the packet queue, moves the cursor to offset 0 and returns [Ok]; [seek(serial,
    u64::MAX)] clears the queue, moves the cursor to the end of the input and returns
    [Ok]. No page is read: the page buffer and the current-page fields are left as
    they were and the result does not depend on the fuel of the search loops. *)
Theorem seek_edge_targets :
  forall fuel st c serial,
    Reader.seek fuel st c serial 0 =
      Some (Reader.set_queued_packets st [], Reader.cursor_at c 0, Ok tt) /\
    Reader.seek fuel st c serial U64_MAX =
      Some (Reader.set_queued_packets st [], Reader.cursor_at c (length (Reader.inner c)), Ok tt).
Proof. intros; split; reflexivity. Qed.

(** ** Writer bookkeeping of live streams *)

Module WriterStreams.
Import Writer.

Lemma find_stream_filter_none :
  forall l serial,
    find_stream (filter (fun s => negb (bitstream_serial_number s =? serial)%Z) l) serial = None.
Proof.
  induction l as [|s l IH]; intros serial; [reflexivity|].
  simpl. destruct (bitstream_serial_number s =? serial)%Z eqn:E; simpl; [apply IH|].
  rewrite E, IH. reflexivity.
Qed.

Lemma filter_all_kept :
  forall l serial,
    ~ In serial (map bitstream_serial_number l) ->
    filter (fun s => negb (bitstream_serial_number s =? serial)%Z) l = l.
Proof.
  induction l as [|s l IH]; intros serial Hn; [reflexivity|].
  simpl in *. destruct (Z.eqb_spec (bitstream_serial_number s) serial); [tauto|].
  simpl. rewrite IH; tauto.
Qed.

Lemma find_stream_remove_nth :
  forall l serial i s,
    NoDup (map bitstream_serial_number l) ->
    find_stream l serial = Some (i, s) ->
    remove_nth l i = filter (fun s => negb (bitstream_serial_number s =? serial)%Z) l.
Proof.
  induction l as [|s0 l IH]; intros serial i s Hnd Hf; [discriminate|].
  simpl in Hf, Hnd. inversion Hnd as [|? ? Hnin Hnd']; subst.
  simpl. destruct (Z.eqb_spec (bitstream_serial_number s0) serial) as [E|E].
  - injection Hf as <- <-. unfold remove_nth. simpl.
    symmetry. apply filter_all_kept. rewrite <- E. exact Hnin.
  - simpl. destruct (find_stream l serial) as [[j s']|] eqn:F; [|discriminate].
    injection Hf as <- <-. unfold remove_nth in *. simpl. f_equal.
    eapply IH; eauto.
Qed.

Lemma end_logical_stream_states :
  forall w serial d g i s,
    find_stream (stream_states w) serial = Some (i, s) ->
    stream_states (fst (StreamWriter.end_logical_stream w serial d g)) =
      remove_nth (stream_states w) i.
Proof.
  intros w serial d g i s F. unfold StreamWriter.end_logical_stream. rewrite F.
  repeat match goal with
         | |- context [match ?x with _ => _ end] => destruct x
         end; reflexivity.
Qed.

(** C10. If the serials of the live streams are distinct and
    [end_logical_stream(serial, ...)] fails with an I/O error, the stream was live,
    its state has been removed from the writer (with whatever it had buffered), and
    the next [push_packet], [flush], [end_logical_stream] or [page_is_empty] call
    with that serial fails with [UnknownBitstreamSerialNumber] and changes nothing. *)
Theorem end_logical_stream_io_error_forgets_stream :
  forall (w w' : StreamWriter) serial last_packet_data granule,
    NoDup (map bitstream_serial_number (stream_states w)) ->
    StreamWriter.end_logical_stream w serial last_packet_data granule = (w', Err WriteError.IoError) ->
    (exists i s, find_stream (stream_states w) serial = Some (i, s)) /\
    stream_states w' =
      filter (fun s => negb (bitstream_serial_number s =? serial)%Z) (stream_states w) /\
    (forall d g, StreamWriter.push_packet w' serial d g =
                   (w', Err WriteError.UnknownBitstreamSerialNumber)) /\
    StreamWriter.flush w' serial = (w', Err WriteError.UnknownBitstreamSerialNumber) /\
    (forall d g, StreamWriter.end_logical_stream w' serial d g =
                   (w', Err WriteError.UnknownBitstreamSerialNumber)) /\
    StreamWriter.page_is_empty w' serial = (w', Err WriteError.UnknownBitstreamSerialNumber).
Proof.
  intros w w' serial d g Hnd He.
  destruct (find_stream (stream_states w) serial) as [[i s]|] eqn:F.
  2:{ unfold StreamWriter.end_logical_stream in He. rewrite F in He. discriminate. }
  assert (Hs : stream_states w' =
                 filter (fun s => negb (bitstream_serial_number s =? serial)%Z) (stream_states w)).
  { pose proof (end_logical_stream_states w serial d g i s F) as E.
    rewrite He in E. simpl in E. rewrite E. eapply find_stream_remove_nth; eauto. }
  assert (Hn : find_stream (stream_states w') serial = None).
  { rewrite Hs. apply find_stream_filter_none. }
  split; [eauto|]. split; [exact Hs|].
  unfold StreamWriter.push_packet, StreamWriter.flush, StreamWriter.end_logical_stream,
    StreamWriter.page_is_empty.
  rewrite Hn. repeat split.
Qed.

Lemma end_logical_stream_io_error_forgets_stream_witness :
  let w' := fst (StreamWriter.end_logical_stream failing_writer 1 [5%Z] 0) in
  NoDup (map bitstream_serial_number (stream_states failing_writer)) /\
  StreamWriter.end_logical_stream failing_writer 1 [5%Z] 0 = (w', Err WriteError.IoError) /\
  ((exists i s, find_stream (stream_states failing_writer) 1 = Some (i, s)) /\
   stream_states w' =
     filter (fun s => negb (bitstream_serial_number s =? 1)%Z) (stream_states failing_writer) /\
   (forall d g, StreamWriter.push_packet w' 1 d g =
                  (w', Err WriteError.UnknownBitstreamSerialNumber)) /\
   StreamWriter.flush w' 1 = (w', Err WriteError.UnknownBitstreamSerialNumber) /\
   (forall d g, StreamWriter.end_logical_stream w' 1 d g =
                  (w', Err WriteError.UnknownBitstreamSerialNumber)) /\
   StreamWriter.page_is_empty w' 1 = (w', Err WriteError.UnknownBitstreamSerialNumber)).
Proof.
  intros w'.
  assert (Hnd : NoDup (map bitstream_serial_number (stream_states failing_writer))).
  { simpl. constructor; [intros []|constructor]. }
  assert (He : StreamWriter.end_logical_stream failing_writer 1 [5%Z] 0 = (w', Err WriteError.IoError)).
  { vm_compute. reflexivity. }
  split; [exact Hnd|]. split; [exact He|].
  apply (end_logical_stream_io_error_forgets_stream failing_writer w' 1 [5%Z] 0 Hnd He).
Defined.

End WriterStreams.

(** ** Pages with a bad CRC *)

Module ReaderPages.
Import Reader.

Lemma read_exact_ok :
  forall c n, n <= length (remaining c) ->
    read_exact c n = (cursor_at c (position c + n), Ok (firstn n (remaining c))).
Proof.
  intros c n Hn. unfold read_exact.
  unfold remaining in Hn. rewrite length_skipn in Hn.
  destruct n as [|n]; [reflexivity|].
  simpl. replace (position c + S n <=? length (inner c)) with true; [reflexivity|].
  symmetry. apply Nat.leb_le. lia.
Qed.

Lemma remaining_cursor_at :
  forall c n, remaining (cursor_at c (position c + n)) = skipn n (remaining c).
Proof.
  intros. unfold remaining, cursor_at. simpl. rewrite skipn_skipn. f_equal. lia.
Qed.

Lemma buf_write_agree :
  forall b pre bytes off,
    off = length pre ->
    (forall i, i < length pre -> b i = nth i pre 0%Z) ->
    forall i, i < length (pre ++ bytes) -> buf_write b off bytes i = nth i (pre ++ bytes) 0%Z.
Proof.
  intros b pre bytes off -> Hb i Hi. rewrite length_app in Hi. unfold buf_write.
  destruct (Nat.leb_spec (length pre) i); simpl.
  - replace (i <? length pre + length bytes) with true by (symmetry; apply Nat.ltb_lt; lia).
    rewrite app_nth2 by lia. reflexivity.
  - rewrite app_nth1 by lia. apply Hb. lia.
Qed.

Lemma buf_read_agree :
  forall b l a n,
    a + n <= length l ->
    (forall i, a <= i < a + n -> b i = nth i l 0%Z) ->
    buf_read b a (a + n) = firstn n (skipn a l).
Proof.
  intros b l a n Hl Hb. unfold buf_read. replace (a + n - a) with n by lia.
  apply nth_ext with (d := 0%Z) (d' := 0%Z).
  - rewrite length_map, length_seq, length_firstn, length_skipn. lia.
  - intros i Hi. rewrite length_map, length_seq in Hi.
    rewrite nth_firstn. replace (i <? n) with true by (symmetry; apply Nat.ltb_lt; lia).
    rewrite nth_skipn.
    rewrite (nth_indep _ 0%Z (b 0)) by (rewrite length_map, length_seq; lia).
    rewrite map_nth, seq_nth by lia. apply Hb. lia.
Qed.

Lemma sync_marker :
  forall c r, remaining c = PAGER_MARKER ++ r ->
    sync_with_next_page c = (cursor_at c (position c + 4), Ok tt).
Proof.
  intros c r Hr. unfold sync_with_next_page.
  rewrite read_exact_ok by (rewrite Hr, length_app; simpl; lia).
  rewrite Hr. reflexivity.
Qed.

Lemma lacing_loop_sizes :
  forall laces te ss rs q ss' rs' q',
    lacing_loop te laces ss rs q = (ss', rs', q') ->
    ss' + rs' = ss + rs + list_sum (map Z.to_nat laces).
Proof.
  induction laces as [|l laces IH]; intros te ss rs q ss' rs' q' H; simpl in H.
  - inversion H; subst. simpl. lia.
  - destruct (Z.to_nat l =? 255); apply IH in H; simpl; lia.
Qed.


Lemma firstn_app_exact :
  forall (l r : list Z) n, n = length l -> firstn n (l ++ r) = l.
Proof.
  intros l r n ->. rewrite firstn_app, Nat.sub_diag, firstn_all. simpl. apply app_nil_r.
Qed.

Lemma skipn_app_exact :
  forall (l r : list Z) n, n = length l -> skipn n (l ++ r) = r.
Proof.
  intros l r n ->. rewrite skipn_app, Nat.sub_diag, skipn_all. reflexivity.
Qed.

Lemma read_page_data_spec :
  forall st c header table payload rest,
    remaining c = header ++ table ++ payload ++ rest ->
    length header = 23 ->
    length table = Z.to_nat (nth 22 header 0%Z) ->
    length payload = list_sum (map Z.to_nat table) ->
    exists st',
      read_page_data st c =
        (st', cursor_at c (position c + 23 + length table + length payload),
         Ok (27 + length table + length payload)) /\
      current_bitstream_serial_number st' = current_bitstream_serial_number st /\
      current_page_sequence_number st' = current_page_sequence_number st /\
      current_granule_position st' = current_granule_position st /\
      current_is_eos st' = current_is_eos st /\
      (forall i, i < 27 + length table + length payload ->
         page_buffer st' i = nth i (PAGER_MARKER ++ header ++ table ++ payload) 0%Z).
Proof.
  intros st c header table payload rest Hr Hh Ht Hp.
  set (b1 := buf_write (page_buffer st) 0 PAGER_MARKER).
  set (b2 := buf_write b1 4 header).
  set (b3 := buf_write b2 27 table).
  set (b4 := buf_write b3 (27 + length table) payload).
  assert (H1 : forall i, i < length PAGER_MARKER -> b1 i = nth i PAGER_MARKER 0%Z).
  { intros i Hi. apply (buf_write_agree _ [] PAGER_MARKER 0 eq_refl); simpl; [lia|exact Hi]. }
  assert (H2 : forall i, i < length (PAGER_MARKER ++ header) ->
                 b2 i = nth i (PAGER_MARKER ++ header) 0%Z).
  { apply buf_write_agree; [reflexivity|exact H1]. }
  assert (H3 : forall i, i < length ((PAGER_MARKER ++ header) ++ table) ->
                 b3 i = nth i ((PAGER_MARKER ++ header) ++ table) 0%Z).
  { apply buf_write_agree; [rewrite length_app, Hh; reflexivity|exact H2]. }
  assert (H4 : forall i, i < length (((PAGER_MARKER ++ header) ++ table) ++ payload) ->
                 b4 i = nth i (((PAGER_MARKER ++ header) ++ table) ++ payload) 0%Z).
  { apply buf_write_agree; [rewrite !length_app, Hh; reflexivity|exact H3]. }
  assert (H26 : Z.to_nat (b2 SEGMENT_COUNT_INDEX) = length table).
  { rewrite Ht. unfold SEGMENT_COUNT_INDEX. rewrite H2 by (rewrite length_app, Hh; simpl; lia).
    rewrite app_nth2 by (simpl; lia). reflexivity. }
  unfold read_page_data. fold b1. rewrite read_exact_ok by (rewrite Hr, !length_app; lia).
  rewrite Hr, (firstn_app_exact _ _ 23) by (symmetry; exact Hh). fold b2.
  rewrite H26.
  assert (Hr2 : remaining (cursor_at c (position c + 23)) = table ++ payload ++ rest).
  { rewrite remaining_cursor_at, Hr. apply skipn_app_exact. symmetry; exact Hh. }
  rewrite read_exact_ok by (rewrite Hr2, !length_app; lia).
  rewrite Hr2, (firstn_app_exact table _ (length table)) by reflexivity.
  change SEGMENT_TABLE_INDEX with 27. fold b3.
  rewrite (buf_read_agree b3 ((PAGER_MARKER ++ header) ++ table) 27 (length table)).
  2:{ rewrite !length_app, Hh. simpl. lia. }
  2:{ intros i Hi. apply H3. rewrite !length_app, Hh. simpl. lia. }
  rewrite skipn_app_exact by (rewrite length_app, Hh; reflexivity).
  rewrite firstn_all.
  destruct (lacing_loop (27 + length table) table 0 0 (queued_packets st)) as [[ss rs] q] eqn:L.
  apply lacing_loop_sizes in L. simpl in L.
  assert (Hrs : (if ss =? 0 then rs else rs + ss) = length payload).
  { destruct (Nat.eqb_spec ss 0); lia. }
  assert (Hr3 : remaining (cursor_at (cursor_at c (position c + 23)) (position c + 23 + length table))
                = payload ++ rest).
  { change (position c + 23 + length table) with
      (position (cursor_at c (position c + 23)) + length table).
    rewrite remaining_cursor_at, Hr2. apply skipn_app_exact. reflexivity. }
  destruct (ss =? 0); cbv beta iota zeta;
  (replace (27 + length table + _ - (27 + length table)) with (length payload) by lia);
  (rewrite read_exact_ok by (simpl; rewrite Hr3, length_app; lia));
  simpl position; rewrite Hr3, (firstn_app_exact payload _ (length payload)) by reflexivity;
  rewrite <- Hrs.
  all: eexists; split; [reflexivity|].
  all: simpl; repeat split; try reflexivity.
  all: intros i Hi; fold b4; rewrite H4 by (rewrite !length_app, Hh; simpl; lia).
  all: rewrite <- !app_assoc; reflexivity.
Qed.


Lemma zero_crc_agree :
  forall (b : nat -> Z) page,
    26 <= length page ->
    (forall i, i < length page -> b i = nth i page 0%Z) ->
    forall i, i < length page ->
      buf_write b 22 [0; 0; 0; 0]%Z i = nth i (zero_crc page) 0%Z.
Proof.
  intros b page Hl Hb i Hi. unfold buf_write, zero_crc. simpl length.
  assert (H22 : length (firstn 22 page) = 22) by (rewrite length_firstn; lia).
  destruct (Nat.leb_spec 22 i); destruct (Nat.ltb_spec i (22 + 4)); cbn [andb].
  - rewrite app_nth2 by (rewrite H22; lia). rewrite H22. rewrite app_nth1 by (simpl; lia). reflexivity.
  - rewrite app_nth2 by (rewrite H22; lia). rewrite H22. rewrite app_nth2 by (simpl; lia).
    rewrite nth_skipn. rewrite Hb by lia. f_equal. simpl. lia.
  - rewrite app_nth1 by (rewrite H22; lia). rewrite nth_firstn.
    replace (i <? 22) with true by (symmetry; apply Nat.ltb_lt; lia). apply Hb; lia.
  - lia.
Qed.

Lemma length_zero_crc :
  forall page, 26 <= length page -> length (zero_crc page) = length page.
Proof.
  intros page Hl. unfold zero_crc. rewrite !length_app, length_firstn, length_skipn. cbn [length]. lia.
Qed.

Lemma verify_crc32_spec :
  forall st page,
    26 <= length page ->
    (forall i, i < length page -> page_buffer st i = nth i page 0%Z) ->
    verify_crc32 st (length page) =
      (set_page_buffer st (buf_write (page_buffer st) 22 [0; 0; 0; 0]%Z),
       (stored_crc page =? crc32 (zero_crc page))%Z).
Proof.
  intros st page Hl Hb. unfold verify_crc32. f_equal. f_equal.
  - change 26 with (22 + 4).
    rewrite (buf_read_agree _ page 22 4) by (try lia; intros; apply Hb; lia).
    unfold stored_crc, parse_u32_le. rewrite firstn_firstn. reflexivity.
  - f_equal. change (length page) with (0 + length page) at 1.
    rewrite (buf_read_agree _ (zero_crc page) 0 (length page)).
    + simpl. rewrite firstn_all2; [reflexivity|]. rewrite length_zero_crc; lia.
    + rewrite length_zero_crc; lia.
    + intros i Hi. apply zero_crc_agree; auto; lia.
Qed.


Lemma next_packet_loop_crc_mismatch :
  forall fuel st packet c header table payload rest,
    let page := PAGER_MARKER ++ header ++ table ++ payload in
    remaining c = page ++ rest ->
    length header = 23 ->
    length table = Z.to_nat (nth 22 header 0%Z) ->
    length payload = list_sum (map Z.to_nat table) ->
    stored_crc page <> crc32 (zero_crc page) ->
    exists st',
      next_packet_loop (S fuel) st packet c =
        (st', set_data packet [], cursor_at c (position c + length page), Ok ReadStatus.Missing) /\
      queued_packets st' = [] /\
      current_bitstream_serial_number st' = current_bitstream_serial_number st /\
      current_page_sequence_number st' = current_page_sequence_number st /\
      current_granule_position st' = current_granule_position st /\
      current_is_eos st' = current_is_eos st.
Proof.
  intros fuel st packet c header table payload rest page Hr Hh Ht Hp Hcrc.
  assert (Hlen : length page = 27 + length table + length payload).
  { unfold page. rewrite !length_app, Hh. reflexivity. }
  cbn [next_packet_loop].
  rewrite (sync_marker c (header ++ table ++ payload ++ rest))
    by (rewrite Hr; unfold page; rewrite <- !app_assoc; reflexivity).
  destruct (read_page_data_spec st (cursor_at c (position c + 4)) header table payload rest)
    as (st1 & Hrd & E1 & E2 & E3 & E4 & Hb); auto.
  { rewrite remaining_cursor_at, Hr. unfold page. rewrite <- !app_assoc.
    apply skipn_app_exact. reflexivity. }
  rewrite Hrd.
  rewrite <- Hlen in Hb |- *.
  rewrite verify_crc32_spec by (first [lia | exact Hb]).
  replace (stored_crc page =? crc32 (zero_crc page))%Z with false
    by (symmetry; apply Z.eqb_neq; exact Hcrc).
  cbv beta iota zeta. cbn [negb].
  eexists. split.
  - unfold cursor_at. cbn [position inner].
    replace (position c + 4 + 23 + length table + length payload) with (position c + length page) by lia.
    reflexivity.
  - simpl. auto.
Qed.

(** C8. When [next_packet] has to decode a page (its queue is empty, or the packet at
    its front is unfinished) and the next bytes are a well-formed page whose stored
    CRC differs from the CRC-32 of the page with its CRC field zeroed, it returns
    [Ok Missing] rather than an error, with the packet queue empty and the output
    packet's data empty; the cursor is just past the page, the current serial,
    sequence number, granule position and EOS flag are unchanged, and the next
    [next_packet] call reads on from the following bytes with an empty queue. *)
Theorem next_packet_crc_mismatch_missing :
  forall st packet c header table payload rest,
    let page := PAGER_MARKER ++ header ++ table ++ payload in
    remaining c = page ++ rest ->
    length header = 23 ->
    length table = Z.to_nat (nth 22 header 0%Z) ->
    length payload = list_sum (map Z.to_nat table) ->
    stored_crc page <> crc32 (zero_crc page) ->
    (match queued_packets st with [] => true | q :: _ => negb (is_complete q) end) = true ->
    exists st' packet',
      next_packet st packet c =
        (st', packet', cursor_at c (position c + length page), Ok ReadStatus.Missing) /\
      queued_packets st' = [] /\
      data packet' = [] /\
      current_bitstream_serial_number st' = current_bitstream_serial_number st /\
      current_page_sequence_number st' = current_page_sequence_number st /\
      current_granule_position st' = current_granule_position st /\
      current_is_eos st' = current_is_eos st /\
      remaining (cursor_at c (position c + length page)) = rest /\
      (forall packet2,
         next_packet st' packet2 (cursor_at c (position c + length page)) =
         next_packet_loop (S (length rest)) st' (set_data packet2 [])
           (cursor_at c (position c + length page))).
Proof.
  intros st packet c header table payload rest page Hr Hh Ht Hp Hcrc Hq.
  assert (Hrest : remaining (cursor_at c (position c + length page)) = rest).
  { rewrite remaining_cursor_at, Hr. apply skipn_app_exact. reflexivity. }
  unfold next_packet.
  destruct (queued_packets st) as [|q qs] eqn:Q.
  - destruct (next_packet_loop_crc_mismatch (length (remaining c)) st (set_data packet []) c
                header table payload rest Hr Hh Ht Hp Hcrc)
      as (st' & E & Hq' & E1 & E2 & E3 & E4).
    rewrite E. exists st', (set_data (set_data packet []) []).
    repeat split; auto.
    intros packet2. unfold next_packet. rewrite Hq', Hrest. reflexivity.
  - simpl in Hq. destruct (is_complete q) eqn:C; [discriminate|].
    cbv beta iota zeta.
    match goal with
    | |- context [next_packet_loop _ _ ?p _] =>
        destruct (next_packet_loop_crc_mismatch (length (remaining c)) (set_queued_packets st qs)
                    p c header table payload rest Hr Hh Ht Hp Hcrc)
          as (st' & E & Hq' & E1 & E2 & E3 & E4)
    end.
    rewrite E. eexists st', _.
    repeat split; auto.
    intros packet2. unfold next_packet. rewrite Hq', Hrest. reflexivity.
Qed.


Lemma next_packet_crc_mismatch_missing_witness :
  let bytes := zero_crc test_sync_page in
  let header := firstn 23 (skipn 4 bytes) in
  let table := firstn (Z.to_nat (nth 22 header 0%Z)) (skipn 27 bytes) in
  let payload := skipn (27 + length table) bytes in
  let page := PAGER_MARKER ++ header ++ table ++ payload in
  let c := {| inner := bytes; position := 0 |} in
  remaining c = page ++ [] /\
  length header = 23 /\
  length table = Z.to_nat (nth 22 header 0%Z) /\
  length payload = list_sum (map Z.to_nat table) /\
  stored_crc page <> crc32 (zero_crc page) /\
  (match queued_packets default_reader with [] => true | q :: _ => negb (is_complete q) end) = true /\
  exists st' packet',
    next_packet default_reader default_packet c =
      (st', packet', cursor_at c (position c + length page), Ok ReadStatus.Missing) /\
    queued_packets st' = [] /\
    data packet' = [] /\
    current_bitstream_serial_number st' = current_bitstream_serial_number default_reader /\
    current_page_sequence_number st' = current_page_sequence_number default_reader /\
    current_granule_position st' = current_granule_position default_reader /\
    current_is_eos st' = current_is_eos default_reader /\
    remaining (cursor_at c (position c + length page)) = [] /\
    (forall packet2,
       next_packet st' packet2 (cursor_at c (position c + length page)) =
       next_packet_loop (S (length (@nil Z))) st' (set_data packet2 [])
         (cursor_at c (position c + length page))).
Proof.
  intros bytes header table payload page c.
  assert (H1 : remaining c = page ++ []) by (vm_compute; reflexivity).
  assert (H2 : length header = 23) by (vm_compute; reflexivity).
  assert (H3 : length table = Z.to_nat (nth 22 header 0%Z)) by (vm_compute; reflexivity).
  assert (H4 : length payload = list_sum (map Z.to_nat table)) by (vm_compute; reflexivity).
  assert (H5 : stored_crc page <> crc32 (zero_crc page)) by (vm_compute; discriminate).
  assert (H6 : (match queued_packets default_reader with
                | [] => true | q :: _ => negb (is_complete q) end) = true) by reflexivity.
  do 6 (split; [assumption|]).
  exact (next_packet_crc_mismatch_missing default_reader default_packet c header table payload []
           H1 H2 H3 H4 H5 H6).
Defined.

End ReaderPages.

Module WriterPages.
Import Writer.

Lemma write_full_segments_spec :
  forall k table,
    length table <= 255 ->
    write_full_segments k (Z.of_nat (length table)) table =
      if length table + k <=? 255
      then Ok (Z.of_nat (length table + k), table ++ repeat 255%Z k)
      else Panic ArithmeticOverflow.
Proof.
  induction k as [|k IH]; intros table Hl; simpl.
  - rewrite Nat.add_0_r, app_nil_r.
    replace (length table <=? 255) with true by (symmetry; apply Nat.leb_le; lia).
    reflexivity.
  - unfold u8_inc. destruct (Z.ltb_spec (Z.of_nat (length table)) 255) as [Hlt|Hge]; simpl.
    + replace (Z.of_nat (length table) + 1)%Z with (Z.of_nat (length (table ++ [255%Z])))
        by (rewrite length_app; simpl; lia).
      rewrite IH by (rewrite length_app; simpl; lia).
      rewrite length_app. simpl length. rewrite <- app_assoc. simpl.
      replace (length table + 1 + k) with (length table + S k) by lia. reflexivity.
    + replace (length table + S k <=? 255) with false by (symmetry; apply Nat.leb_gt; lia).
      reflexivity.
Qed.

Lemma length_lacing :
  forall s, length (lacing s) = s / 255 + (if 0 <? s mod 255 then 1 else 0).
Proof.
  intros s. unfold lacing. rewrite length_app, repeat_length.
  destruct (0 <? s mod 255); reflexivity.
Qed.

Lemma build_segment_table_spec :
  forall sizes table,
    length table <= 255 ->
    Forall (fun s => s <= MAX_PAGE_DATA_SIZE) sizes ->
    build_segment_table sizes (Z.of_nat (length table)) table =
      if length table + length (lacing_values sizes) <=? 255
      then Ok (Z.of_nat (length table + length (lacing_values sizes)), table ++ lacing_values sizes)
      else Panic ArithmeticOverflow.
Proof.
  induction sizes as [|s sizes IH]; intros table Hl Hs.
  - simpl. rewrite Nat.add_0_r, app_nil_r.
    replace (length table <=? 255) with true by (symmetry; apply Nat.leb_le; lia).
    reflexivity.
  - inversion Hs as [|? ? Hs0 Hs']; subst.
    assert (Hq : s / 255 <= 255).
    { apply Nat.Div0.div_le_upper_bound. unfold MAX_PAGE_DATA_SIZE in Hs0. lia. }
    assert (Hm : s mod 255 < 255) by (apply Nat.mod_upper_bound; lia).
    cbn [build_segment_table]. unfold u8_try_from.
    replace (s / 255 <=? 255) with true by (symmetry; apply Nat.leb_le; lia).
    cbn [bind]. rewrite Nat2Z.id, write_full_segments_spec by exact Hl.
    cbn [lacing_values flat_map]. fold (lacing_values sizes).
    rewrite length_app, length_lacing.
    destruct (Nat.leb_spec (length table + s / 255) 255) as [Hle|Hgt].
    2:{ replace (length table + _ <=? 255) with false by (symmetry; apply Nat.leb_gt; lia).
        reflexivity. }
    cbn [bind]. replace (s mod 255 <=? 255) with true by (symmetry; apply Nat.leb_le; lia).
    cbn [bind fst snd].
    unfold lacing. rewrite <- app_assoc.
    destruct (Nat.ltb_spec 0 (s mod 255)) as [Hpos|Hzero].
    + replace (Z.of_nat (s mod 255) >? 0)%Z with true by (symmetry; apply Z.gtb_lt; lia).
      unfold u8_inc.
      destruct (Z.ltb_spec (Z.of_nat (length table + s / 255)) 255) as [Hlt|Hge]; cbn [bind].
      * replace (Z.of_nat (length table + s / 255) + 1)%Z
          with (Z.of_nat (length (table ++ repeat 255%Z (s / 255) ++ [Z.of_nat (s mod 255)])))
          by (rewrite !length_app, repeat_length; simpl; lia).
        rewrite IH by (try rewrite !length_app, repeat_length; cbn [length]; lia || assumption).
        rewrite !length_app, repeat_length; cbn [length app]; rewrite ?app_nil_r, <- ?app_assoc;
      match goal with
      | |- (if ?a <=? 255 then _ else _) = (if ?b <=? 255 then _ else _) =>
          replace a with b by lia
      end; reflexivity.
      * replace (length table + (s / 255 + 1 + length (lacing_values sizes)) <=? 255)
          with false by (symmetry; apply Nat.leb_gt; lia).
        reflexivity.
    + replace (Z.of_nat (s mod 255) >? 0)%Z with false by (symmetry; rewrite Z.gtb_ltb; apply Z.ltb_ge; lia).
      replace (Z.of_nat (length table + s / 255))
        with (Z.of_nat (length (table ++ repeat 255%Z (s / 255))))
        by (rewrite length_app, repeat_length; reflexivity).
      rewrite IH by (try rewrite !length_app, repeat_length; cbn [length]; lia || assumption).
      rewrite !length_app, repeat_length; cbn [length app]; rewrite ?app_nil_r, <- ?app_assoc;
      match goal with
      | |- (if ?a <=? 255 then _ else _) = (if ?b <=? 255 then _ else _) =>
          replace a with b by lia
      end; reflexivity.
Qed.


Lemma length_le_bytes : forall n v, length (le_bytes n v) = n.
Proof. induction n; intros; simpl; auto. Qed.

Lemma le_value_le_bytes :
  forall n v, (0 <= v < 256 ^ Z.of_nat n)%Z -> le_value (le_bytes n v) = v.
Proof.
  induction n as [|n IH]; intros v Hv.
  - simpl in *. lia.
  - cbn [le_bytes le_value]. rewrite IH.
    + pose proof (Z.div_mod v 256). lia.
    + rewrite Nat2Z.inj_succ, Z.pow_succ_r in Hv by lia.
      split; [apply Z.div_pos; lia|]. apply Z.div_lt_upper_bound; lia.
Qed.

Lemma assemble_page_prefix :
  forall ht g s q crc cnt table data,
    assemble_page ht g s q crc cnt table data = page_prefix ht g s q crc ++ [cnt] ++ table ++ data.
Proof. intros. unfold assemble_page, page_prefix. rewrite <- !app_assoc. reflexivity. Qed.

Lemma length_page_prefix : forall ht g s q crc, length (page_prefix ht g s q crc) = 26.
Proof. intros. unfold page_prefix. rewrite !length_app, !length_le_bytes. reflexivity. Qed.

Lemma assemble_page_segment_count :
  forall ht g s q crc cnt table data,
    page_segment_count (assemble_page ht g s q crc cnt table data) = cnt.
Proof.
  intros. rewrite assemble_page_prefix. unfold page_segment_count, SEGMENT_COUNT_INDEX.
  rewrite app_nth2 by (rewrite length_page_prefix; lia).
  rewrite length_page_prefix. reflexivity.
Qed.

Lemma assemble_page_segment_table :
  forall ht g s q crc table data,
    page_segment_table (assemble_page ht g s q crc (Z.of_nat (length table)) table data) = table.
Proof.
  intros. unfold page_segment_table. rewrite assemble_page_segment_count, Nat2Z.id.
  rewrite assemble_page_prefix, app_assoc. unfold SEGMENT_TABLE_INDEX.
  rewrite skipn_app, length_app, length_page_prefix, skipn_all2 by (rewrite length_app, length_page_prefix; simpl; lia).
  simpl. rewrite firstn_app, Nat.sub_diag, firstn_all. simpl. apply app_nil_r.
Qed.

Lemma assemble_page_header_type :
  forall ht g s q crc cnt table data,
    page_header_type (assemble_page ht g s q crc cnt table data) = ht.
Proof. reflexivity. Qed.

Lemma assemble_page_granule :
  forall ht g s q crc cnt table data,
    (0 <= g <= U64_MAX)%Z ->
    page_granule (assemble_page ht g s q crc cnt table data) = g.
Proof.
  intros ht g s q crc cnt table data Hg. unfold page_granule, parse_u64_le, assemble_page.
  change (skipn 6 (PAGER_MARKER ++ [0%Z; ht] ++ ?r)) with r.
  rewrite firstn_app, length_le_bytes, Nat.sub_diag, firstn_all2 by (rewrite length_le_bytes; lia).
  simpl firstn. rewrite app_nil_r. apply le_value_le_bytes.
  unfold U64_MAX in Hg. simpl Z.of_nat. lia.
Qed.


Lemma build_segment_table_ok :
  forall sizes table count table',
    length table <= 255 ->
    build_segment_table sizes (Z.of_nat (length table)) table = Ok (count, table') ->
    table' = table ++ lacing_values sizes /\ count = Z.of_nat (length table') /\
    length table' <= 255.
Proof.
  induction sizes as [|s sizes IH]; intros table count table' Hl H.
  - simpl in H. inversion H; subst. rewrite app_nil_r. auto.
  - cbn [build_segment_table] in H. unfold u8_try_from in H.
    destruct (Nat.leb_spec (s / 255) 255) as [Hq|Hq]; cbn [bind] in H; [|discriminate].
    rewrite Nat2Z.id, write_full_segments_spec in H by exact Hl.
    destruct (Nat.leb_spec (length table + s / 255) 255) as [Hle|Hgt]; cbn [bind] in H;
      [|discriminate].
    assert (Hm : s mod 255 < 255) by (apply Nat.mod_upper_bound; lia).
    replace (s mod 255 <=? 255) with true in H by (symmetry; apply Nat.leb_le; lia).
    cbn [bind fst snd] in H.
    cbn [lacing_values flat_map]. fold (lacing_values sizes). unfold lacing.
    rewrite <- !app_assoc.
    destruct (Nat.ltb_spec 0 (s mod 255)) as [Hpos|Hzero].
    + replace (Z.of_nat (s mod 255) >? 0)%Z with true in H by (symmetry; apply Z.gtb_lt; lia).
      unfold u8_inc in H.
      destruct (Z.ltb_spec (Z.of_nat (length table + s / 255)) 255); cbn [bind] in H;
        [|discriminate].
      replace (Z.of_nat (length table + s / 255) + 1)%Z
        with (Z.of_nat (length ((table ++ repeat 255%Z (s / 255)) ++ [Z.of_nat (s mod 255)])))
        in H by (rewrite !length_app, repeat_length; simpl; lia).
      apply IH in H; [|rewrite !length_app, repeat_length; cbn [length]; lia].
      rewrite <- !app_assoc in H. exact H.
    + replace (Z.of_nat (s mod 255) >? 0)%Z with false in H
        by (symmetry; rewrite Z.gtb_ltb; apply Z.ltb_ge; lia).
      replace (Z.of_nat (length table + s / 255))
        with (Z.of_nat (length (table ++ repeat 255%Z (s / 255)))) in H
        by (rewrite length_app, repeat_length; reflexivity).
      apply IH in H; [|rewrite length_app, repeat_length; lia].
      rewrite <- !app_assoc in H. exact H.
Qed.

Lemma write_page_pages :
  forall w st w' st' r,
    write_page w st = (w', st', r) ->
    sink_pages w' = sink_pages w \/
    (exists page, sink_pages w' = sink_pages w ++ [page] /\
                  page_segment_table page = lacing_values (packet_sizes st) /\
                  page_segment_count page = Z.of_nat (length (lacing_values (packet_sizes st))) /\
                  length (lacing_values (packet_sizes st)) <= 255).
Proof.
  intros w st w' st' r H. unfold write_page in H.
  destruct (build_segment_table (packet_sizes st) 0 []) as [[cnt table]|e|p] eqn:B;
    try (inversion H; subst; auto; fail).
  apply (build_segment_table_ok _ [] cnt table) in B; [|simpl; lia].
  destruct B as (-> & -> & Hle). simpl app in *.
  destruct (negb _); [inversion H; subst; auto|].
  destruct (slice _ _ _); [|inversion H; subst; auto].
  unfold write_all in H.
  destruct (sink_fails w (sink_count w)); cbn [fst snd] in H.
  { inversion H; subst; auto. }
  right. eexists. split; [|split; [|split]].
  - destruct (u32_inc _); inversion H; subst; reflexivity.
  - apply assemble_page_segment_table.
  - apply assemble_page_segment_count.
  - exact Hle.
Qed.


Lemma write_page_lacing_pages :
  forall w st w' st' r,
    Forall lacing_page (sink_pages w) ->
    write_page w st = (w', st', r) ->
    Forall lacing_page (sink_pages w').
Proof.
  intros w st w' st' r HP H.
  destruct (write_page_pages _ _ _ _ _ H) as [-> | (page & -> & T & C & L)]; [exact HP|].
  apply Forall_app. split; [exact HP|]. constructor; [|constructor].
  exists (packet_sizes st). auto.
Qed.

Ltac split_matches :=
  repeat match goal with
  | H : context [match ?x with _ => _ end] |- _ =>
      lazymatch type of x with
      | (Sink * StreamState * _)%type => destruct x as [[?w ?s] ?r] eqn:?
      | (StreamWriter * _)%type => destruct x as [?w ?r] eqn:?
      | _ => destruct x eqn:?
      end
  end.

Ltac close_pages :=
  repeat match goal with
  | E : write_page ?w _ = (?w', _, _), HP : Forall lacing_page (sink_pages ?w) |- _ =>
      let H := fresh "HP" in
      pose proof (write_page_lacing_pages _ _ _ _ _ HP E) as H; clear E
  end.

Lemma split_loop_lacing_pages :
  forall fuel first offset size data granule w st w' st' r,
    Forall lacing_page (sink_pages w) ->
    split_loop fuel first offset size data granule w st = (w', st', r) ->
    Forall lacing_page (sink_pages w').
Proof.
  induction fuel as [|fuel IH]; intros first offset size data granule w st w' st' r HP H.
  - simpl in H. inversion H; subst. exact HP.
  - cbn [split_loop] in H. split_matches;
      repeat match goal with
      | E : (?a, ?b, ?c) = (?d, ?e, ?f) |- _ => inversion E; subst; clear E
      end; close_pages; try assumption;
      try (eapply IH; [|eassumption]; assumption).
Qed.

Lemma push_packet_state_lacing_pages :
  forall w st data granule w' st' r,
    Forall lacing_page (sink_pages w) ->
    push_packet_state w st data granule = (w', st', r) ->
    Forall lacing_page (sink_pages w').
Proof.
  intros w st data granule w' st' r HP H. unfold push_packet_state in H.
  split_matches;
    repeat match goal with
    | E : (?a, ?b, ?c) = (?d, ?e, ?f) |- _ => inversion E; subst; clear E
    end; close_pages; try assumption;
    try (eapply split_loop_lacing_pages; [|eassumption]; assumption).
Qed.


Lemma run_op_lacing_pages :
  forall w op w' r,
    Forall lacing_page (sink_pages (writer w)) ->
    run_op w op = (w', r) ->
    Forall lacing_page (sink_pages (writer w')).
Proof.
  intros w op w' r HP H.
  destruct op; cbn [run_op] in H;
    unfold StreamWriter.begin_logical_stream, StreamWriter.push_packet,
      StreamWriter.end_logical_stream, StreamWriter.flush in H;
    split_matches;
    repeat match goal with
    | E : (?a, ?b, ?c) = (?d, ?e, ?f) |- _ => inversion E; subst; clear E
    | E : (?a, ?b) = (?d, ?e) |- _ => inversion E; subst; clear E
    end; cbn [writer] in *; close_pages; try assumption;
    try (eapply push_packet_state_lacing_pages; [|eassumption]; assumption).
Qed.

Lemma run_writer_lacing_pages :
  forall ops w,
    Forall lacing_page (sink_pages (writer w)) ->
    Forall lacing_page (sink_pages (writer (fst (run_writer w ops)))).
Proof.
  induction ops as [|op ops IH]; intros w HP; [exact HP|].
  cbn [run_writer]. destruct (run_op w op) as [w1 r1] eqn:E.
  pose proof (run_op_lacing_pages _ _ _ _ HP E) as HP1.
  destruct r1; [apply IH; exact HP1| exact HP1 | exact HP1].
Qed.


(** C6. Every page in the sink of a writer run, from a new writer over an empty sink
    and for any sequence of calls (whether or not one fails), has a segment table
    that is the lacing of its packets with at most 255 entries, and its segment
    count byte is that number of entries. Each [write_page] call emits at most one
    page, with exactly these properties. When the queued packets (each at most
    [MAX_PAGE_DATA_SIZE] bytes) need more than 255 lacing values, [write_page]
    stops without writing anything, on the checked overflow of its [u8] counter. *)
Theorem segment_count_bound :
  (forall n fails ops,
     Forall lacing_page
       (sink_pages (writer (fst (run_writer
          (new {| sink_pages := []; sink_count := n; sink_fails := fails |}) ops))))) /\
  (forall w st w' st' r,
     write_page w st = (w', st', r) ->
     sink_pages w' = sink_pages w \/
     (exists page, sink_pages w' = sink_pages w ++ [page] /\
                   page_segment_table page = lacing_values (packet_sizes st) /\
                   page_segment_count page = Z.of_nat (length (lacing_values (packet_sizes st))) /\
                   length (lacing_values (packet_sizes st)) <= 255)) /\
  (forall w st,
     Forall (fun s => s <= MAX_PAGE_DATA_SIZE) (packet_sizes st) ->
     255 < length (lacing_values (packet_sizes st)) ->
     write_page w st = (w, st, Panic ArithmeticOverflow)).
Proof.
  split; [|split].
  - intros n fails ops. apply run_writer_lacing_pages. constructor.
  - exact write_page_pages.
  - intros w st Hs Hn. unfold write_page.
    change 0%Z with (Z.of_nat (length (@nil Z))).
    rewrite build_segment_table_spec by (simpl; lia || exact Hs).
    cbn [length]. rewrite Nat.add_0_l.
    replace (length (lacing_values (packet_sizes st)) <=? 255) with false
      by (symmetry; apply Nat.leb_gt; exact Hn).
    reflexivity.
Qed.

Lemma segment_count_bound_witness :
  (Forall (fun s => s <= MAX_PAGE_DATA_SIZE) (packet_sizes state_256_bytes) /\
   255 < length (lacing_values (packet_sizes state_256_bytes))) /\
  write_page vec_sink state_256_bytes = (vec_sink, state_256_bytes, Panic ArithmeticOverflow) /\
  (let '(w', st', r) := write_page vec_sink state_256_bytes in
   sink_pages w' = sink_pages vec_sink \/
   (exists page, sink_pages w' = sink_pages vec_sink ++ [page] /\
                 page_segment_table page = lacing_values (packet_sizes state_256_bytes) /\
                 page_segment_count page =
                   Z.of_nat (length (lacing_values (packet_sizes state_256_bytes))) /\
                 length (lacing_values (packet_sizes state_256_bytes)) <= 255)).
Proof.
  assert (H1 : Forall (fun s => s <= MAX_PAGE_DATA_SIZE) (packet_sizes state_256_bytes)).
  { apply Forall_forall. intros x Hx. apply repeat_spec in Hx. subst.
    unfold MAX_PAGE_DATA_SIZE. lia. }
  assert (H2 : 255 < length (lacing_values (packet_sizes state_256_bytes)))
    by (vm_compute; lia).
  split; [split; assumption|]. split.
  - exact (proj2 (proj2 segment_count_bound) vec_sink state_256_bytes H1 H2).
  - destruct (write_page vec_sink state_256_bytes) as [[w' st'] r] eqn:E.
    exact (proj1 (proj2 segment_count_bound) _ _ _ _ _ E).
Defined.


Lemma push_packet_empty :
  forall st chunk,
    data_head st = 0 -> length chunk <= length (data_buffer st) ->
    push_packet st chunk =
      Ok {| bitstream_serial_number := bitstream_serial_number st;
            data_buffer := chunk ++ skipn (length chunk) (data_buffer st);
            data_head := length chunk;
            packet_sizes := packet_sizes st ++ [length chunk];
            page_sequence_number := page_sequence_number st;
            granule_position := granule_position st;
            header_type := header_type st |}.
Proof.
  intros st chunk H0 Hl. unfold push_packet. rewrite H0. cbn [Nat.add].
  replace (length chunk <=? length (data_buffer st)) with true
    by (symmetry; apply Nat.leb_le; exact Hl).
  unfold slice. replace ((0 <=? length chunk) && (length chunk <=? length chunk)) with true
    by (symmetry; apply andb_true_iff; split; apply Nat.leb_le; lia).
  rewrite Nat.sub_0_r, skipn_O, firstn_all.
  unfold copy_into.
  replace ((0 <=? length chunk) && (length chunk <=? length (data_buffer st)) &&
           (length chunk =? length chunk - 0)) with true
    by (symmetry; rewrite !andb_true_iff; rewrite Nat.sub_0_r, Nat.eqb_refl;
        repeat split; apply Nat.leb_le; lia).
  reflexivity.
Qed.

Lemma lacing_values_zeros :
  forall zs, Forall (fun s => s = 0) zs -> lacing_values zs = [].
Proof.
  induction 1 as [|z zs Hz _ IH]; [reflexivity|]. subst.
  cbn [lacing_values flat_map]. fold (lacing_values zs). rewrite IH. reflexivity.
Qed.

Lemma lacing_values_single :
  forall zs s, Forall (fun s => s = 0) zs -> lacing_values (zs ++ [s]) = lacing s.
Proof.
  intros zs s Hz. unfold lacing_values. rewrite flat_map_app.
  fold (lacing_values zs). rewrite lacing_values_zeros by exact Hz. simpl. apply app_nil_r.
Qed.

Lemma lacing_full_table :
  forall s, 0 < s <= MAX_PAGE_DATA_SIZE ->
    (length (lacing s) =? 255) = (254 * 255 <? s).
Proof.
  intros s Hs. unfold MAX_PAGE_DATA_SIZE in Hs. rewrite length_lacing.
  pose proof (Nat.div_mod s 255 ltac:(lia)) as Hd.
  pose proof (Nat.mod_upper_bound s 255 ltac:(lia)) as Hm.
  apply eq_iff_eq_true. rewrite Nat.eqb_eq, Nat.ltb_lt.
  destruct (Nat.ltb_spec 0 (s mod 255)); lia.
Qed.


Lemma length_lacing_bound :
  forall s, s <= MAX_PAGE_DATA_SIZE -> length (lacing s) <= 255.
Proof.
  intros s Hs. unfold MAX_PAGE_DATA_SIZE in Hs. rewrite length_lacing.
  pose proof (Nat.div_mod s 255 ltac:(lia)).
  pose proof (Nat.mod_upper_bound s 255 ltac:(lia)).
  destruct (Nat.ltb_spec 0 (s mod 255)); lia.
Qed.

Lemma write_page_single :
  forall w st zs s,
    packet_sizes st = zs ++ [s] -> Forall (fun s => s = 0) zs ->
    0 < s <= MAX_PAGE_DATA_SIZE -> data_head st = s -> s <= length (data_buffer st) ->
    sink_fails w (sink_count w) = false ->
    (0 <= page_sequence_number st < U32_MAX)%Z ->
    (0 <= granule_position st <= U64_MAX)%Z ->
    exists page,
      write_page w st =
        ({| sink_pages := sink_pages w ++ [page]; sink_count := S (sink_count w);
            sink_fails := sink_fails w |},
         {| bitstream_serial_number := bitstream_serial_number st;
            data_buffer := data_buffer st; data_head := 0; packet_sizes := [];
            page_sequence_number := page_sequence_number st + 1;
            granule_position := granule_position st; header_type := header_type st |},
         Ok tt) /\
      page_header_type page = header_type st /\
      page_granule page = (if 254 * 255 <? s then U64_MAX else granule_position st).
Proof.
  intros w st zs s Hsz Hz Hs Hh Hb Hf Hq Hg.
  assert (HF : Forall (fun s => s <= MAX_PAGE_DATA_SIZE) (packet_sizes st)).
  { rewrite Hsz. apply Forall_app. split.
    - eapply Forall_impl; [|exact Hz]. intros a ->. unfold MAX_PAGE_DATA_SIZE. lia.
    - constructor; [lia|constructor]. }
  pose proof (length_lacing_bound s ltac:(lia)) as Hn.
  unfold write_page. change 0%Z with (Z.of_nat (length (@nil Z))).
  rewrite build_segment_table_spec by (simpl; lia || exact HF).
  rewrite Hsz, lacing_values_single by exact Hz. cbn [length app]. rewrite Nat.add_0_l.
  replace (length (lacing s) <=? 255) with true by (symmetry; apply Nat.leb_le; exact Hn).
  rewrite Nat2Z.id, Hh.
  replace (SEGMENT_TABLE_INDEX + length (lacing s) + s <=? MAX_PAGE_SIZE) with true
    by (symmetry; apply Nat.leb_le; unfold SEGMENT_TABLE_INDEX, MAX_PAGE_SIZE, MAX_PAGE_HEADER_SIZE;
        unfold MAX_PAGE_DATA_SIZE in *; lia).
  cbn [negb]. unfold slice.
  replace ((0 <=? s) && (s <=? length (data_buffer st))) with true
    by (symmetry; apply andb_true_iff; split; apply Nat.leb_le; lia).
  unfold write_all. rewrite Hf. cbn [fst snd].
  unfold u32_inc. replace (page_sequence_number st <? U32_MAX)%Z with true
    by (symmetry; apply Z.ltb_lt; lia).
  replace (Z.of_nat (length (lacing s)) =? 255)%Z with (254 * 255 <? s)
    by (rewrite <- lacing_full_table by exact Hs;
        apply eq_iff_eq_true; rewrite Nat.eqb_eq, Z.eqb_eq; lia).
  eexists. split; [reflexivity|]. split.
  - apply assemble_page_header_type.
  - apply assemble_page_granule. destruct (254 * 255 <? s); unfold U64_MAX in *; lia.
Qed.


Lemma slice_ok :
  forall (data : list Z) a n,
    a + n <= length data ->
    slice data a (a + n) = Some (firstn n (skipn a data)) /\
    length (firstn n (skipn a data)) = n.
Proof.
  intros data a n H. unfold slice.
  replace ((a <=? a + n) && (a + n <=? length data)) with true
    by (symmetry; apply andb_true_iff; split; apply Nat.leb_le; lia).
  replace (a + n - a) with n by lia. split; [reflexivity|].
  rewrite length_firstn, length_skipn. lia.
Qed.

Lemma pages_count_step :
  forall size, MAX_PAGE_DATA_SIZE < size ->
    (size - MAX_PAGE_DATA_SIZE + MAX_PAGE_DATA_SIZE - 1) / MAX_PAGE_DATA_SIZE + 1 =
    (size + MAX_PAGE_DATA_SIZE - 1) / MAX_PAGE_DATA_SIZE.
Proof.
  intros size H. unfold MAX_PAGE_DATA_SIZE in *.
  replace (size + 255 * 255 - 1) with ((size - 255 * 255 + 255 * 255 - 1) + 1 * (255 * 255)) by lia.
  rewrite Nat.div_add by lia. reflexivity.
Qed.

Lemma pages_count_last :
  forall size, 0 < size <= MAX_PAGE_DATA_SIZE ->
    (size + MAX_PAGE_DATA_SIZE - 1) / MAX_PAGE_DATA_SIZE = 1.
Proof.
  intros size H. unfold MAX_PAGE_DATA_SIZE in *.
  symmetry; apply (Nat.div_unique _ _ _ (size - 1)); lia.
Qed.

Lemma split_loop_spec :
  forall fuel first offset size data g w st,
    offset + size = length data ->
    0 < size -> size <= fuel * MAX_PAGE_DATA_SIZE ->
    data_head st = 0 -> Forall (fun s => s = 0) (packet_sizes st) ->
    length (data_buffer st) = MAX_PAGE_DATA_SIZE ->
    (forall k, sink_fails w k = false) ->
    (0 <= page_sequence_number st)%Z ->
    (page_sequence_number st
       + Z.of_nat ((size + MAX_PAGE_DATA_SIZE - 1) / MAX_PAGE_DATA_SIZE) <= U32_MAX)%Z ->
    (0 <= g <= U64_MAX)%Z ->
    exists pages w' st',
      split_loop fuel first offset size data g w st = (w', st', Ok tt) /\
      sink_pages w' = sink_pages w ++ pages /\
      (forall k, sink_fails w' k = false) /\
      length pages = (size + MAX_PAGE_DATA_SIZE - 1) / MAX_PAGE_DATA_SIZE /\
      (forall i, i < length pages ->
         page_header_type (nth i pages []) = continuation_header first i) /\
      (forall i, i + 1 < length pages -> page_granule (nth i pages []) = U64_MAX) /\
      page_granule (last pages []) =
        (if 254 * 255 <? size - (length pages - 1) * MAX_PAGE_DATA_SIZE then U64_MAX else g).
Proof.
  induction fuel as [|fuel IH];
    intros first offset size data g w st Hlen Hpos Hfuel Hh Hz Hb Hf Hq0 Hq Hg.
  { simpl in Hfuel. lia. }
  cbn [split_loop].
  destruct (size <=? MAX_PAGE_DATA_SIZE) eqn:Hle.
  - (* the last page *)
    apply Nat.leb_le in Hle.
    rewrite pages_count_last in Hq by lia.
    destruct (slice_ok data offset size ltac:(lia)) as [Hs Hcl].
    rewrite Hs. unfold set_granule_position, set_header_type in *.
    rewrite push_packet_empty by (cbn [data_head data_buffer]; lia). rewrite Hcl.
    cbn [data_head data_buffer packet_sizes
      page_sequence_number granule_position header_type bitstream_serial_number] in *.
    match goal with |- context [write_page w ?s] =>
      destruct (write_page_single w s (packet_sizes st) size) as (page & Ew & Eht & Egr) end.
    1: reflexivity. 1: exact Hz. 1,2: cbn [data_head]; lia.
    { cbn [data_buffer]. rewrite length_app, length_skipn, Hcl. lia. }
    { apply Hf. }
    { cbn [page_sequence_number]. lia. }
    { cbn [granule_position]. lia. }
    rewrite Ew. exists [page]. eexists. eexists. split; [reflexivity|].
    split; [reflexivity|]. split; [intros; apply Hf|].
    rewrite pages_count_last by lia. split; [reflexivity|]. split; [|split].
    + intros i Hi. destruct i as [|i]; [|cbn in Hi; lia].
      cbn [nth]. rewrite Eht. cbn [header_type]. unfold continuation_header.
      destruct first; reflexivity.
    + intros i Hi. cbn in Hi. lia.
    + cbn [last]. rewrite Egr. cbn [length granule_position].
      replace (size - (1 - 1) * MAX_PAGE_DATA_SIZE) with size by lia.
      reflexivity.
  - (* a full page, then the rest *)
    apply Nat.leb_gt in Hle.
    assert (Hc : (size - MAX_PAGE_DATA_SIZE + MAX_PAGE_DATA_SIZE - 1) / MAX_PAGE_DATA_SIZE + 1 =
                 (size + MAX_PAGE_DATA_SIZE - 1) / MAX_PAGE_DATA_SIZE)
      by (apply pages_count_step; lia).
    destruct (slice_ok data offset MAX_PAGE_DATA_SIZE ltac:(lia)) as [Hs Hcl].
    rewrite Hs. unfold set_granule_position, set_header_type in *.
    rewrite push_packet_empty by (cbn [data_head data_buffer]; lia). rewrite Hcl.
    cbn [data_head data_buffer packet_sizes
      page_sequence_number granule_position header_type bitstream_serial_number] in *.
    match goal with |- context [write_page w ?s] =>
      destruct (write_page_single w s (packet_sizes st) MAX_PAGE_DATA_SIZE)
        as (page & Ew & Eht & Egr) end.
    1: reflexivity. 1: exact Hz. 1: unfold MAX_PAGE_DATA_SIZE; lia. 1: reflexivity.
    { cbn [data_buffer]. rewrite length_app, length_skipn, Hcl. lia. }
    { apply Hf. }
    { cbn [page_sequence_number]. lia. }
    { cbn [granule_position]. unfold U64_MAX. lia. }
    rewrite Ew. cbn [granule_position header_type] in Egr, Eht.
    cbv beta iota.
    cbn [data_head data_buffer page_sequence_number sink_fails packet_sizes].
    match goal with |- context [split_loop fuel false _ _ data g ?w1 ?s1] =>
      destruct (IH false (offset + MAX_PAGE_DATA_SIZE) (size - MAX_PAGE_DATA_SIZE) data g w1 s1)
        as (pages & w' & st' & E & Ep & Ef & El & Eh & Eg & Elast) end.
    all: cbn [data_head data_buffer page_sequence_number sink_fails packet_sizes].
    1: lia. 1: lia. 1: cbn [Nat.mul] in Hfuel; lia. 1: reflexivity. 1: constructor.
    { rewrite length_app, length_skipn, Hcl. lia. }
    { exact Hf. }
    { lia. }
    { rewrite <- Hc in Hq. lia. }
    { exact Hg. }
    assert (Hp : 1 <= length pages)
      by (rewrite El; apply Nat.div_le_lower_bound; unfold MAX_PAGE_DATA_SIZE in *; lia).
    rewrite E. exists (page :: pages), w', st'. split; [reflexivity|].
    split; [rewrite Ep; cbn [sink_pages]; rewrite <- app_assoc; reflexivity|].
    split; [exact Ef|].
    split; [cbn [length]; rewrite El, <- Hc, Nat.add_1_r; reflexivity|].
    split; [|split].
    + intros [|i] Hi.
      * cbn [nth]. rewrite Eht. unfold continuation_header. destruct first; reflexivity.
      * cbn [nth]. rewrite Eh by (cbn [length] in Hi; lia).
        unfold continuation_header. rewrite andb_false_r. reflexivity.
    + intros [|i] Hi.
      * cbn [nth]. rewrite Egr. destruct (254 * 255 <? MAX_PAGE_DATA_SIZE); reflexivity.
      * cbn [nth]. apply Eg. cbn [length] in Hi. lia.
    + destruct pages as [|p0 pages]; [cbn in Hp; lia|].
      change (last (page :: p0 :: pages) []) with (last (p0 :: pages) []).
      rewrite Elast.
      replace (size - (length (page :: p0 :: pages) - 1) * MAX_PAGE_DATA_SIZE)
        with (size - MAX_PAGE_DATA_SIZE - (length (p0 :: pages) - 1) * MAX_PAGE_DATA_SIZE)
        by (cbn [length]; unfold MAX_PAGE_DATA_SIZE; lia).
      reflexivity.
Qed.


(** X14. For a live stream with an empty buffer, a packet of
    length L > 65025 is emitted as exactly ceil(L/65025) pages when every sink
    write succeeds and the page sequence number does not overflow. The first
    page has header type 0 and every later page has the continuation flag.
    Every page before the last has granule position 0xFFFF_FFFF_FFFF_FFFF.
    The last page carries the caller's granule position, unless its final
    slice is longer than 254 * 255 bytes: then its segment table has 255
    entries and [write_page] writes 0xFFFF_FFFF_FFFF_FFFF instead. *)
Theorem push_packet_split_pages :
  forall self serial idx st data gp,
    find_stream (stream_states self) serial = Some (idx, st) ->
    data_head st = 0 -> Forall (fun s => s = 0) (packet_sizes st) ->
    length (data_buffer st) = MAX_PAGE_DATA_SIZE ->
    (forall k, sink_fails (writer self) k = false) ->
    (0 <= page_sequence_number st)%Z ->
    (page_sequence_number st
       + Z.of_nat ((length data + MAX_PAGE_DATA_SIZE - 1) / MAX_PAGE_DATA_SIZE) <= U32_MAX)%Z ->
    (0 <= gp <= U64_MAX)%Z ->
    MAX_PAGE_DATA_SIZE < length data ->
    exists pages,
      snd (StreamWriter.push_packet self serial data gp) = Ok tt /\
      sink_pages (writer (fst (StreamWriter.push_packet self serial data gp))) =
        sink_pages (writer self) ++ pages /\
      length pages = (length data + MAX_PAGE_DATA_SIZE - 1) / MAX_PAGE_DATA_SIZE /\
      (forall i, i < length pages ->
         page_header_type (nth i pages []) = if i =? 0 then 0%Z else CONTINUATION_VALUE) /\
      (forall i, i + 1 < length pages -> page_granule (nth i pages []) = U64_MAX) /\
      page_granule (last pages []) =
        (if 254 * 255 <? length data - (length pages - 1) * MAX_PAGE_DATA_SIZE
         then U64_MAX else gp).
Proof.
  intros self serial idx st data gp Hfind Hh Hz Hb Hf Hq0 Hq Hg HL.
  unfold StreamWriter.push_packet. rewrite Hfind. unfold push_packet_state.
  rewrite Hh. cbn [Nat.eqb negb andb Nat.add].
  replace (length data <=? MAX_PAGE_DATA_SIZE) with false
    by (symmetry; apply Nat.leb_gt; exact HL).
  destruct (split_loop_spec (S (length data)) true 0 (length data) data gp (writer self) st)
    as (pages & w' & st' & E & Ep & Ef & El & Eh & Eg & Elast);
    try assumption; try lia.
  { unfold MAX_PAGE_DATA_SIZE. lia. }
  rewrite E, Hh, Nat.add_0_l.
  replace (length data <=? MAX_PAGE_DATA_SIZE) with false
    by (symmetry; apply Nat.leb_gt; exact HL).
  exists pages. cbv beta iota zeta. cbn [fst snd writer].
  split; [reflexivity|]. split; [exact Ep|]. split; [exact El|].
  split; [|split; [exact Eg|exact Elast]].
  intros i Hi. rewrite Eh by exact Hi. reflexivity.
Qed.

Lemma push_packet_split_pages_witness :
  exists pages,
    snd (StreamWriter.push_packet one_stream_writer 1 (repeat 5%Z (2 * MAX_PAGE_DATA_SIZE)) 42)
      = Ok tt /\
    sink_pages (writer (fst (StreamWriter.push_packet one_stream_writer 1
                               (repeat 5%Z (2 * MAX_PAGE_DATA_SIZE)) 42))) =
      sink_pages (writer one_stream_writer) ++ pages /\
    length pages = 2 /\
    (forall i, i < length pages ->
       page_header_type (nth i pages []) = if i =? 0 then 0%Z else CONTINUATION_VALUE) /\
    (forall i, i + 1 < length pages -> page_granule (nth i pages []) = U64_MAX) /\
    page_granule (last pages []) = U64_MAX.
Proof.
  assert (HL : length (repeat 5%Z (2 * MAX_PAGE_DATA_SIZE)) = 2 * MAX_PAGE_DATA_SIZE)
    by apply repeat_length.
  assert (Hc : (2 * MAX_PAGE_DATA_SIZE + MAX_PAGE_DATA_SIZE - 1) / MAX_PAGE_DATA_SIZE = 2)
    by (symmetry; apply (Nat.div_unique _ _ _ (MAX_PAGE_DATA_SIZE - 1));
        unfold MAX_PAGE_DATA_SIZE; lia).
  destruct (push_packet_split_pages one_stream_writer 1 0 (new_state 1)
              (repeat 5%Z (2 * MAX_PAGE_DATA_SIZE)) 42)
    as (pages & E1 & E2 & E3 & E4 & E5 & E6).
  - reflexivity.
  - reflexivity.
  - constructor.
  - apply repeat_length.
  - intros k. reflexivity.
  - cbn. lia.
  - rewrite HL, Hc. unfold U32_MAX. cbn [page_sequence_number new_state]. lia.
  - unfold U64_MAX. lia.
  - rewrite HL. unfold MAX_PAGE_DATA_SIZE. lia.
  - assert (Hp : length pages = 2).
    { rewrite E3, HL, Hc. reflexivity. }
    exists pages. split; [exact E1|]. split; [exact E2|]. split; [exact Hp|].
    split; [exact E4|]. split; [exact E5|].
    rewrite E6, Hp, HL.
    replace (254 * 255 <? 2 * MAX_PAGE_DATA_SIZE - (2 - 1) * MAX_PAGE_DATA_SIZE) with true
      by (symmetry; apply Nat.ltb_lt; unfold MAX_PAGE_DATA_SIZE; lia).
    reflexivity.
Defined.

End WriterPages.

Module WriterExtras.
Import Writer.

Lemma land_ones_32 : forall a, Z.land a 4294967295 = (a mod 2 ^ 32)%Z.
Proof. intros a. change 4294967295%Z with (Z.ones 32). apply Z.land_ones. lia. Qed.

Lemma lxor_bound_32 :
  forall a b, (0 <= a < 2 ^ 32)%Z -> (0 <= b < 2 ^ 32)%Z -> (0 <= Z.lxor a b < 2 ^ 32)%Z.
Proof.
  intros a b Ha Hb. split; [apply Z.lxor_nonneg; lia|].
  destruct (Z.eq_dec (Z.lxor a b) 0) as [E|E]; [rewrite E; lia|].
  apply Z.log2_lt_pow2; [pose proof (Z.lxor_nonneg a b); lia|].
  pose proof (Z.log2_lxor a b ltac:(lia) ltac:(lia)).
  assert (Z.log2 a < 32)%Z.
  { destruct (Z.eq_dec a 0) as [->|]; [simpl; lia|]. apply Z.log2_lt_pow2; lia. }
  assert (Z.log2 b < 32)%Z.
  { destruct (Z.eq_dec b 0) as [->|]; [simpl; lia|]. apply Z.log2_lt_pow2; lia. }
  lia.
Qed.

Lemma crc32_shift_range :
  forall k c, (0 <= c < 2 ^ 32)%Z -> (0 <= crc32_shift k c < 2 ^ 32)%Z.
Proof.
  induction k as [|k IH]; intros c Hc; [exact Hc|].
  cbn [crc32_shift]. apply IH. rewrite land_ones_32.
  pose proof (Z.mod_pos_bound (Z.shiftl c 1) (2 ^ 32) ltac:(lia)).
  destruct (Z.testbit c 31); [|lia].
  apply lxor_bound_32; lia.
Qed.

Lemma crc32_shift_S_range : forall k c, (0 <= crc32_shift (S k) c < 2 ^ 32)%Z.
Proof.
  intros k c.
  change (crc32_shift (S k) c) with
    (crc32_shift k (let c' := Z.land (Z.shiftl c 1) 4294967295 in
                    if Z.testbit c 31 then Z.lxor c' 79764919 else c')).
  apply crc32_shift_range. cbv zeta. rewrite land_ones_32.
  pose proof (Z.mod_pos_bound (Z.shiftl c 1) (2 ^ 32) ltac:(lia)).
  destruct (Z.testbit c 31); [|lia]. apply lxor_bound_32; lia.
Qed.

Lemma crc32_update_range : forall crc b, (0 <= crc32_update crc b < 2 ^ 32)%Z.
Proof. intros crc b. unfold crc32_update. apply crc32_shift_S_range. Qed.

Lemma crc32_range : forall data, (0 <= crc32 data < 2 ^ 32)%Z.
Proof.
  intros data. unfold crc32. rewrite <- (rev_involutive data).
  destruct (rev data) as [|b r]; [simpl; lia|].
  simpl rev. rewrite fold_left_app. cbn [fold_left]. apply crc32_update_range.
Qed.

Lemma assemble_page_split :
  forall ht g s q crc cnt table data,
    assemble_page ht g s q crc cnt table data =
      (PAGER_MARKER ++ [0%Z; ht] ++ le_bytes 8 g ++ le_bytes 4 s ++ le_bytes 4 q)
      ++ le_bytes 4 crc ++ [cnt] ++ table ++ data.
Proof. intros. unfold assemble_page. rewrite <- !app_assoc. reflexivity. Qed.

Lemma length_header_head :
  forall ht g s q,
    length (PAGER_MARKER ++ [0%Z; ht] ++ le_bytes 8 g ++ le_bytes 4 s ++ le_bytes 4 q) = 22.
Proof. intros. rewrite !length_app, !WriterPages.length_le_bytes. reflexivity. Qed.

Lemma stored_crc_assemble_page :
  forall ht g s q crc cnt table data, (0 <= crc < 2 ^ 32)%Z ->
    stored_crc (assemble_page ht g s q crc cnt table data) = crc.
Proof.
  intros ht g s q crc cnt table data Hc. unfold stored_crc, parse_u32_le.
  rewrite assemble_page_split, skipn_app, length_header_head, skipn_all2
    by (rewrite length_header_head; lia).
  cbn [app Nat.sub skipn].
  rewrite firstn_app, WriterPages.length_le_bytes, Nat.sub_diag, firstn_O, app_nil_r.
  rewrite firstn_all2 by (rewrite WriterPages.length_le_bytes; lia).
  apply WriterPages.le_value_le_bytes. exact Hc.
Qed.

Lemma zero_crc_assemble_page :
  forall ht g s q crc cnt table data,
    zero_crc (assemble_page ht g s q crc cnt table data) = assemble_page ht g s q 0 cnt table data.
Proof.
  intros. unfold zero_crc. rewrite !assemble_page_split.
  rewrite firstn_app, length_header_head, Nat.sub_diag, firstn_O, app_nil_r.
  rewrite firstn_all2 by (rewrite length_header_head; lia).
  rewrite skipn_app, length_header_head. cbn [Nat.sub].
  rewrite skipn_all2 by (rewrite length_header_head; lia). cbn [app].
  change (le_bytes 4 0) with [0; 0; 0; 0]%Z. f_equal.
Qed.

Lemma page_bytes_crc_valid :
  forall ht g s q table data, crc_valid (page_bytes ht g s q table data) = true.
Proof.
  intros. unfold crc_valid, page_bytes. cbv zeta.
  rewrite stored_crc_assemble_page by apply crc32_range.
  rewrite zero_crc_assemble_page. apply Z.eqb_refl.
Qed.

Lemma parse_u32_le_at :
  forall pre v rest, (0 <= v < 2 ^ 32)%Z ->
    parse_u32_le (skipn (length pre) (pre ++ le_bytes 4 v ++ rest)) = v.
Proof.
  intros pre v rest Hv. unfold parse_u32_le.
  rewrite (ReaderPages.skipn_app_exact pre) by reflexivity.
  rewrite (ReaderPages.firstn_app_exact (le_bytes 4 v)) by (rewrite WriterPages.length_le_bytes; reflexivity).
  apply WriterPages.le_value_le_bytes. exact Hv.
Qed.

Lemma page_serial_assemble_page :
  forall ht g s q crc cnt table data, (0 <= s <= U32_MAX)%Z ->
    page_serial (assemble_page ht g s q crc cnt table data) = s.
Proof.
  intros ht g s q crc cnt table data Hs. unfold page_serial.
  replace (assemble_page ht g s q crc cnt table data) with
    ((PAGER_MARKER ++ [0%Z; ht] ++ le_bytes 8 g) ++ le_bytes 4 s
       ++ (le_bytes 4 q ++ le_bytes 4 crc ++ [cnt] ++ table ++ data))
    by (unfold assemble_page; rewrite <- !app_assoc; reflexivity).
  replace 14 with (length (PAGER_MARKER ++ [0%Z; ht] ++ le_bytes 8 g))
    by (rewrite !length_app, WriterPages.length_le_bytes; reflexivity).
  apply parse_u32_le_at. unfold U32_MAX in Hs. lia.
Qed.

Lemma page_sequence_assemble_page :
  forall ht g s q crc cnt table data, (0 <= q <= U32_MAX)%Z ->
    page_sequence (assemble_page ht g s q crc cnt table data) = q.
Proof.
  intros ht g s q crc cnt table data Hq. unfold page_sequence.
  replace (assemble_page ht g s q crc cnt table data) with
    ((PAGER_MARKER ++ [0%Z; ht] ++ le_bytes 8 g ++ le_bytes 4 s) ++ le_bytes 4 q
       ++ (le_bytes 4 crc ++ [cnt] ++ table ++ data))
    by (unfold assemble_page; rewrite <- !app_assoc; reflexivity).
  replace 18 with (length (PAGER_MARKER ++ [0%Z; ht] ++ le_bytes 8 g ++ le_bytes 4 s))
    by (rewrite !length_app, !WriterPages.length_le_bytes; reflexivity).
  apply parse_u32_le_at. unfold U32_MAX in Hq. lia.
Qed.

Lemma payload_assemble_page :
  forall ht g s q crc table data,
    skipn (27 + length table) (assemble_page ht g s q crc (Z.of_nat (length table)) table data) = data.
Proof.
  intros. rewrite WriterPages.assemble_page_prefix.
  replace (27 + length table) with (length (page_prefix ht g s q crc ++ [Z.of_nat (length table)] ++ table))
    by (rewrite !length_app, WriterPages.length_page_prefix; reflexivity).
  replace (page_prefix ht g s q crc ++ [Z.of_nat (length table)] ++ table ++ data)
    with ((page_prefix ht g s q crc ++ [Z.of_nat (length table)] ++ table) ++ data)
    by (rewrite <- !app_assoc; reflexivity).
  apply ReaderPages.skipn_app_exact. reflexivity.
Qed.

(** The general success case of [write_page]: when the queued packet sizes (each at
    most [MAX_PAGE_DATA_SIZE]) need at most 255 lacing values, the buffered data fits,
    the write succeeds and the sequence number can be incremented, one page is
    written and the stream's page is reset. *)
Lemma write_page_ok :
  forall w st,
    Forall (fun s => s <= MAX_PAGE_DATA_SIZE) (packet_sizes st) ->
    length (lacing_values (packet_sizes st)) <= 255 ->
    data_head st <= MAX_PAGE_DATA_SIZE -> data_head st <= length (data_buffer st) ->
    sink_fails w (sink_count w) = false ->
    (page_sequence_number st < U32_MAX)%Z ->
    write_page w st =
      ({| sink_pages := sink_pages w ++
            [page_bytes (header_type st) (granule_position st) (bitstream_serial_number st)
               (page_sequence_number st) (lacing_values (packet_sizes st))
               (firstn (data_head st) (data_buffer st))];
          sink_count := S (sink_count w); sink_fails := sink_fails w |},
       {| bitstream_serial_number := bitstream_serial_number st;
          data_buffer := data_buffer st; data_head := 0; packet_sizes := [];
          page_sequence_number := page_sequence_number st + 1;
          granule_position := granule_position st; header_type := header_type st |},
       Ok tt).
Proof.
  intros w st HF Hn Hh Hb Hf Hq.
  unfold write_page. change 0%Z with (Z.of_nat (length (@nil Z))).
  rewrite WriterPages.build_segment_table_spec by (simpl; lia || exact HF).
  cbn [length app]. rewrite Nat.add_0_l.
  replace (length (lacing_values (packet_sizes st)) <=? 255) with true
    by (symmetry; apply Nat.leb_le; exact Hn).
  rewrite Nat2Z.id.
  replace (SEGMENT_TABLE_INDEX + length (lacing_values (packet_sizes st)) + data_head st
           <=? MAX_PAGE_SIZE) with true
    by (symmetry; apply Nat.leb_le; unfold SEGMENT_TABLE_INDEX, MAX_PAGE_SIZE, MAX_PAGE_HEADER_SIZE;
        unfold MAX_PAGE_DATA_SIZE in *; lia).
  cbn [negb]. unfold slice.
  replace ((0 <=? data_head st) && (data_head st <=? length (data_buffer st))) with true
    by (symmetry; apply andb_true_iff; split; apply Nat.leb_le; lia).
  rewrite Nat.sub_0_r. cbn [skipn].
  unfold write_all. rewrite Hf. cbn [fst snd].
  unfold u32_inc. replace (page_sequence_number st <? U32_MAX)%Z with true
    by (symmetry; apply Z.ltb_lt; lia).
  reflexivity.
Qed.


(** Each [write_page] call appends at most one page to the sink, and that page is
    [page_bytes] of some header fields, table and data. *)
Lemma write_page_page_bytes :
  forall w st w' st' r,
    write_page w st = (w', st', r) ->
    sink_pages w' = sink_pages w \/
    (exists ht g s q table data,
        sink_pages w' = sink_pages w ++ [page_bytes ht g s q table data]).
Proof.
  intros w st w' st' r H. unfold write_page in H.
  destruct (build_segment_table (packet_sizes st) 0 []) as [[cnt table]|e|p] eqn:B;
    try (inversion H; subst; auto; fail).
  apply (WriterPages.build_segment_table_ok _ [] cnt table) in B; [|simpl; lia].
  destruct B as (-> & -> & Hle). simpl app in *.
  destruct (negb _); [inversion H; subst; auto|].
  destruct (slice _ _ _) as [data|]; [|inversion H; subst; auto].
  unfold write_all in H.
  destruct (sink_fails w (sink_count w)); cbn [fst snd] in H.
  { inversion H; subst; auto. }
  right. do 6 eexists.
  destruct (u32_inc _); inversion H; subst; reflexivity.
Qed.

Ltac split_matches :=
  repeat match goal with
  | H : context [match ?x with _ => _ end] |- _ =>
      lazymatch type of x with
      | (Sink * StreamState * _)%type => destruct x as [[?w ?s] ?r] eqn:?
      | (StreamWriter * _)%type => destruct x as [?w ?r] eqn:?
      | _ => destruct x eqn:?
      end
  end.

Ltac inject_pairs :=
  repeat match goal with
  | E : (?a, ?b, ?c) = (?d, ?e, ?f) |- _ => inversion E; subst; clear E
  | E : (?a, ?b) = (?d, ?e) |- _ => inversion E; subst; clear E
  end.

(** A property of pages that every [write_page] call keeps holds of every page in
    the sink after any writer run. *)
Section PagesPreserved.

Variable P : list Z -> Prop.
Hypothesis write_page_keeps :
  forall w st w' st' r,
    Forall P (sink_pages w) -> write_page w st = (w', st', r) -> Forall P (sink_pages w').

Ltac close_P :=
  repeat match goal with
  | E : write_page ?w _ = (?w', _, _), HP : Forall P (sink_pages ?w) |- _ =>
      let H := fresh "HP" in pose proof (write_page_keeps _ _ _ _ _ HP E) as H; clear E
  end.

Lemma split_loop_keeps :
  forall fuel first offset size data granule w st w' st' r,
    Forall P (sink_pages w) ->
    split_loop fuel first offset size data granule w st = (w', st', r) ->
    Forall P (sink_pages w').
Proof.
  induction fuel as [|fuel IH]; intros first offset size data granule w st w' st' r HP H.
  - simpl in H. inversion H; subst. exact HP.
  - cbn [split_loop] in H. split_matches; inject_pairs; close_P; try assumption;
      try (eapply IH; [|eassumption]; assumption).
Qed.

Lemma push_packet_state_keeps :
  forall w st data granule w' st' r,
    Forall P (sink_pages w) ->
    push_packet_state w st data granule = (w', st', r) ->
    Forall P (sink_pages w').
Proof.
  intros w st data granule w' st' r HP H. unfold push_packet_state in H.
  split_matches; inject_pairs; close_P; try assumption;
    try (eapply split_loop_keeps; [|eassumption]; assumption).
Qed.

Lemma run_op_keeps :
  forall w op w' r,
    Forall P (sink_pages (writer w)) -> run_op w op = (w', r) -> Forall P (sink_pages (writer w')).
Proof.
  intros w op w' r HP H.
  destruct op; cbn [run_op] in H;
    unfold StreamWriter.begin_logical_stream, StreamWriter.push_packet,
      StreamWriter.end_logical_stream, StreamWriter.flush in H;
    split_matches; inject_pairs; cbn [writer] in *; close_P; try assumption;
    try (eapply push_packet_state_keeps; [|eassumption]; assumption).
Qed.

Lemma run_writer_all_keeps :
  forall ops w,
    Forall P (sink_pages (writer w)) -> Forall P (sink_pages (writer (run_writer_all w ops))).
Proof.
  induction ops as [|op ops IH]; intros w HP; [exact HP|].
  cbn [run_writer_all]. destruct (run_op w op) as [w1 r1] eqn:E.
  pose proof (run_op_keeps _ _ _ _ HP E) as HP1.
  destruct r1; [apply IH; exact HP1 | apply IH; exact HP1 | exact HP1].
Qed.

End PagesPreserved.

Lemma write_page_keeps_page_bytes :
  forall w st w' st' r,
    Forall (fun p => exists ht g s q table data, p = page_bytes ht g s q table data) (sink_pages w) ->
    write_page w st = (w', st', r) ->
    Forall (fun p => exists ht g s q table data, p = page_bytes ht g s q table data) (sink_pages w').
Proof.
  intros w st w' st' r HP H.
  destruct (write_page_page_bytes _ _ _ _ _ H) as [-> | (ht & g & s & q & table & data & ->)];
    [exact HP|].
  apply Forall_app. split; [exact HP|]. constructor; [|constructor]. eauto 7.
Qed.

(** X1. On a new writer over a sink with no pages yet, after any sequence of writer
    calls (a call that returns an error is followed by the next one), every page whose
    write to the sink succeeded starts with the capture pattern, has version 0 and
    carries a CRC that verifies. *)
Theorem writer_pages_crc_valid :
  forall n fails ops,
    Forall (fun p => crc_valid p = true /\ firstn 4 p = PAGER_MARKER /\ page_version p = 0%Z)
      (sink_pages (writer (run_writer_all
         (new {| sink_pages := []; sink_count := n; sink_fails := fails |}) ops))).
Proof.
  intros n fails ops.
  assert (H := run_writer_all_keeps _ write_page_keeps_page_bytes ops
                 (new {| sink_pages := []; sink_count := n; sink_fails := fails |})
                 (Forall_nil _)).
  eapply Forall_impl; [|exact H].
  intros p (ht & g & s & q & table & data & ->). split; [apply page_bytes_crc_valid|].
  split; reflexivity.
Qed.


Lemma write_page_sink_error :
  forall w st,
    Forall (fun s => s <= MAX_PAGE_DATA_SIZE) (packet_sizes st) ->
    length (lacing_values (packet_sizes st)) <= 255 ->
    data_head st <= MAX_PAGE_DATA_SIZE -> data_head st <= length (data_buffer st) ->
    sink_fails w (sink_count w) = true ->
    write_page w st =
      ({| sink_pages := sink_pages w; sink_count := S (sink_count w); sink_fails := sink_fails w |},
       st, Err WriteError.IoError).
Proof.
  intros w st HF Hn Hh Hb Hf.
  unfold write_page. change 0%Z with (Z.of_nat (length (@nil Z))).
  rewrite WriterPages.build_segment_table_spec by (simpl; lia || exact HF).
  cbn [length app]. rewrite Nat.add_0_l.
  replace (length (lacing_values (packet_sizes st)) <=? 255) with true
    by (symmetry; apply Nat.leb_le; exact Hn).
  rewrite Nat2Z.id.
  replace (SEGMENT_TABLE_INDEX + length (lacing_values (packet_sizes st)) + data_head st
           <=? MAX_PAGE_SIZE) with true
    by (symmetry; apply Nat.leb_le; unfold SEGMENT_TABLE_INDEX, MAX_PAGE_SIZE, MAX_PAGE_HEADER_SIZE;
        unfold MAX_PAGE_DATA_SIZE in *; lia).
  cbn [negb]. unfold slice.
  replace ((0 <=? data_head st) && (data_head st <=? length (data_buffer st))) with true
    by (symmetry; apply andb_true_iff; split; apply Nat.leb_le; lia).
  unfold write_all. rewrite Hf. reflexivity.
Qed.

Lemma find_stream_replace_same :
  forall l serial i s, find_stream l serial = Some (i, s) -> replace_nth l i s = l.
Proof.
  induction l as [|s0 l IH]; intros serial i s Hf; [discriminate|].
  simpl in Hf. destruct (bitstream_serial_number s0 =? serial)%Z.
  - injection Hf as <- <-. reflexivity.
  - destruct (find_stream l serial) as [[j s']|] eqn:F; [|discriminate].
    injection Hf as <- <-. unfold replace_nth in *. simpl. f_equal. eapply IH; eauto.
Qed.

Lemma find_stream_replace :
  forall l serial i s s',
    find_stream l serial = Some (i, s) -> bitstream_serial_number s' = serial ->
    find_stream (replace_nth l i s') serial = Some (i, s').
Proof.
  induction l as [|s0 l IH]; intros serial i s s' Hf Hs; [discriminate|].
  simpl in Hf. destruct (bitstream_serial_number s0 =? serial)%Z eqn:E.
  - injection Hf as <- <-. unfold replace_nth. simpl. rewrite Hs, Z.eqb_refl. reflexivity.
  - destruct (find_stream l serial) as [[j s1]|] eqn:F; [|discriminate].
    injection Hf as <- <-.
    change (replace_nth (s0 :: l) (S j) s') with (s0 :: replace_nth l j s').
    cbn [find_stream]. rewrite E.
    rewrite (IH serial j s1 s' F Hs). reflexivity.
Qed.

Lemma find_stream_serial :
  forall l serial i s, find_stream l serial = Some (i, s) -> bitstream_serial_number s = serial.
Proof.
  induction l as [|s0 l IH]; intros serial i s Hf; [discriminate|].
  simpl in Hf. destruct (Z.eqb_spec (bitstream_serial_number s0) serial).
  - injection Hf as <- <-. assumption.
  - destruct (find_stream l serial) as [[j s']|] eqn:F; [|discriminate].
    injection Hf as <- <-. eapply IH; eauto.
Qed.

Lemma find_stream_absent :
  forall l serial, Forall (fun s => bitstream_serial_number s <> serial) l -> find_stream l serial = None.
Proof.
  induction l as [|s0 l IH]; intros serial H; [reflexivity|].
  inversion H; subst. simpl. destruct (Z.eqb_spec (bitstream_serial_number s0) serial); [congruence|].
  rewrite IH by assumption. reflexivity.
Qed.

Lemma lacing_values_one : forall s, lacing_values [s] = lacing s.
Proof. intros. unfold lacing_values. simpl. apply app_nil_r. Qed.

(** X2. [begin_logical_stream] with a serial that is not live and a first packet of at
    most [MAX_PAGE_DATA_SIZE] bytes, on a sink whose next write succeeds, writes one
    page: header type BOS, granule position 0 (or [u64::MAX] if the table is full),
    sequence number 0, the lacing of the packet and the packet itself. The new stream
    is appended with an empty page, sequence number 1 and header type 0. *)
Theorem begin_logical_stream_bos_page :
  forall self serial data,
    existsb (fun s => (bitstream_serial_number s =? serial)%Z) (stream_states self) = false ->
    length data <= MAX_PAGE_DATA_SIZE ->
    sink_fails (writer self) (sink_count (writer self)) = false ->
    StreamWriter.begin_logical_stream self serial data =
      ({| writer := {| sink_pages := sink_pages (writer self) ++
                         [page_bytes BOS_VALUE 0 serial 0 (lacing (length data)) data];
                       sink_count := S (sink_count (writer self));
                       sink_fails := sink_fails (writer self) |};
          stream_states := stream_states self ++
            [{| bitstream_serial_number := serial;
                data_buffer := data ++ skipn (length data) (repeat 0%Z MAX_PAGE_DATA_SIZE);
                data_head := 0; packet_sizes := []; page_sequence_number := 1;
                granule_position := 0; header_type := 0 |}] |},
       Ok tt).
Proof.
  intros self serial data Hex HL Hf.
  unfold StreamWriter.begin_logical_stream. rewrite Hex.
  replace (MAX_PAGE_DATA_SIZE <? length data) with false
    by (symmetry; apply Nat.ltb_ge; exact HL).
  rewrite WriterPages.push_packet_empty.
  2: reflexivity.
  2: { unfold set_header_type, new_state. cbn [data_buffer]. rewrite repeat_length. exact HL. }
  unfold set_header_type, new_state. cbn [bitstream_serial_number data_buffer data_head
    packet_sizes page_sequence_number granule_position header_type app].
  rewrite write_page_ok; cbn [bitstream_serial_number data_buffer data_head
    packet_sizes page_sequence_number granule_position header_type].
  - rewrite lacing_values_one, ReaderPages.firstn_app_exact by reflexivity. reflexivity.
  - constructor; [exact HL|constructor].
  - rewrite lacing_values_one. apply WriterPages.length_lacing_bound. exact HL.
  - exact HL.
  - rewrite length_app, length_skipn, repeat_length. lia.
  - exact Hf.
  - unfold U32_MAX. lia.
Qed.

Lemma begin_logical_stream_bos_page_witness :
  StreamWriter.begin_logical_stream one_stream_writer 2 [7; 8; 9]%Z =
    ({| writer := {| sink_pages := sink_pages (writer one_stream_writer) ++
                       [page_bytes BOS_VALUE 0 2 0 (lacing 3) [7; 8; 9]%Z];
                     sink_count := 1; sink_fails := sink_fails (writer one_stream_writer) |};
        stream_states := stream_states one_stream_writer ++
          [{| bitstream_serial_number := 2;
              data_buffer := [7; 8; 9]%Z ++ skipn 3 (repeat 0%Z MAX_PAGE_DATA_SIZE);
              data_head := 0; packet_sizes := []; page_sequence_number := 1;
              granule_position := 0; header_type := 0 |}] |},
     Ok tt).
Proof.
  apply (begin_logical_stream_bos_page one_stream_writer 2 [7; 8; 9]%Z).
  - reflexivity.
  - unfold MAX_PAGE_DATA_SIZE. cbn [length]. lia.
  - reflexivity.
Defined.


(** X3. [flush] on a live stream with buffered data, on a sink whose next write
    succeeds, writes exactly the buffered page (its header type, granule position,
    serial, sequence number, the lacing of the buffered packets and the buffered
    bytes) and leaves the stream with an empty page and the next sequence number. *)
Theorem flush_writes_pending_page :
  forall self serial i st,
    find_stream (stream_states self) serial = Some (i, st) ->
    0 < data_head st ->
    Forall (fun s => s <= MAX_PAGE_DATA_SIZE) (packet_sizes st) ->
    length (lacing_values (packet_sizes st)) <= 255 ->
    data_head st <= MAX_PAGE_DATA_SIZE -> data_head st <= length (data_buffer st) ->
    sink_fails (writer self) (sink_count (writer self)) = false ->
    (page_sequence_number st < U32_MAX)%Z ->
    StreamWriter.flush self serial =
      ({| writer := {| sink_pages := sink_pages (writer self) ++
                         [page_bytes (header_type st) (granule_position st) serial
                            (page_sequence_number st) (lacing_values (packet_sizes st))
                            (firstn (data_head st) (data_buffer st))];
                       sink_count := S (sink_count (writer self));
                       sink_fails := sink_fails (writer self) |};
          stream_states := replace_nth (stream_states self) i
            {| bitstream_serial_number := serial; data_buffer := data_buffer st;
               data_head := 0; packet_sizes := [];
               page_sequence_number := page_sequence_number st + 1;
               granule_position := granule_position st; header_type := header_type st |} |},
       Ok tt).
Proof.
  intros self serial i st Hfind Hpos HF Hn Hh Hb Hf Hq.
  unfold StreamWriter.flush. rewrite Hfind.
  replace (negb (data_head st =? 0)) with true
    by (symmetry; apply negb_true_iff, Nat.eqb_neq; lia).
  rewrite write_page_ok by assumption.
  rewrite (find_stream_serial _ _ _ _ Hfind). reflexivity.
Qed.

Lemma flush_writes_pending_page_witness :
  StreamWriter.flush (pending_writer vec_sink) 1 =
    ({| writer := {| sink_pages := [page_bytes 0 10 1 3 (lacing_values [2]) [5; 6]%Z];
                     sink_count := 1; sink_fails := sink_fails vec_sink |};
        stream_states := replace_nth [pending_state] 0
          {| bitstream_serial_number := 1; data_buffer := [5; 6; 7]%Z;
             data_head := 0; packet_sizes := []; page_sequence_number := 4;
             granule_position := 10; header_type := 0 |} |},
     Ok tt).
Proof.
  apply (flush_writes_pending_page (pending_writer vec_sink) 1 0 pending_state);
    try reflexivity.
  - cbn. lia.
  - constructor; [unfold MAX_PAGE_DATA_SIZE; lia|constructor].
  - cbn. lia.
  - cbn [data_head pending_state]. unfold MAX_PAGE_DATA_SIZE. lia.
  - cbn. lia.
Defined.

(** X4. When the sink's write fails, [flush] on a live stream with buffered data
    returns [IoError] and keeps every stream state as it was: the buffered packets
    stay buffered, with the same sequence number, for a later [flush]. *)
Theorem flush_io_error_keeps_buffer :
  forall self serial i st,
    find_stream (stream_states self) serial = Some (i, st) ->
    0 < data_head st ->
    Forall (fun s => s <= MAX_PAGE_DATA_SIZE) (packet_sizes st) ->
    length (lacing_values (packet_sizes st)) <= 255 ->
    data_head st <= MAX_PAGE_DATA_SIZE -> data_head st <= length (data_buffer st) ->
    sink_fails (writer self) (sink_count (writer self)) = true ->
    snd (StreamWriter.flush self serial) = Err WriteError.IoError /\
    stream_states (fst (StreamWriter.flush self serial)) = stream_states self.
Proof.
  intros self serial i st Hfind Hpos HF Hn Hh Hb Hf.
  unfold StreamWriter.flush. rewrite Hfind.
  replace (negb (data_head st =? 0)) with true
    by (symmetry; apply negb_true_iff, Nat.eqb_neq; lia).
  rewrite write_page_sink_error by assumption.
  rewrite (find_stream_replace_same _ _ _ _ Hfind). split; reflexivity.
Qed.

Lemma flush_io_error_keeps_buffer_witness :
  snd (StreamWriter.flush (pending_writer (writer failing_writer)) 1) = Err WriteError.IoError /\
  stream_states (fst (StreamWriter.flush (pending_writer (writer failing_writer)) 1)) =
    [pending_state].
Proof.
  apply (flush_io_error_keeps_buffer (pending_writer (writer failing_writer)) 1 0 pending_state);
    try reflexivity.
  - cbn. lia.
  - constructor; [unfold MAX_PAGE_DATA_SIZE; lia|constructor].
  - cbn. lia.
  - cbn [data_head pending_state]. unfold MAX_PAGE_DATA_SIZE. lia.
  - cbn. lia.
Defined.

(** X5. When [page_is_empty] reports an empty page for a stream, [flush] on that
    stream does nothing: it returns [Ok] and the writer unchanged. *)
Theorem page_is_empty_flush_noop :
  forall self serial,
    StreamWriter.page_is_empty self serial = (self, Ok true) ->
    StreamWriter.flush self serial = (self, Ok tt).
Proof.
  intros self serial H. unfold StreamWriter.page_is_empty in H. unfold StreamWriter.flush.
  destruct (find_stream (stream_states self) serial) as [[i st]|]; [|discriminate].
  injection H as Hz. rewrite Hz. reflexivity.
Qed.

Lemma page_is_empty_flush_noop_witness :
  StreamWriter.flush one_stream_writer 1 = (one_stream_writer, Ok tt).
Proof.
  apply page_is_empty_flush_noop. reflexivity.
Defined.


(** X6. [push_packet] of a packet shorter than [MAX_PAGE_DATA_SIZE] into a live stream
    whose page is empty writes nothing: the packet is copied to the front of the page
    buffer, its size is recorded, the granule position is set, and [page_is_empty]
    then reports an empty page only for an empty packet. *)
Theorem push_packet_buffers_short_packet :
  forall self serial i st data g,
    find_stream (stream_states self) serial = Some (i, st) ->
    data_head st = 0 ->
    length (data_buffer st) = MAX_PAGE_DATA_SIZE ->
    length data < MAX_PAGE_DATA_SIZE ->
    let self' :=
      {| writer := writer self;
         stream_states := replace_nth (stream_states self) i
           {| bitstream_serial_number := serial;
              data_buffer := data ++ skipn (length data) (data_buffer st);
              data_head := length data; packet_sizes := packet_sizes st ++ [length data];
              page_sequence_number := page_sequence_number st;
              granule_position := g; header_type := header_type st |} |} in
    StreamWriter.push_packet self serial data g = (self', Ok tt) /\
    StreamWriter.page_is_empty self' serial = (self', Ok (length data =? 0)).
Proof.
  intros self serial i st data g Hfind Hz Hb HL self'.
  assert (Hs := find_stream_serial _ _ _ _ Hfind).
  split.
  - unfold StreamWriter.push_packet. rewrite Hfind. unfold push_packet_state.
    rewrite Hz. cbn [Nat.eqb negb andb]. cbv beta iota zeta. try rewrite Hz.
    replace (0 + length data <=? MAX_PAGE_DATA_SIZE) with true
      by (symmetry; apply Nat.leb_le; lia).
    rewrite WriterPages.push_packet_empty
      by (unfold set_granule_position; cbn [data_head data_buffer]; lia).
    unfold set_granule_position. cbn [data_head data_buffer bitstream_serial_number
      packet_sizes page_sequence_number granule_position header_type].
    replace (length data =? MAX_PAGE_DATA_SIZE) with false
      by (symmetry; apply Nat.eqb_neq; lia).
    rewrite Hs. reflexivity.
  - unfold StreamWriter.page_is_empty, self'. cbn [stream_states].
    rewrite (find_stream_replace _ _ _ _ _ Hfind) by reflexivity. reflexivity.
Qed.

Lemma push_packet_buffers_short_packet_witness :
  StreamWriter.push_packet one_stream_writer 1 [4; 2]%Z 7 =
    ({| writer := vec_sink;
        stream_states := replace_nth [new_state 1] 0
          {| bitstream_serial_number := 1;
             data_buffer := [4; 2]%Z ++ skipn 2 (repeat 0%Z MAX_PAGE_DATA_SIZE);
             data_head := 2; packet_sizes := [2]; page_sequence_number := 0;
             granule_position := 7; header_type := 0 |} |}, Ok tt).
Proof.
  refine (proj1 (push_packet_buffers_short_packet one_stream_writer 1 0 (new_state 1)
                   [4; 2]%Z 7 eq_refl eq_refl _ _)).
  - apply repeat_length.
  - unfold MAX_PAGE_DATA_SIZE. cbn [length]. lia.
Defined.

(** X7. [push_packet] of a packet of exactly [MAX_PAGE_DATA_SIZE] bytes into a live
    stream whose page is empty (and holds no packets) fills the page and writes it at
    once: one page with the packet's lacing (255 values of 255, no terminator) and the
    packet, after which the stream's page is empty again and its sequence number is
    incremented. *)
Theorem push_packet_full_page_written :
  forall self serial i st data g,
    find_stream (stream_states self) serial = Some (i, st) ->
    data_head st = 0 -> Forall (fun s => s = 0) (packet_sizes st) ->
    length (data_buffer st) = MAX_PAGE_DATA_SIZE ->
    length data = MAX_PAGE_DATA_SIZE ->
    sink_fails (writer self) (sink_count (writer self)) = false ->
    (page_sequence_number st < U32_MAX)%Z ->
    let self' :=
      {| writer := {| sink_pages := sink_pages (writer self) ++
                        [page_bytes (header_type st) g serial (page_sequence_number st)
                           (lacing MAX_PAGE_DATA_SIZE) data];
                      sink_count := S (sink_count (writer self));
                      sink_fails := sink_fails (writer self) |};
         stream_states := replace_nth (stream_states self) i
           {| bitstream_serial_number := serial; data_buffer := data;
              data_head := 0; packet_sizes := [];
              page_sequence_number := page_sequence_number st + 1;
              granule_position := g; header_type := header_type st |} |} in
    StreamWriter.push_packet self serial data g = (self', Ok tt) /\
    StreamWriter.page_is_empty self' serial = (self', Ok true).
Proof.
  intros self serial i st data g Hfind Hz HZ Hb HL Hf Hq self'.
  assert (Hs := find_stream_serial _ _ _ _ Hfind).
  split.
  - unfold StreamWriter.push_packet. rewrite Hfind. unfold push_packet_state.
    rewrite Hz. cbn [Nat.eqb negb andb]. cbv beta iota zeta. try rewrite Hz.
    replace (0 + length data <=? MAX_PAGE_DATA_SIZE) with true
      by (symmetry; apply Nat.leb_le; lia).
    rewrite WriterPages.push_packet_empty
      by (unfold set_granule_position; cbn [data_head data_buffer]; lia).
    unfold set_granule_position. cbn [data_head data_buffer bitstream_serial_number
      packet_sizes page_sequence_number granule_position header_type].
    replace (length data =? MAX_PAGE_DATA_SIZE) with true
      by (symmetry; apply Nat.eqb_eq; lia).
    assert (Hlv : lacing_values (packet_sizes st ++ [length data]) = lacing MAX_PAGE_DATA_SIZE)
      by (rewrite WriterPages.lacing_values_single by exact HZ; rewrite HL; reflexivity).
    rewrite write_page_ok; cbn [data_head data_buffer bitstream_serial_number
      packet_sizes page_sequence_number granule_position header_type].
    + rewrite Hlv, ReaderPages.firstn_app_exact by reflexivity.
      rewrite (skipn_all2 (data_buffer st)) by lia. rewrite app_nil_r, Hs. reflexivity.
    + apply Forall_app. split; [|constructor; [lia|constructor]].
      eapply Forall_impl; [|exact HZ]. intros a Ha. cbv beta in Ha. lia.
    + rewrite Hlv. apply WriterPages.length_lacing_bound. lia.
    + lia.
    + rewrite length_app. lia.
    + exact Hf.
    + exact Hq.
  - unfold StreamWriter.page_is_empty, self'. cbn [stream_states].
    rewrite (find_stream_replace _ _ _ _ _ Hfind) by reflexivity. reflexivity.
Qed.

Lemma push_packet_full_page_written_witness :
  StreamWriter.push_packet one_stream_writer 1 (repeat 1%Z MAX_PAGE_DATA_SIZE) 7 =
    ({| writer := {| sink_pages := [page_bytes 0 7 1 0 (lacing MAX_PAGE_DATA_SIZE)
                                      (repeat 1%Z MAX_PAGE_DATA_SIZE)];
                     sink_count := 1; sink_fails := sink_fails vec_sink |};
        stream_states := replace_nth [new_state 1] 0
          {| bitstream_serial_number := 1; data_buffer := repeat 1%Z MAX_PAGE_DATA_SIZE;
             data_head := 0; packet_sizes := []; page_sequence_number := 1;
             granule_position := 7; header_type := 0 |} |}, Ok tt).
Proof.
  refine (proj1 (push_packet_full_page_written one_stream_writer 1 0 (new_state 1)
                   (repeat 1%Z MAX_PAGE_DATA_SIZE) 7 eq_refl eq_refl (Forall_nil _) _ _ eq_refl _)).
  - apply repeat_length.
  - apply repeat_length.
  - unfold U32_MAX. cbn [new_state page_sequence_number]. lia.
Defined.


Lemma write_page_serial :
  forall w st w' st' r,
    write_page w st = (w', st', r) -> bitstream_serial_number st' = bitstream_serial_number st.
Proof.
  intros w st w' st' r H. unfold write_page in H.
  destruct (build_segment_table (packet_sizes st) 0 []) as [[cnt table]|e|p];
    try (inversion H; subst; reflexivity).
  destruct (negb _); [inversion H; subst; reflexivity|].
  destruct (slice _ _ _) as [data|]; [|inversion H; subst; reflexivity].
  destruct (write_all w _) as [w1 [u|e|p]];
    try (inversion H; subst; reflexivity).
  destruct (u32_inc _); inversion H; subst; reflexivity.
Qed.

Lemma push_packet_serial :
  forall st data st', push_packet st data = Ok st' ->
    bitstream_serial_number st' = bitstream_serial_number st.
Proof.
  intros st data st' H. unfold push_packet in H.
  destruct (negb _); [discriminate|].
  destruct (slice _ _ _); [|discriminate].
  destruct (copy_into _ _ _ _); [|discriminate].
  injection H as <-. reflexivity.
Qed.

(** X8. [end_logical_stream] on a live stream whose page is empty, with a last packet
    of at most [MAX_PAGE_DATA_SIZE] bytes and a sink whose next write succeeds, writes
    one page: header type EOS, the given granule position (or [u64::MAX] when the
    packet fills all 255 lacing values, 64771 to 65025 bytes), the stream's serial and
    sequence number, the lacing of the packet and the packet itself. The stream is
    removed from the writer. *)
Theorem end_logical_stream_eos_page :
  forall self serial i st data g,
    find_stream (stream_states self) serial = Some (i, st) ->
    data_head st = 0 -> Forall (fun s => s = 0) (packet_sizes st) ->
    length data <= MAX_PAGE_DATA_SIZE -> length data <= length (data_buffer st) ->
    sink_fails (writer self) (sink_count (writer self)) = false ->
    (page_sequence_number st < U32_MAX)%Z ->
    StreamWriter.end_logical_stream self serial data g =
      ({| writer := {| sink_pages := sink_pages (writer self) ++
                         [page_bytes EOS_VALUE g serial (page_sequence_number st)
                            (lacing (length data)) data];
                       sink_count := S (sink_count (writer self));
                       sink_fails := sink_fails (writer self) |};
          stream_states := remove_nth (stream_states self) i |},
       Ok tt).
Proof.
  intros self serial i st data g Hfind Hz HZ HL Hb Hf Hq.
  assert (Hs := find_stream_serial _ _ _ _ Hfind).
  unfold StreamWriter.end_logical_stream. rewrite Hfind. rewrite Hz. cbn [Nat.eqb negb andb]. cbv beta iota zeta. try rewrite Hz.
  rewrite WriterPages.push_packet_empty
    by (unfold set_granule_position, set_header_type; cbn [data_head data_buffer]; lia).
  unfold set_granule_position, set_header_type. cbn [data_head data_buffer
    bitstream_serial_number packet_sizes page_sequence_number granule_position header_type].
  rewrite write_page_ok; cbn [data_head data_buffer bitstream_serial_number
    packet_sizes page_sequence_number granule_position header_type].
  - rewrite WriterPages.lacing_values_single by exact HZ.
    rewrite ReaderPages.firstn_app_exact by reflexivity. rewrite Hs. reflexivity.
  - apply Forall_app. split; [|constructor; [lia|constructor]].
    eapply Forall_impl; [|exact HZ]. intros a Ha. cbv beta in Ha. lia.
  - rewrite WriterPages.lacing_values_single by exact HZ. apply WriterPages.length_lacing_bound. lia.
  - lia.
  - rewrite length_app, length_skipn. lia.
  - exact Hf.
  - exact Hq.
Qed.

Lemma end_logical_stream_eos_page_witness :
  StreamWriter.end_logical_stream one_stream_writer 1 [3; 1]%Z 40 =
    ({| writer := {| sink_pages := [page_bytes EOS_VALUE 40 1 0 (lacing 2) [3; 1]%Z];
                     sink_count := 1; sink_fails := sink_fails vec_sink |};
        stream_states := [] |}, Ok tt).
Proof.
  apply (end_logical_stream_eos_page one_stream_writer 1 0 (new_state 1));
    try reflexivity.
  - constructor.
  - unfold MAX_PAGE_DATA_SIZE. cbn [length]. lia.
  - cbn [one_stream_writer new_state data_buffer length]. rewrite repeat_length.
    unfold MAX_PAGE_DATA_SIZE. lia.
Defined.

(** X9. [end_logical_stream] on a live stream with buffered data (at most 255 lacing
    values), with a last packet of at most [MAX_PAGE_DATA_SIZE] bytes and a sink whose
    next two writes succeed, first writes the buffered page, then the EOS page with the
    next sequence number, the given granule position (or [u64::MAX] when the last
    packet fills all 255 lacing values) and the last packet; the stream is removed from
    the writer. *)
Theorem end_logical_stream_flushes_then_eos :
  forall self serial i st data g,
    find_stream (stream_states self) serial = Some (i, st) ->
    0 < data_head st ->
    Forall (fun s => s <= MAX_PAGE_DATA_SIZE) (packet_sizes st) ->
    length (lacing_values (packet_sizes st)) <= 255 ->
    data_head st <= MAX_PAGE_DATA_SIZE -> data_head st <= length (data_buffer st) ->
    length data <= MAX_PAGE_DATA_SIZE -> length data <= length (data_buffer st) ->
    sink_fails (writer self) (sink_count (writer self)) = false ->
    sink_fails (writer self) (S (sink_count (writer self))) = false ->
    (page_sequence_number st + 1 < U32_MAX)%Z ->
    StreamWriter.end_logical_stream self serial data g =
      ({| writer := {| sink_pages := sink_pages (writer self) ++
                         [page_bytes (header_type st) (granule_position st) serial
                            (page_sequence_number st) (lacing_values (packet_sizes st))
                            (firstn (data_head st) (data_buffer st));
                          page_bytes EOS_VALUE g serial (page_sequence_number st + 1)
                            (lacing (length data)) data];
                       sink_count := S (S (sink_count (writer self)));
                       sink_fails := sink_fails (writer self) |};
          stream_states := remove_nth (stream_states self) i |},
       Ok tt).
Proof.
  intros self serial i st data g Hfind Hpos HF Hn Hh Hb HL HLb Hf Hf' Hq.
  assert (Hs := find_stream_serial _ _ _ _ Hfind).
  unfold StreamWriter.end_logical_stream. rewrite Hfind.
  replace (negb (data_head st =? 0)) with true
    by (symmetry; apply negb_true_iff, Nat.eqb_neq; lia).
  rewrite write_page_ok by (assumption || lia). cbv beta iota zeta.
  rewrite WriterPages.push_packet_empty
    by (unfold set_granule_position, set_header_type; cbn [data_head data_buffer]; lia).
  unfold set_granule_position, set_header_type. cbn [data_head data_buffer
    bitstream_serial_number packet_sizes page_sequence_number granule_position header_type
    sink_pages sink_count sink_fails app].
  rewrite write_page_ok; cbn [data_head data_buffer bitstream_serial_number
    packet_sizes page_sequence_number granule_position header_type
    sink_pages sink_count sink_fails].
  - rewrite lacing_values_one, ReaderPages.firstn_app_exact by reflexivity.
    rewrite Hs, <- app_assoc. reflexivity.
  - constructor; [lia|constructor].
  - rewrite lacing_values_one. apply WriterPages.length_lacing_bound. lia.
  - lia.
  - rewrite length_app, length_skipn. lia.
  - exact Hf'.
  - exact Hq.
Qed.

Lemma end_logical_stream_flushes_then_eos_witness :
  StreamWriter.end_logical_stream (pending_writer vec_sink) 1 [9]%Z 40 =
    ({| writer := {| sink_pages := [page_bytes 0 10 1 3 (lacing_values [2]) [5; 6]%Z;
                                    page_bytes EOS_VALUE 40 1 4 (lacing 1) [9]%Z];
                     sink_count := 2; sink_fails := sink_fails vec_sink |};
        stream_states := [] |}, Ok tt).
Proof.
  apply (end_logical_stream_flushes_then_eos (pending_writer vec_sink) 1 0 pending_state);
    try reflexivity.
  - cbn. lia.
  - constructor; [unfold MAX_PAGE_DATA_SIZE; lia|constructor].
  - cbn. lia.
  - cbn [data_head pending_state]. unfold MAX_PAGE_DATA_SIZE. lia.
  - cbn. lia.
  - unfold MAX_PAGE_DATA_SIZE. cbn [length]. lia.
  - cbn. lia.
Defined.

(** X10. A serial that no live stream has is rejected by [push_packet], [flush],
    [end_logical_stream] and [page_is_empty] with [UnknownBitstreamSerialNumber],
    and none of them writes anything or changes the writer. *)
Theorem unknown_serial_rejected :
  forall self serial data g,
    Forall (fun s => bitstream_serial_number s <> serial) (stream_states self) ->
    StreamWriter.push_packet self serial data g =
      (self, Err WriteError.UnknownBitstreamSerialNumber) /\
    StreamWriter.flush self serial = (self, Err WriteError.UnknownBitstreamSerialNumber) /\
    StreamWriter.end_logical_stream self serial data g =
      (self, Err WriteError.UnknownBitstreamSerialNumber) /\
    StreamWriter.page_is_empty self serial =
      (self, Err WriteError.UnknownBitstreamSerialNumber).
Proof.
  intros self serial data g H.
  unfold StreamWriter.push_packet, StreamWriter.flush, StreamWriter.end_logical_stream,
    StreamWriter.page_is_empty.
  rewrite find_stream_absent by exact H. repeat split.
Qed.

Lemma unknown_serial_rejected_witness :
  StreamWriter.push_packet one_stream_writer 2 [1]%Z 0 =
    (one_stream_writer, Err WriteError.UnknownBitstreamSerialNumber) /\
  StreamWriter.flush one_stream_writer 2 =
    (one_stream_writer, Err WriteError.UnknownBitstreamSerialNumber) /\
  StreamWriter.end_logical_stream one_stream_writer 2 [1]%Z 0 =
    (one_stream_writer, Err WriteError.UnknownBitstreamSerialNumber) /\
  StreamWriter.page_is_empty one_stream_writer 2 =
    (one_stream_writer, Err WriteError.UnknownBitstreamSerialNumber).
Proof.
  apply unknown_serial_rejected. constructor; [cbn; lia|constructor].
Defined.

Lemma begin_logical_stream_ok_states :
  forall self serial data self1,
    StreamWriter.begin_logical_stream self serial data = (self1, Ok tt) ->
    exists st, stream_states self1 = stream_states self ++ [st] /\
               bitstream_serial_number st = serial.
Proof.
  intros self serial data self1 H.
  unfold StreamWriter.begin_logical_stream in H.
  destruct (existsb _ (stream_states self)); [discriminate|].
  destruct (MAX_PAGE_DATA_SIZE <? length data); [discriminate|].
  destruct (push_packet (set_header_type (new_state serial) BOS_VALUE) data)
    as [st1|e|p] eqn:P; try discriminate.
  destruct (write_page (writer self) st1) as [[w st2] [u|e|p]] eqn:W; try discriminate.
  injection H as <-. exists (set_header_type st2 0). split; [reflexivity|].
  apply write_page_serial in W. apply push_packet_serial in P.
  unfold set_header_type. cbn [bitstream_serial_number]. rewrite W, P. reflexivity.
Qed.

(** X11. Once [begin_logical_stream] has succeeded for a serial, a second
    [begin_logical_stream] with the same serial is rejected with
    [BitstreamAlreadyInitialized] and changes nothing. *)
Theorem begin_logical_stream_twice_rejected :
  forall self serial data data' self1,
    StreamWriter.begin_logical_stream self serial data = (self1, Ok tt) ->
    StreamWriter.begin_logical_stream self1 serial data' =
      (self1, Err WriteError.BitstreamAlreadyInitialized).
Proof.
  intros self serial data data' self1 H.
  destruct (begin_logical_stream_ok_states _ _ _ _ H) as (st & Hst & Hs).
  unfold StreamWriter.begin_logical_stream. rewrite Hst, existsb_app. cbn [existsb].
  rewrite Hs, Z.eqb_refl, orb_true_r. reflexivity.
Qed.

Lemma begin_logical_stream_twice_rejected_witness :
  StreamWriter.begin_logical_stream one_stream_writer 2 [7; 8; 9]%Z =
    (fst (StreamWriter.begin_logical_stream one_stream_writer 2 [7; 8; 9]%Z), Ok tt) /\
  StreamWriter.begin_logical_stream
    (fst (StreamWriter.begin_logical_stream one_stream_writer 2 [7; 8; 9]%Z)) 2 []%Z =
    (fst (StreamWriter.begin_logical_stream one_stream_writer 2 [7; 8; 9]%Z),
     Err WriteError.BitstreamAlreadyInitialized).
Proof.
  assert (H : StreamWriter.begin_logical_stream one_stream_writer 2 [7; 8; 9]%Z =
    (fst (StreamWriter.begin_logical_stream one_stream_writer 2 [7; 8; 9]%Z), Ok tt)).
  { unfold StreamWriter.begin_logical_stream at 1 2. cbn [existsb one_stream_writer
      stream_states new_state bitstream_serial_number Z.eqb].
    replace (MAX_PAGE_DATA_SIZE <? length [7; 8; 9]%Z) with false
      by (symmetry; apply Nat.ltb_ge; unfold MAX_PAGE_DATA_SIZE; cbn [length]; lia).
    rewrite WriterPages.push_packet_empty.
    2: reflexivity.
    2: { unfold set_header_type, new_state. cbn [data_buffer]. rewrite repeat_length.
         unfold MAX_PAGE_DATA_SIZE. cbn [length]. lia. }
    unfold set_header_type, new_state. cbn [bitstream_serial_number data_buffer data_head
      packet_sizes page_sequence_number granule_position header_type app].
    rewrite write_page_ok; cbn [data_head data_buffer bitstream_serial_number
      packet_sizes page_sequence_number granule_position header_type].
    - reflexivity.
    - constructor; [unfold MAX_PAGE_DATA_SIZE; cbn [length]; lia|constructor].
    - rewrite lacing_values_one. apply WriterPages.length_lacing_bound.
      unfold MAX_PAGE_DATA_SIZE. cbn [length]. lia.
    - unfold MAX_PAGE_DATA_SIZE. cbn [length]. lia.
    - cbn [length]. rewrite length_skipn, repeat_length.
      unfold MAX_PAGE_DATA_SIZE. lia.
    - reflexivity.
    - reflexivity. }
  split; [exact H|].
  exact (begin_logical_stream_twice_rejected one_stream_writer 2 [7; 8; 9]%Z []%Z _ H).
Defined.


(** X12. The page [write_page] emits reads back field by field: capture pattern
    [OggS], version 0, the header type, the granule position ([u64::MAX] when the
    segment table has 255 entries), serial, sequence number, segment count, segment
    table and payload are those written, and the stored CRC matches the page. *)
Theorem page_bytes_fields :
  forall ht g serial seq table data,
    (0 <= g <= U64_MAX)%Z -> (0 <= serial <= U32_MAX)%Z -> (0 <= seq <= U32_MAX)%Z ->
    let page := page_bytes ht g serial seq table data in
    firstn 4 page = PAGER_MARKER /\ page_version page = 0%Z /\
    page_header_type page = ht /\
    page_granule page = (if (Z.of_nat (length table) =? 255)%Z then U64_MAX else g) /\
    page_serial page = serial /\ page_sequence page = seq /\
    page_segment_count page = Z.of_nat (length table) /\
    page_segment_table page = table /\
    skipn (27 + length table) page = data /\
    crc_valid page = true.
Proof.
  intros ht g serial seq table data Hg Hs Hq page.
  assert (Hg' : (0 <= (if (Z.of_nat (length table) =? 255)%Z then U64_MAX else g) <= U64_MAX)%Z)
    by (destruct (_ =? _)%Z; unfold U64_MAX in *; lia).
  unfold page, page_bytes. cbv zeta.
  repeat match goal with |- _ /\ _ => split end.
  - reflexivity.
  - reflexivity.
  - apply WriterPages.assemble_page_header_type.
  - apply WriterPages.assemble_page_granule. exact Hg'.
  - apply page_serial_assemble_page. exact Hs.
  - apply page_sequence_assemble_page. exact Hq.
  - apply WriterPages.assemble_page_segment_count.
  - apply WriterPages.assemble_page_segment_table.
  - apply payload_assemble_page.
  - apply page_bytes_crc_valid.
Qed.

Lemma page_bytes_fields_witness :
  firstn 4 (page_bytes 2 5 1 0 [3]%Z [1; 2; 3]%Z) = PAGER_MARKER /\ page_version (page_bytes 2 5 1 0 [3]%Z [1; 2; 3]%Z) = 0%Z /\
  page_header_type (page_bytes 2 5 1 0 [3]%Z [1; 2; 3]%Z) = 2%Z /\ page_granule (page_bytes 2 5 1 0 [3]%Z [1; 2; 3]%Z) = 5%Z /\
  page_serial (page_bytes 2 5 1 0 [3]%Z [1; 2; 3]%Z) = 1%Z /\ page_sequence (page_bytes 2 5 1 0 [3]%Z [1; 2; 3]%Z) = 0%Z /\
  page_segment_count (page_bytes 2 5 1 0 [3]%Z [1; 2; 3]%Z) = 1%Z /\ page_segment_table (page_bytes 2 5 1 0 [3]%Z [1; 2; 3]%Z) = [3]%Z /\
  skipn 28 (page_bytes 2 5 1 0 [3]%Z [1; 2; 3]%Z) = [1; 2; 3]%Z /\ crc_valid (page_bytes 2 5 1 0 [3]%Z [1; 2; 3]%Z) = true.
Proof.
  exact (page_bytes_fields 2 5 1 0 [3]%Z [1; 2; 3]%Z
           ltac:(unfold U64_MAX; lia) ltac:(unfold U32_MAX; lia) ltac:(unfold U32_MAX; lia)).
Defined.

End WriterExtras.

Module ReaderExtras.
Import Reader.

Lemma read_page_data_queue :
  forall st c header table payload rest ss rs q,
    remaining c = header ++ table ++ payload ++ rest ->
    length header = 23 ->
    length table = Z.to_nat (nth 22 header 0%Z) ->
    length payload = list_sum (map Z.to_nat table) ->
    lacing_loop (27 + length table) table 0 0 (queued_packets st) = (ss, rs, q) ->
    exists st',
      read_page_data st c =
        (st', cursor_at c (position c + 23 + length table + length payload),
         Ok (27 + length table + length payload)) /\
      queued_packets st' =
        (if ss =? 0 then q
         else q ++ [{| range_start := 27 + length table + rs;
                       range_end := 27 + length table + rs + ss;
                       is_complete := false |}]) /\
      current_bitstream_serial_number st' = current_bitstream_serial_number st /\
      current_page_sequence_number st' = current_page_sequence_number st /\
      current_granule_position st' = current_granule_position st /\
      current_is_eos st' = current_is_eos st /\
      (forall i, i < 27 + length table + length payload ->
         page_buffer st' i = nth i (PAGER_MARKER ++ header ++ table ++ payload) 0%Z).
Proof.
  intros st c header table payload rest ss rs q Hr Hh Ht Hp L.
  set (b1 := buf_write (page_buffer st) 0 PAGER_MARKER).
  set (b2 := buf_write b1 4 header).
  set (b3 := buf_write b2 27 table).
  set (b4 := buf_write b3 (27 + length table) payload).
  assert (H1 : forall i, i < length PAGER_MARKER -> b1 i = nth i PAGER_MARKER 0%Z).
  { intros i Hi. apply (ReaderPages.buf_write_agree _ [] PAGER_MARKER 0 eq_refl); simpl; [lia|exact Hi]. }
  assert (H2 : forall i, i < length (PAGER_MARKER ++ header) ->
                 b2 i = nth i (PAGER_MARKER ++ header) 0%Z).
  { apply ReaderPages.buf_write_agree; [reflexivity|exact H1]. }
  assert (H3 : forall i, i < length ((PAGER_MARKER ++ header) ++ table) ->
                 b3 i = nth i ((PAGER_MARKER ++ header) ++ table) 0%Z).
  { apply ReaderPages.buf_write_agree; [rewrite length_app, Hh; reflexivity|exact H2]. }
  assert (H4 : forall i, i < length (((PAGER_MARKER ++ header) ++ table) ++ payload) ->
                 b4 i = nth i (((PAGER_MARKER ++ header) ++ table) ++ payload) 0%Z).
  { apply ReaderPages.buf_write_agree; [rewrite !length_app, Hh; reflexivity|exact H3]. }
  assert (H26 : Z.to_nat (b2 SEGMENT_COUNT_INDEX) = length table).
  { rewrite Ht. unfold SEGMENT_COUNT_INDEX. rewrite H2 by (rewrite length_app, Hh; simpl; lia).
    rewrite app_nth2 by (simpl; lia). reflexivity. }
  unfold read_page_data. fold b1. rewrite ReaderPages.read_exact_ok by (rewrite Hr, !length_app; lia).
  rewrite Hr, (ReaderPages.firstn_app_exact _ _ 23) by (symmetry; exact Hh). fold b2.
  rewrite H26.
  assert (Hr2 : remaining (cursor_at c (position c + 23)) = table ++ payload ++ rest).
  { rewrite ReaderPages.remaining_cursor_at, Hr. apply ReaderPages.skipn_app_exact. symmetry; exact Hh. }
  rewrite ReaderPages.read_exact_ok by (rewrite Hr2, !length_app; lia).
  rewrite Hr2, (ReaderPages.firstn_app_exact table _ (length table)) by reflexivity.
  change SEGMENT_TABLE_INDEX with 27. fold b3.
  rewrite (ReaderPages.buf_read_agree b3 ((PAGER_MARKER ++ header) ++ table) 27 (length table)).
  2:{ rewrite !length_app, Hh. simpl. lia. }
  2:{ intros i Hi. apply H3. rewrite !length_app, Hh. simpl. lia. }
  rewrite ReaderPages.skipn_app_exact by (rewrite length_app, Hh; reflexivity).
  rewrite firstn_all, L.
  assert (L' := L). apply ReaderPages.lacing_loop_sizes in L'. simpl in L'.
  assert (Hrs : (if ss =? 0 then rs else rs + ss) = length payload).
  { destruct (Nat.eqb_spec ss 0); lia. }
  assert (Hr3 : remaining (cursor_at (cursor_at c (position c + 23)) (position c + 23 + length table))
                = payload ++ rest).
  { change (position c + 23 + length table) with
      (position (cursor_at c (position c + 23)) + length table).
    rewrite ReaderPages.remaining_cursor_at, Hr2. apply ReaderPages.skipn_app_exact. reflexivity. }
  destruct (ss =? 0); cbv beta iota zeta;
  (replace (27 + length table + _ - (27 + length table)) with (length payload) by lia);
  (rewrite ReaderPages.read_exact_ok by (simpl; rewrite Hr3, length_app; lia));
  simpl position; rewrite Hr3, (ReaderPages.firstn_app_exact payload _ (length payload)) by reflexivity;
  rewrite <- Hrs.
  all: eexists; split; [reflexivity|].
  all: simpl; repeat split; try reflexivity.
  all: intros i Hi; fold b4; rewrite H4 by (rewrite !length_app, Hh; simpl; lia).
  all: rewrite <- !app_assoc; reflexivity.
Qed.

Lemma lacing_loop_full :
  forall k te rest ss rs q,
    lacing_loop te (repeat 255%Z k ++ rest) ss rs q = lacing_loop te rest (ss + 255 * k) rs q.
Proof.
  induction k as [|k IH]; intros te rest ss rs q.
  - simpl. rewrite Nat.add_0_r. reflexivity.
  - cbn [repeat app lacing_loop]. change (Z.to_nat 255 =? 255) with true. cbv iota.
    rewrite IH. f_equal. lia.
Qed.

Lemma lacing_loop_last :
  forall te r ss rs q, 0 < r < 255 ->
    lacing_loop te [Z.of_nat r] ss rs q =
      (0, rs + (ss + r),
       q ++ [{| range_start := te + rs; range_end := te + rs + (ss + r); is_complete := true |}]).
Proof.
  intros te r ss rs q Hr. cbn [lacing_loop]. rewrite Nat2Z.id.
  replace (r =? 255) with false by (symmetry; apply Nat.eqb_neq; lia). reflexivity.
Qed.

Lemma lacing_loop_one_packet :
  forall te size q, size mod 255 <> 0 ->
    lacing_loop te (lacing size) 0 0 q =
      (0, size, q ++ [{| range_start := te; range_end := te + size; is_complete := true |}]).
Proof.
  intros te size q Hm. unfold lacing.
  replace (0 <? size mod 255) with true by (symmetry; apply Nat.ltb_lt; lia).
  rewrite lacing_loop_full, lacing_loop_last
    by (pose proof (Nat.mod_upper_bound size 255); lia).
  rewrite !Nat.add_0_l, !Nat.add_0_r.
  replace (255 * (size / 255) + size mod 255) with size
    by (apply Nat.div_mod; lia).
  reflexivity.
Qed.

Lemma list_sum_lacing : forall size, list_sum (map Z.to_nat (lacing size)) = size.
Proof.
  intros size. unfold lacing. rewrite map_app, list_sum_app.
  assert (Hk : forall k, list_sum (map Z.to_nat (repeat 255%Z k)) = 255 * k).
  { induction k as [|k IH]; [reflexivity|].
    change (list_sum (map Z.to_nat (repeat 255%Z (S k))))
      with (255 + list_sum (map Z.to_nat (repeat 255%Z k))).
    rewrite IH. lia. }
  rewrite Hk. pose proof (Nat.div_mod size 255 ltac:(lia)).
  destruct (Nat.ltb_spec 0 (size mod 255)); cbn [map list_sum fold_right]; rewrite ?Nat2Z.id; lia.
Qed.


Lemma cursor_at_position : forall c, cursor_at c (position c) = c.
Proof. intros [i p]. reflexivity. Qed.

Lemma cursor_at_cursor_at : forall c p q, cursor_at (cursor_at c p) q = cursor_at c q.
Proof. reflexivity. Qed.

Lemma Forall_firstn_skipn :
  forall (P : Z -> Prop) n l, Forall P l -> Forall P (firstn n l) /\ Forall P (skipn n l).
Proof. intros P n l H. rewrite <- (firstn_skipn n l) in H. apply Forall_app in H. exact H. Qed.

Lemma read_exact_one :
  forall c b r, remaining c = b :: r ->
    read_exact c 1 = (cursor_at c (position c + 1), Ok [b]).
Proof.
  intros c b r H. rewrite ReaderPages.read_exact_ok by (rewrite H; simpl; lia).
  rewrite H. reflexivity.
Qed.

Lemma resync_junk :
  forall junk fuel c r,
    Forall (fun b => b <> 79%Z) junk -> remaining c = junk ++ r -> length junk <= fuel ->
    resync fuel 0 c = resync (fuel - length junk) 0 (cursor_at c (position c + length junk)).
Proof.
  induction junk as [|b junk IH]; intros fuel c r Hj Hr Hf.
  - rewrite Nat.sub_0_r, Nat.add_0_r, cursor_at_position. reflexivity.
  - inversion Hj as [|? ? Hb Hj']; subst.
    destruct fuel as [|fuel]; [simpl in Hf; lia|].
    cbn [resync Nat.eqb]. rewrite (read_exact_one c b (junk ++ r)) by exact Hr.
    cbv beta iota. unfold marker_step. cbn [nth PAGER_MARKER].
    replace (b =? 79)%Z with false by (symmetry; apply Z.eqb_neq; exact Hb).
    rewrite (IH fuel (cursor_at c (position c + 1)) r Hj').
    + rewrite cursor_at_cursor_at. cbn [position cursor_at length].
      replace (position c + 1 + length junk) with (position c + S (length junk)) by lia.
      reflexivity.
    + rewrite ReaderPages.remaining_cursor_at, Hr. reflexivity.
    + simpl in Hf. lia.
Qed.

Lemma skipn_marker_cons :
  forall m, m < 4 ->
    skipn m PAGER_MARKER = nth m PAGER_MARKER 0%Z :: skipn (S m) PAGER_MARKER.
Proof. intros m Hm. do 4 (destruct m as [|m]; [reflexivity|]). lia. Qed.

Lemma marker_step_next :
  forall m, m < 4 -> marker_step m (nth m PAGER_MARKER 0%Z) = S m.
Proof. intros m Hm. do 4 (destruct m as [|m]; [reflexivity|]). lia. Qed.

Lemma resync_marker :
  forall fuel m c r,
    m <= 4 -> remaining c = skipn m PAGER_MARKER ++ r -> 4 - m < fuel ->
    resync fuel m c = (cursor_at c (position c + (4 - m)), Ok tt).
Proof.
  induction fuel as [|fuel IH]; intros m c r Hm Hr Hf; [lia|].
  cbn [resync]. destruct (Nat.eqb_spec m 4) as [->|Hm4].
  - rewrite Nat.sub_diag, Nat.add_0_r, cursor_at_position. reflexivity.
  - rewrite skipn_marker_cons in Hr by lia. cbn [app] in Hr.
    rewrite (read_exact_one c _ _ Hr). cbv beta iota. cbn [nth].
    rewrite marker_step_next by lia.
    rewrite (IH (S m) (cursor_at c (position c + 1)) r).
    + rewrite cursor_at_cursor_at. cbn [position cursor_at].
      f_equal. f_equal. lia.
    + lia.
    + rewrite ReaderPages.remaining_cursor_at, Hr. reflexivity.
    + lia.
Qed.

Lemma fold_marker_junk :
  forall junk m, Forall (fun b => b <> 79%Z) junk ->
    fold_left marker_step junk 0 = 0 /\
    (m <= 4 -> fold_left marker_step (junk ++ firstn m PAGER_MARKER) 0 = m).
Proof.
  intros junk m Hj.
  assert (H0 : fold_left marker_step junk 0 = 0).
  { induction Hj as [|b junk Hb _ IH]; [reflexivity|].
    cbn [fold_left]. unfold marker_step at 2. cbn [nth PAGER_MARKER].
    replace (b =? 79)%Z with false by (symmetry; apply Z.eqb_neq; exact Hb). exact IH. }
  split; [exact H0|]. intros Hm. rewrite fold_left_app, H0.
  do 5 (destruct m as [|m]; [reflexivity|]). lia.
Qed.

Lemma resync_eof :
  forall fuel c, 0 < fuel -> remaining c = [] ->
    resync fuel 0 c = (cursor_at c (length (inner c)), Err ReadError.IoError).
Proof.
  intros fuel c Hf Hr. destruct fuel as [|fuel]; [lia|]. cbn [resync Nat.eqb].
  unfold read_exact. unfold remaining in Hr.
  assert (Hl : length (inner c) <= position c).
  { pose proof (length_skipn (position c) (inner c)) as E. rewrite Hr in E. simpl in E. lia. }
  replace (position c + 1 <=? length (inner c)) with false
    by (symmetry; apply Nat.leb_gt; lia).
  reflexivity.
Qed.

Lemma sync_skips_junk :
  forall c junk r,
    remaining c = junk ++ PAGER_MARKER ++ r ->
    Forall (fun b => b <> 79%Z) junk -> length junk < MAX_PAGE_SIZE ->
    sync_with_next_page c = (cursor_at c (position c + length junk + 4), Ok tt).
Proof.
  intros c junk r Hr Hj Hl.
  destruct junk as [|b0 junk0] eqn:EJ.
  { rewrite (ReaderPages.sync_marker c r Hr). cbn [length]. rewrite Nat.add_0_r. reflexivity. }
  rewrite <- EJ in *.
  assert (Hb0 : b0 <> 79%Z) by (subst junk; inversion Hj; assumption).
  unfold sync_with_next_page.
  rewrite ReaderPages.read_exact_ok by (rewrite Hr, !length_app; cbn [length PAGER_MARKER]; lia).
  assert (Hne : firstn 4 (remaining c) <> PAGER_MARKER).
  { rewrite Hr, EJ. cbn [app]. destruct (firstn_cons 3 b0 (junk0 ++ PAGER_MARKER ++ r)).
    cbn [firstn]. intros E. injection E as E _. contradiction. }
  destruct (list_eq_dec Z.eq_dec (firstn 4 (remaining c)) PAGER_MARKER) as [E|_];
    [contradiction|].
  destruct (Nat.le_gt_cases 4 (length junk)) as [H4|H4].
  - rewrite Hr, firstn_app, (proj2 (Nat.sub_0_le _ _) H4), firstn_O, app_nil_r.
    assert (Hj4 : Forall (fun b => b <> 79%Z) (firstn 4 junk))
      by (apply (Forall_firstn_skipn _ 4 junk); exact Hj).
    rewrite (proj1 (fold_marker_junk _ 0 Hj4)).
    set (c1 := cursor_at c (position c + 4)).
    assert (Hr1 : remaining c1 = skipn 4 junk ++ PAGER_MARKER ++ r).
    { unfold c1. rewrite ReaderPages.remaining_cursor_at, Hr, skipn_app.
      rewrite (proj2 (Nat.sub_0_le _ _) H4). reflexivity. }
    assert (Hj' : Forall (fun b => b <> 79%Z) (skipn 4 junk)) by (apply (Forall_firstn_skipn _ 4 junk); exact Hj).
    rewrite (resync_junk (skipn 4 junk) MAX_PAGE_SIZE c1 (PAGER_MARKER ++ r) Hj' Hr1)
      by (rewrite length_skipn; lia).
    rewrite (resync_marker _ 0 _ r).
    2: lia.
    2: { rewrite ReaderPages.remaining_cursor_at, Hr1. apply ReaderPages.skipn_app_exact.
         reflexivity. }
    2: { rewrite length_skipn. unfold MAX_PAGE_SIZE, MAX_PAGE_HEADER_SIZE,
         MAX_PAGE_DATA_SIZE in *. lia. }
    unfold c1. rewrite !cursor_at_cursor_at. cbn [position cursor_at].
    rewrite length_skipn. f_equal. f_equal. lia.
  - rewrite Hr, firstn_app.
    replace (firstn (4 - length junk) (PAGER_MARKER ++ r)) with (firstn (4 - length junk) PAGER_MARKER)
      by (rewrite firstn_app; cbn [length PAGER_MARKER];
          replace (4 - length junk - 4) with 0 by lia; rewrite firstn_O, app_nil_r; reflexivity).
    rewrite firstn_all2 by lia.
    rewrite (proj2 (fold_marker_junk junk (4 - length junk) Hj)) by lia.
    rewrite (resync_marker _ (4 - length junk) _ r).
    + rewrite cursor_at_cursor_at. cbn [position cursor_at]. f_equal. f_equal. lia.
    + lia.
    + rewrite ReaderPages.remaining_cursor_at, Hr.
      replace 4 with ((4 - length junk) + length junk) at 1 by lia.
      rewrite <- skipn_skipn, (ReaderPages.skipn_app_exact junk _ (length junk)) by reflexivity.
      rewrite skipn_app. cbn [length PAGER_MARKER].
      replace (4 - length junk - 4) with 0 by lia. reflexivity.
    + unfold MAX_PAGE_SIZE, MAX_PAGE_HEADER_SIZE, MAX_PAGE_DATA_SIZE in *. lia.
Qed.

(** X13. [next_packet] with an empty queue skips bytes before a page (fewer than
    [MAX_PAGE_SIZE], none of them the byte ['O']) and decodes a one-packet page as
    the writer emits it (the packet's size not a multiple of 255): the packet comes back with
    its bytes, the page's serial and granule position, and the BOS flag of the header
    type; its EOS flag stays false even on an EOS page, whose flag is only recorded in
    [current_is_eos]. The cursor ends just past the page, the queue is empty again
    and the current page sequence number is not updated. *)
Theorem next_packet_reads_written_page :
  forall st packet c junk ht g serial seq payload rest,
    queued_packets st = [] ->
    remaining c = junk ++ page_bytes ht g serial seq (lacing (length payload)) payload ++ rest ->
    Forall (fun b => b <> 79%Z) junk -> length junk < MAX_PAGE_SIZE ->
    length payload <= MAX_PAGE_DATA_SIZE -> length payload mod 255 <> 0 ->
    (0 <= g <= U64_MAX)%Z -> (0 <= serial <= U32_MAX)%Z ->
    let g' := if (Z.of_nat (length (lacing (length payload))) =? 255)%Z then U64_MAX else g in
    exists st',
      next_packet st packet c =
        (st', {| data := payload; bitstream_serial_number := serial; granule_position := g';
                 is_bos := (Z.shiftr (Z.land ht BOS_VALUE) 1 =? 1)%Z; is_eos := false |},
         cursor_at c (position c + length junk +
           length (page_bytes ht g serial seq (lacing (length payload)) payload)),
         Ok ReadStatus.Ok) /\
      queued_packets st' = [] /\
      current_bitstream_serial_number st' = serial /\
      current_granule_position st' = g' /\
      current_page_sequence_number st' = current_page_sequence_number st /\
      current_is_eos st' = (Z.shiftr (Z.land ht EOS_VALUE) 2 =? 1)%Z.
Proof.
  intros st packet c junk ht g serial seq payload rest Hq Hr Hj Hjl HL Hm Hg Hs g'.
  set (table := lacing (length payload)) in *.
  set (cnt := Z.of_nat (length table)).
  set (crc := crc32 (Writer.assemble_page ht g' serial seq 0 cnt table payload)).
  set (header := [0%Z; ht] ++ le_bytes 8 g' ++ le_bytes 4 serial ++ le_bytes 4 seq
                   ++ le_bytes 4 crc ++ [cnt]).
  assert (Hpage : page_bytes ht g serial seq table payload = PAGER_MARKER ++ header ++ table ++ payload).
  { unfold page_bytes, header, Writer.assemble_page. rewrite <- !app_assoc. reflexivity. }
  assert (Hh : length header = 23).
  { unfold header. rewrite !length_app, !WriterPages.length_le_bytes. reflexivity. }
  assert (Ht : length table = Z.to_nat (nth 22 header 0%Z)).
  { unfold header. cbn [le_bytes app nth]. unfold cnt. rewrite Nat2Z.id. reflexivity. }
  assert (Hp : length payload = list_sum (map Z.to_nat table)).
  { unfold table. rewrite list_sum_lacing. reflexivity. }
  assert (Hlen : length (PAGER_MARKER ++ header ++ table ++ payload)
                 = 27 + length table + length payload).
  { rewrite !length_app, Hh. reflexivity. }
  assert (Hg' : (0 <= g' <= U64_MAX)%Z).
  { unfold g'. destruct (_ =? _)%Z; unfold U64_MAX in *; lia. }
  rewrite Hpage in Hr |- *.
  unfold next_packet. rewrite Hq. cbv beta iota zeta. cbn [next_packet_loop].
  rewrite (sync_skips_junk c junk (header ++ table ++ payload ++ rest))
    by (first [exact Hj | exact Hjl | rewrite Hr; rewrite <- !app_assoc; reflexivity]).
  replace (position c + length junk + 4) with (position c + (length junk + 4)) by lia.
  destruct (read_page_data_queue st (cursor_at c (position c + (length junk + 4))) header table payload rest
              0 (length payload)
              [{| range_start := 27 + length table; range_end := 27 + length table + length payload;
                  is_complete := true |}])
    as (st1 & Hrd & Hq1 & E1 & E2 & E3 & E4 & Hb); auto.
  { rewrite ReaderPages.remaining_cursor_at, Hr, (Nat.add_comm (length junk) 4), <- skipn_skipn.
    rewrite (ReaderPages.skipn_app_exact junk _ (length junk)) by reflexivity.
    rewrite <- !app_assoc. apply ReaderPages.skipn_app_exact. reflexivity. }
  { rewrite Hq. unfold table. apply lacing_loop_one_packet. exact Hm. }
  rewrite Hrd. rewrite <- Hlen in Hb |- *.
  rewrite ReaderPages.verify_crc32_spec by (first [rewrite Hlen; lia | exact Hb]).
  set (P := PAGER_MARKER ++ header ++ table ++ payload) in *.
  set (P0 := Writer.assemble_page ht g' serial seq 0 cnt table payload).
  assert (HzP : zero_crc P = P0).
  { rewrite <- Hpage. unfold page_bytes. cbv zeta.
    apply WriterExtras.zero_crc_assemble_page. }
  assert (Hcrc : (stored_crc P =? crc32 (zero_crc P))%Z = true).
  { rewrite <- Hpage. apply WriterExtras.page_bytes_crc_valid. }
  rewrite Hcrc. cbv beta iota zeta. cbn [negb].
  set (b2 := buf_write (page_buffer st1) 22 [0; 0; 0; 0]%Z).
  change (page_buffer (set_page_buffer st1 b2)) with b2.
  assert (HlP0 : length P0 = length P).
  { rewrite <- HzP. apply ReaderPages.length_zero_crc. rewrite Hlen. lia. }
  assert (Hb2 : forall i, i < length P -> b2 i = nth i P0 0%Z).
  { intros i Hi. rewrite <- HzP. apply ReaderPages.zero_crc_agree; auto. rewrite Hlen. lia. }
  assert (Hv : b2 VERSION_INDEX = 0%Z).
  { rewrite Hb2 by (unfold VERSION_INDEX; rewrite Hlen; lia). reflexivity. }
  assert (Hht : b2 HEADER_TYPE_INDEX = ht).
  { rewrite Hb2 by (unfold HEADER_TYPE_INDEX; rewrite Hlen; lia).
    exact (WriterPages.assemble_page_header_type ht g' serial seq 0 cnt table payload). }
  assert (HG : parse_u64_le (buf_read b2 6 14) = g').
  { change 14 with (6 + 8).
    rewrite (ReaderPages.buf_read_agree b2 P0 6 8)
      by (first [rewrite HlP0, Hlen; lia | intros i Hi; apply Hb2; rewrite Hlen; lia]).
    unfold parse_u64_le. rewrite firstn_firstn. cbn [Nat.min].
    exact (WriterPages.assemble_page_granule ht g' serial seq 0 cnt table payload Hg'). }
  assert (HS : parse_u32_le (buf_read b2 14 18) = serial).
  { change 18 with (14 + 4).
    rewrite (ReaderPages.buf_read_agree b2 P0 14 4)
      by (first [rewrite HlP0, Hlen; lia | intros i Hi; apply Hb2; rewrite Hlen; lia]).
    unfold parse_u32_le. rewrite firstn_firstn. cbn [Nat.min].
    exact (WriterExtras.page_serial_assemble_page ht g' serial seq 0 cnt table payload Hs). }
  assert (HD : buf_read b2 (27 + length table) (27 + length table + length payload) = payload).
  { rewrite (ReaderPages.buf_read_agree b2 P0 (27 + length table) (length payload))
      by (first [rewrite HlP0, Hlen; lia | intros i Hi; apply Hb2; rewrite Hlen; lia]).
    unfold P0, cnt. rewrite WriterExtras.payload_assemble_page. apply firstn_all. }
  rewrite Hv, Hht, HG, HS. cbn [Z.eqb negb data set_data].
  cbn [Nat.eqb] in Hq1.
  change (queued_packets (set_current (set_page_buffer st1 b2) serial g'
            (Z.shiftr (Z.land ht EOS_VALUE) 2 =? 1)%Z)) with (queued_packets st1).
  rewrite Hq1. cbv beta iota zeta. rewrite andb_false_r. cbn [is_complete negb].
  set (bos := (Z.shiftr (Z.land ht BOS_VALUE) 1 =? 1)%Z).
  set (eos := (Z.shiftr (Z.land ht EOS_VALUE) 2 =? 1)%Z).
  set (st3 := set_queued_packets (set_current (set_page_buffer st1 b2) serial g' eos) []).
  assert (HX : (if bos
                then set_bos (write_frame st3 (set_data packet [])
                       {| range_start := 27 + length table;
                          range_end := 27 + length table + length payload;
                          is_complete := true |})
                else write_frame st3 (set_data packet [])
                       {| range_start := 27 + length table;
                          range_end := 27 + length table + length payload;
                          is_complete := true |}) =
               {| data := payload; bitstream_serial_number := serial; granule_position := g';
                  is_bos := bos; is_eos := false |}).
  { change (page_buffer st3) with b2 in *.
    unfold write_frame. cbn [data set_data range_start range_end].
    change (page_buffer st3) with b2. rewrite HD.
    destruct bos; reflexivity. }
  rewrite HX. exists st3. split; [|repeat split; reflexivity || (unfold st3; cbn; auto)].
  unfold cursor_at at 1 3. cbn [position inner].
  replace (position c + (length junk + 4) + 23 + length table + length payload)
    with (position c + length junk + length P)
    by (rewrite Hlen; lia).
  reflexivity.
Qed.


(** X15. [next_packet] with an empty queue reports [Eof] (not an error) when no page
    can start in the rest of the input: fewer than four bytes are left, or the bytes
    left hold no ['O'] and are fewer than [4 + MAX_PAGE_SIZE]. The output packet's
    data is cleared, the reader is unchanged and the cursor is at the end. *)
Theorem next_packet_eof_without_page :
  forall st packet c,
    queued_packets st = [] ->
    length (remaining c) < 4 \/
    (Forall (fun b => b <> 79%Z) (remaining c) /\ length (remaining c) < 4 + MAX_PAGE_SIZE) ->
    next_packet st packet c =
      (st, set_data packet [], cursor_at c (length (inner c)), Ok ReadStatus.Eof).
Proof.
  intros st packet c Hq Hrem. unfold next_packet. rewrite Hq. cbv beta iota zeta.
  cbn [next_packet_loop].
  assert (Hlr : length (remaining c) = length (inner c) - position c)
    by (unfold remaining; apply length_skipn).
  destruct (Nat.ltb_spec (length (remaining c)) 4) as [H4|H4].
  - unfold sync_with_next_page, read_exact.
    replace (position c + 4 <=? length (inner c)) with false
      by (symmetry; apply Nat.leb_gt; lia).
    reflexivity.
  - destruct Hrem as [H|[Hj Hl]]; [lia|].
    unfold sync_with_next_page.
    rewrite ReaderPages.read_exact_ok by exact H4.
    destruct (remaining c) as [|b0 r0] eqn:ER; [cbn [length] in H4; lia|].
    assert (Hb0 : b0 <> 79%Z) by (inversion Hj; assumption).
    destruct (list_eq_dec Z.eq_dec (firstn 4 (b0 :: r0)) PAGER_MARKER) as [E|_].
    { cbn [firstn] in E. injection E as E. contradiction. }
    rewrite (proj1 (fold_marker_junk _ 0 (proj1 (Forall_firstn_skipn _ 4 _ Hj)))).
    set (c1 := cursor_at c (position c + 4)).
    assert (Hr1 : remaining c1 = skipn 4 (b0 :: r0) ++ []).
    { unfold c1. rewrite ReaderPages.remaining_cursor_at, ER, app_nil_r. reflexivity. }
    rewrite (resync_junk _ MAX_PAGE_SIZE c1 [] (proj2 (Forall_firstn_skipn _ 4 _ Hj)) Hr1)
      by (rewrite length_skipn; cbn [length] in *; lia).
    rewrite resync_eof.
    + reflexivity.
    + rewrite length_skipn. cbn [length] in *. lia.
    + rewrite ReaderPages.remaining_cursor_at, Hr1, app_nil_r, skipn_all. reflexivity.
Qed.

Lemma next_packet_eof_without_page_witness :
  next_packet default_reader default_packet {| inner := [79; 103]%Z; position := 0 |} =
    (default_reader, set_data default_packet [],
     cursor_at {| inner := [79; 103]%Z; position := 0 |} 2, Ok ReadStatus.Eof).
Proof.
  apply (next_packet_eof_without_page default_reader default_packet
           {| inner := [79; 103]%Z; position := 0 |}).
  - reflexivity.
  - left. cbn. lia.
Defined.

(** X16. [next_packet] with an empty queue gives up with [UnableToSync] when the next
    [4 + MAX_PAGE_SIZE] bytes hold no ['O']: the error is returned, not turned into
    [Eof], the reader is unchanged and the cursor is just past those bytes. *)
Theorem next_packet_unable_to_sync :
  forall st packet c junk r,
    queued_packets st = [] ->
    remaining c = junk ++ r ->
    Forall (fun b => b <> 79%Z) junk -> length junk = 4 + MAX_PAGE_SIZE ->
    next_packet st packet c =
      (st, set_data packet [], cursor_at c (position c + length junk),
       Err ReadError.UnableToSync).
Proof.
  intros st packet c junk r Hq Hr Hj Hl. unfold next_packet. rewrite Hq. cbv beta iota zeta.
  cbn [next_packet_loop]. unfold sync_with_next_page.
  rewrite ReaderPages.read_exact_ok by (rewrite Hr, length_app; lia).
  destruct junk as [|b0 j0] eqn:EJ; [cbn [length] in Hl; lia|].
  rewrite <- EJ in *.
  assert (Hb0 : b0 <> 79%Z) by (subst junk; inversion Hj; assumption).
  assert (Hf4 : firstn 4 (remaining c) = firstn 4 junk).
  { rewrite Hr, firstn_app. replace (4 - length junk) with 0 by lia.
    rewrite firstn_O, app_nil_r. reflexivity. }
  rewrite Hf4.
  destruct (list_eq_dec Z.eq_dec (firstn 4 junk) PAGER_MARKER) as [E|_].
  { subst junk. cbn [firstn] in E. injection E as E. contradiction. }
  rewrite (proj1 (fold_marker_junk _ 0 (proj1 (Forall_firstn_skipn _ 4 _ Hj)))).
  set (c1 := cursor_at c (position c + 4)).
  assert (Hr1 : remaining c1 = skipn 4 junk ++ r).
  { unfold c1. rewrite ReaderPages.remaining_cursor_at, Hr, skipn_app.
    replace (4 - length junk) with 0 by lia. reflexivity. }
  rewrite (resync_junk _ MAX_PAGE_SIZE c1 r (proj2 (Forall_firstn_skipn _ 4 _ Hj)) Hr1)
    by (rewrite length_skipn; lia).
  rewrite length_skipn. replace (MAX_PAGE_SIZE - (length junk - 4)) with 0 by lia.
  cbn [resync handle_eof]. unfold c1. rewrite cursor_at_cursor_at. cbn [position cursor_at].
  replace (position c + 4 + (length junk - 4)) with (position c + length junk) by lia.
  reflexivity.
Qed.

Lemma next_packet_unable_to_sync_witness :
  next_packet default_reader default_packet
    {| inner := repeat 0%Z (4 + MAX_PAGE_SIZE); position := 0 |} =
    (default_reader, set_data default_packet [],
     cursor_at {| inner := repeat 0%Z (4 + MAX_PAGE_SIZE); position := 0 |}
       (0 + length (repeat 0%Z (4 + MAX_PAGE_SIZE))),
     Err ReadError.UnableToSync).
Proof.
  apply (next_packet_unable_to_sync default_reader default_packet
           {| inner := repeat 0%Z (4 + MAX_PAGE_SIZE); position := 0 |}
           (repeat 0%Z (4 + MAX_PAGE_SIZE)) []).
  - reflexivity.
  - unfold remaining. cbn [skipn inner position]. symmetry. apply app_nil_r.
  - apply Forall_forall. intros x Hx. apply repeat_spec in Hx. subst x. discriminate.
  - apply repeat_length.
Defined.


(** X17. [next_packet] with an empty queue rejects a page with a valid CRC whose
    version byte is not 0 with [UnhandledBitstreamVersion] of that byte, the cursor
    just past the page. The reader's current serial, granule position and EOS flag
    are not updated, but the page's packets stay queued: its complete packets are
    in the queue the next call serves from. *)
Theorem next_packet_unhandled_version :
  forall st packet c header table payload rest ss rs q,
    let page := PAGER_MARKER ++ header ++ table ++ payload in
    queued_packets st = [] ->
    remaining c = page ++ rest ->
    length header = 23 ->
    length table = Z.to_nat (nth 22 header 0%Z) ->
    length payload = list_sum (map Z.to_nat table) ->
    stored_crc page = crc32 (zero_crc page) ->
    nth 0 header 0%Z <> 0%Z ->
    lacing_loop (27 + length table) table 0 0 [] = (ss, rs, q) ->
    exists st',
      next_packet st packet c =
        (st', set_data packet [], cursor_at c (position c + length page),
         Err (ReadError.UnhandledBitstreamVersion (nth 0 header 0%Z))) /\
      queued_packets st' =
        (if ss =? 0 then q
         else q ++ [{| range_start := 27 + length table + rs;
                       range_end := 27 + length table + rs + ss;
                       is_complete := false |}]) /\
      current_bitstream_serial_number st' = current_bitstream_serial_number st /\
      current_granule_position st' = current_granule_position st /\
      current_is_eos st' = current_is_eos st.
Proof.
  intros st packet c header table payload rest ss rs q page Hq Hr Hh Ht Hp Hcrc Hv L.
  assert (Hlen : length page = 27 + length table + length payload).
  { unfold page. rewrite !length_app, Hh. reflexivity. }
  unfold next_packet. rewrite Hq. cbv beta iota zeta. cbn [next_packet_loop].
  rewrite (ReaderPages.sync_marker c (header ++ table ++ payload ++ rest))
    by (rewrite Hr; unfold page; rewrite <- !app_assoc; reflexivity).
  rewrite <- Hq in L.
  destruct (read_page_data_queue st (cursor_at c (position c + 4)) header table payload rest
              ss rs q) as (st1 & Hrd & Hq1 & E1 & E2 & E3 & E4 & Hb); auto.
  { rewrite ReaderPages.remaining_cursor_at, Hr. unfold page. rewrite <- !app_assoc.
    apply ReaderPages.skipn_app_exact. reflexivity. }
  rewrite Hrd. rewrite <- Hlen in Hb |- *.
  rewrite ReaderPages.verify_crc32_spec by (first [rewrite Hlen; lia | exact Hb]).
  replace (stored_crc page =? crc32 (zero_crc page))%Z with true
    by (symmetry; apply Z.eqb_eq; exact Hcrc).
  cbv beta iota zeta. cbn [negb].
  set (b2 := buf_write (page_buffer st1) 22 [0; 0; 0; 0]%Z).
  change (page_buffer (set_page_buffer st1 b2)) with b2.
  assert (Hv2 : b2 VERSION_INDEX = nth 0 header 0%Z).
  { unfold b2, buf_write, VERSION_INDEX. cbn [Nat.leb andb].
    rewrite Hb by (rewrite Hlen; lia). unfold PAGER_MARKER. cbn [app nth].
    rewrite app_nth1 by lia. reflexivity. }
  rewrite Hv2.
  replace (negb (nth 0 header 0 =? 0)%Z) with true
    by (symmetry; apply negb_true_iff, Z.eqb_neq; exact Hv).
  exists (set_page_buffer st1 b2). split.
  - unfold cursor_at at 1 3. cbn [position inner].
    replace (position c + 4 + 23 + length table + length payload) with (position c + length page)
      by lia.
    reflexivity.
  - cbn. auto.
Qed.


Lemma next_packet_unhandled_version_witness :
  exists st',
    next_packet default_reader default_packet
      {| inner := [79; 103; 103; 83; 1; 0; 0; 0; 0; 0; 0; 0; 0; 0; 1; 0; 0; 0; 0; 0; 0; 0;
                   211; 100; 213; 225; 1; 2; 5; 6]%Z; position := 0 |} =
      (st', set_data default_packet [],
       cursor_at {| inner := [79; 103; 103; 83; 1; 0; 0; 0; 0; 0; 0; 0; 0; 0; 1; 0; 0; 0; 0;
                              0; 0; 0; 211; 100; 213; 225; 1; 2; 5; 6]%Z; position := 0 |} 30,
       Err (ReadError.UnhandledBitstreamVersion 1%Z)) /\
    queued_packets st' = [{| range_start := 28; range_end := 30; is_complete := true |}] /\
    current_bitstream_serial_number st' = 0%Z /\
    current_granule_position st' = 0%Z /\
    current_is_eos st' = false.
Proof.
  exact (next_packet_unhandled_version default_reader default_packet
           {| inner := [79; 103; 103; 83; 1; 0; 0; 0; 0; 0; 0; 0; 0; 0; 1; 0; 0; 0; 0; 0; 0; 0;
                        211; 100; 213; 225; 1; 2; 5; 6]%Z; position := 0 |}
           [1; 0; 0; 0; 0; 0; 0; 0; 0; 0; 1; 0; 0; 0; 0; 0; 0; 0; 211; 100; 213; 225; 1]%Z
           [2]%Z [5; 6]%Z [] 0 2
           [{| range_start := 28; range_end := 30; is_complete := true |}]
           eq_refl eq_refl eq_refl eq_refl eq_refl eq_refl
           ltac:(discriminate) eq_refl).
Defined.

Lemma next_packet_reads_written_page_witness :
  exists st',
    next_packet default_reader default_packet
      {| inner := page_bytes 2 5 1 0 (lacing 3) [1; 2; 3]%Z; position := 0 |} =
      (st', {| data := [1; 2; 3]%Z; bitstream_serial_number := 1%Z; granule_position := 5%Z;
               is_bos := true; is_eos := false |},
       cursor_at {| inner := page_bytes 2 5 1 0 (lacing 3) [1; 2; 3]%Z; position := 0 |}
         (0 + length (@nil Z) + length (page_bytes 2 5 1 0 (lacing 3) [1; 2; 3]%Z)),
       Ok ReadStatus.Ok) /\
    queued_packets st' = [] /\
    current_bitstream_serial_number st' = 1%Z /\
    current_granule_position st' = 5%Z /\
    current_page_sequence_number st' = 0%Z /\
    current_is_eos st' = false.
Proof.
  apply (next_packet_reads_written_page default_reader default_packet
           {| inner := page_bytes 2 5 1 0 (lacing 3) [1; 2; 3]%Z; position := 0 |}
           [] 2 5 1 0 [1; 2; 3]%Z []).
  - reflexivity.
  - unfold remaining. cbn [skipn inner position app]. rewrite app_nil_r. reflexivity.
  - constructor.
  - cbn [length]. unfold MAX_PAGE_SIZE, MAX_PAGE_HEADER_SIZE, MAX_PAGE_DATA_SIZE. lia.
  - cbn [length]. unfold MAX_PAGE_DATA_SIZE. lia.
  - discriminate.
  - unfold U64_MAX. lia.
  - unfold U32_MAX. lia.
Defined.


Section ReaderKeeps.
Variable P : BitStreamReader -> Prop.
Hypothesis P_buffer : forall st b, P st -> P (set_page_buffer st b).

Lemma probe_page_keeps :
  forall st c s st' c' r, probe_page st c s = (st', c', r) -> P st -> P st'.
Proof.
  intros st c s st' c' r H Hp. unfold probe_page in H.
  destruct (read_exact (seek_start c s) 27) as [c1 [h|e|p]];
    [| inversion H; subst; auto ..].
  cbv zeta in H.
  match type of H with context [read_exact c1 ?n] => destruct (read_exact c1 n) as [c2 [t|e|p]] end;
    [| inversion H; subst; auto ..].
  match type of H with context [u64_add s ?n] => destruct (u64_add s n) end;
    inversion H; subst; auto.
Qed.

Lemma search_loop_keeps :
  forall fuel st c serial ss ps st' c' r,
    search_loop fuel st c serial ss ps = Some (st', c', r) -> P st -> P st'.
Proof.
  induction fuel as [|fuel IH]; intros st c serial ss ps st' c' r H Hp; [discriminate|].
  cbn [search_loop] in H. destruct (read c 64) as [c1 chunk].
  destruct chunk as [|b bs]; [inversion H; subst; auto|].
  destruct (scan_chunk (b :: bs) 0 0) as [i|].
  - destruct (bind (u64_sub ss 4) (fun s => u64_add s (Z.of_nat i))) as [s|e|p];
      [| inversion H; subst; auto ..].
    destruct (probe_page st c1 s) as [[st1 c2] [page|e|p]] eqn:Hpr;
      apply probe_page_keeps in Hpr; auto; [| inversion H; subst; auto ..].
    destruct (negb _); [eapply IH; eauto|].
    destruct (_ =? U64_MAX)%Z; [eapply IH; eauto|]. inversion H; subst; auto.
  - destruct (u64_add ss (64 - 3)) as [s|e|p]; [eapply IH; eauto | inversion H; subst; auto ..].
Qed.

Lemma linear_loop_keeps :
  forall fuel st c serial tg left st' c' r,
    linear_loop fuel st c serial tg left = Some (st', c', r) -> P st -> P st'.
Proof.
  induction fuel as [|fuel IH]; intros st c serial tg left st' c' r H Hp; [discriminate|].
  cbn [linear_loop] in H. unfold search_next_packet in H.
  destruct (search_loop (S fuel) st (seek_start c left) serial _ U64_MAX)
    as [[[st1 c1] [x|e|p]]|] eqn:Hs; try discriminate;
    apply search_loop_keeps in Hs; auto; [| inversion H; subst; auto ..].
  destruct (_ <? _)%Z; [inversion H; subst; auto | eapply IH; eauto].
Qed.

Lemma bisect_loop_keeps :
  forall fuel st c serial tg left right target st' c' r,
    bisect_loop fuel st c serial tg left right target = Some (st', c', r) -> P st -> P st'.
Proof.
  induction fuel as [|fuel IH]; intros st c serial tg left right target st' c' r H Hp;
    [discriminate|].
  cbn [bisect_loop] in H.
  destruct (negb (left <? right)%Z); [inversion H; subst; auto|].
  destruct (u64_add left right) as [sum|e|p]; [| inversion H; subst; auto ..].
  cbv zeta in H. unfold search_next_packet in H.
  destruct (search_loop (S fuel) st _ serial _ U64_MAX)
    as [[[st1 c1] [x|e|p]]|] eqn:Hs; try discriminate;
    apply search_loop_keeps in Hs; auto.
  - destruct (_ =? tg)%Z; [inversion H; subst; auto|].
    match type of H with context [u64_sub ?a ?b] => destruct (u64_sub a b) as [w|e|p] end;
      [| inversion H; subst; auto ..].
    destruct (w <? 1024)%Z; [eapply linear_loop_keeps; eauto | eapply IH; eauto].
  - destruct (handle_eof e tt); inversion H; subst; auto.
  - inversion H; subst; auto.
Qed.
End ReaderKeeps.

(** X18. Every result of [seek] (an error included) leaves the packet queue empty,
    and never changes the reader's current serial, page sequence number, granule
    position or EOS flag: the pages it probes only go through the page buffer. *)
Theorem seek_clears_queue :
  forall fuel st c serial tg st' c' r,
    seek fuel st c serial tg = Some (st', c', r) ->
    queued_packets st' = [] /\
    current_bitstream_serial_number st' = current_bitstream_serial_number st /\
    current_page_sequence_number st' = current_page_sequence_number st /\
    current_granule_position st' = current_granule_position st /\
    current_is_eos st' = current_is_eos st.
Proof.
  intros fuel st c serial tg st' c' r H.
  set (P := fun s : BitStreamReader =>
    queued_packets s = [] /\
    current_bitstream_serial_number s = current_bitstream_serial_number st /\
    current_page_sequence_number s = current_page_sequence_number st /\
    current_granule_position s = current_granule_position st /\
    current_is_eos s = current_is_eos st).
  assert (HP : forall s b, P s -> P (set_page_buffer s b)) by (intros s b Hs; exact Hs).
  assert (H0 : P (set_queued_packets st [])) by (unfold P; cbn; auto).
  change (P st'). unfold seek in H.
  destruct (tg =? U64_MAX)%Z; [inversion H; subst; exact H0|].
  destruct (tg =? 0)%Z; [inversion H; subst; exact H0|].
  destruct (seek_end c) as [c1 mr].
  destruct (bisect_loop fuel (set_queued_packets st []) c1 serial tg 0 mr 0)
    as [[[st1 c2] [x|e|p]]|] eqn:Hb; try discriminate;
    apply (bisect_loop_keeps P HP) in Hb; auto; inversion H; subst; exact Hb.
Qed.

Lemma seek_clears_queue_witness :
  seek 3 (set_queued_packets default_reader
            [{| range_start := 0; range_end := 1; is_complete := true |}])
       {| inner := []; position := 0 |} 7 5 =
    Some (default_reader, {| inner := []; position := 0 |}, Ok tt) /\
  queued_packets default_reader = [] /\
  current_bitstream_serial_number default_reader =
    current_bitstream_serial_number default_reader /\
  current_page_sequence_number default_reader = current_page_sequence_number default_reader /\
  current_granule_position default_reader = current_granule_position default_reader /\
  current_is_eos default_reader = current_is_eos default_reader.
Proof.
  split; [vm_compute; reflexivity|].
  exact (seek_clears_queue 3 (set_queued_packets default_reader
            [{| range_start := 0; range_end := 1; is_complete := true |}])
       {| inner := []; position := 0 |} 7 5 default_reader {| inner := []; position := 0 |}
       (Ok tt) ltac:(vm_compute; reflexivity)).
Defined.


Lemma probe_payload_size_lacing : forall size, probe_payload_size (lacing size) = size mod 255.
Proof.
  intros size. unfold probe_payload_size, lacing. rewrite fold_left_app.
  assert (Hk : forall k acc,
    fold_left (fun acc lace => if Z.to_nat lace =? 255 then acc else acc + Z.to_nat lace)
      (repeat 255%Z k) acc = acc).
  { induction k as [|k IH]; intros acc; [reflexivity|]. cbn [repeat fold_left]. apply IH. }
  rewrite Hk. pose proof (Nat.mod_upper_bound size 255 ltac:(lia)).
  destruct (Nat.ltb_spec 0 (size mod 255)); cbn [fold_left]; [|lia].
  rewrite Nat2Z.id. replace (size mod 255 =? 255) with false by (symmetry; apply Nat.eqb_neq; lia).
  reflexivity.
Qed.

(** X19. [probe_page] at the start of a one-packet page as the writer emits it reads
    the 27-byte header and the segment table and reports the page's granule position
    and serial, with the cursor just past the table. The end it reports skips every
    lacing value of 255 in the payload size, so it falls short of the page's real end
    by 255 bytes for each full lacing value (it is the real end only for packets under
    255 bytes). *)
Theorem probe_page_written_page :
  forall st c start ht g serial seq payload rest,
    remaining (seek_start c start) =
      page_bytes ht g serial seq (lacing (length payload)) payload ++ rest ->
    (0 <= start)%Z ->
    (start + Z.of_nat (length (page_bytes ht g serial seq (lacing (length payload)) payload))
       <= U64_MAX)%Z ->
    length payload <= MAX_PAGE_DATA_SIZE ->
    (0 <= g <= U64_MAX)%Z -> (0 <= serial <= U32_MAX)%Z ->
    exists st',
      probe_page st c start =
        (st', cursor_at c (Z.to_nat start + 27 + length (lacing (length payload))),
         Ok {| probe_granule_position :=
                 if (Z.of_nat (length (lacing (length payload))) =? 255)%Z then U64_MAX else g;
               probe_bitstream_serial_number := serial;
               probe_start := start;
               probe_end :=
                 (start + Z.of_nat (length (page_bytes ht g serial seq (lacing (length payload)) payload))
                  - 255 * Z.of_nat (length payload / 255))%Z |}).
Proof.
  intros st c start ht g serial seq payload rest Hr Hs0 Hend HL Hg Hs.
  set (table := lacing (length payload)) in *.
  set (cnt := Z.of_nat (length table)).
  set (g' := if (cnt =? 255)%Z then U64_MAX else g).
  set (crc := crc32 (Writer.assemble_page ht g' serial seq 0 cnt table payload)).
  set (header := [0%Z; ht] ++ le_bytes 8 g' ++ le_bytes 4 serial ++ le_bytes 4 seq
                   ++ le_bytes 4 crc ++ [cnt]).
  assert (HP0 : page_bytes ht g serial seq table payload
                = Writer.assemble_page ht g' serial seq crc cnt table payload) by reflexivity.
  assert (Hpage : page_bytes ht g serial seq table payload = (PAGER_MARKER ++ header) ++ table ++ payload).
  { unfold page_bytes, header, Writer.assemble_page. rewrite <- !app_assoc. reflexivity. }
  assert (Hh : length (PAGER_MARKER ++ header) = 27).
  { unfold header. rewrite !length_app, !WriterPages.length_le_bytes. reflexivity. }
  assert (Hlen : length (page_bytes ht g serial seq table payload)
                 = 27 + length table + length payload).
  { rewrite Hpage, length_app, Hh, length_app. reflexivity. }
  assert (Hg' : (0 <= g' <= U64_MAX)%Z).
  { unfold g'. destruct (_ =? _)%Z; unfold U64_MAX in *; lia. }
  set (P := page_bytes ht g serial seq table payload) in *.
  set (H27 := PAGER_MARKER ++ header) in *.
  unfold probe_page. cbv zeta.
  rewrite ReaderPages.read_exact_ok by (rewrite Hr, length_app; lia).
  rewrite Hr, Hpage, <- app_assoc, (ReaderPages.firstn_app_exact H27) by (symmetry; exact Hh).
  set (b1 := buf_write (page_buffer st) 0 H27).
  assert (Hb1 : forall i, i < 27 -> b1 i = nth i P 0%Z).
  { intros i Hi.
    rewrite (ReaderPages.buf_write_agree (page_buffer st) [] H27 0 eq_refl)
      by (first [intros j Hj; cbn in Hj; lia | cbn [app]; lia]).
    rewrite Hpage. cbn [app]. rewrite app_nth1 by lia. reflexivity. }
  assert (HG : parse_u64_le (buf_read b1 6 14) = g').
  { change 14 with (6 + 8).
    rewrite (ReaderPages.buf_read_agree b1 P 6 8)
      by (first [rewrite Hlen; lia | intros i Hi; apply Hb1; lia]).
    unfold parse_u64_le. rewrite firstn_firstn. cbn [Nat.min]. rewrite HP0.
    exact (WriterPages.assemble_page_granule ht g' serial seq crc cnt table payload Hg'). }
  assert (HS : parse_u32_le (buf_read b1 14 18) = serial).
  { change 18 with (14 + 4).
    rewrite (ReaderPages.buf_read_agree b1 P 14 4)
      by (first [rewrite Hlen; lia | intros i Hi; apply Hb1; lia]).
    unfold parse_u32_le. rewrite firstn_firstn. cbn [Nat.min]. rewrite HP0.
    exact (WriterExtras.page_serial_assemble_page ht g' serial seq crc cnt table payload Hs). }
  assert (HC : Z.to_nat (b1 SEGMENT_COUNT_INDEX) = length table).
  { unfold SEGMENT_COUNT_INDEX. rewrite Hb1 by lia. rewrite Hpage.
    unfold H27, header, PAGER_MARKER. cbn [app le_bytes nth]. unfold cnt. apply Nat2Z.id. }
  rewrite HG, HS, HC.
  set (c1 := cursor_at (seek_start c start) (position (seek_start c start) + 27)).
  assert (Hr1 : remaining c1 = table ++ payload ++ rest).
  { unfold c1. rewrite ReaderPages.remaining_cursor_at, Hr, Hpage, <- !app_assoc.
    apply ReaderPages.skipn_app_exact. symmetry. exact Hh. }
  rewrite ReaderPages.read_exact_ok by (rewrite Hr1, !length_app; lia).
  rewrite Hr1, (ReaderPages.firstn_app_exact table) by reflexivity.
  set (b2 := buf_write b1 SEGMENT_TABLE_INDEX table).
  assert (HT : buf_read b2 SEGMENT_TABLE_INDEX (SEGMENT_TABLE_INDEX + length table) = table).
  { unfold SEGMENT_TABLE_INDEX.
    rewrite (ReaderPages.buf_read_agree b2 (H27 ++ table) 27 (length table))
      by (first [rewrite length_app, Hh; lia
                | intros i Hi; apply (ReaderPages.buf_write_agree b1 H27 table 27);
                  [symmetry; exact Hh
                  | intros j Hj; rewrite Hh in Hj; rewrite Hb1 by lia; rewrite Hpage;
                    rewrite app_nth1 by lia; reflexivity
                  | rewrite length_app, Hh; lia]]).
    rewrite (ReaderPages.skipn_app_exact H27) by (symmetry; exact Hh). apply firstn_all. }
  rewrite HT. unfold table at 2. rewrite probe_payload_size_lacing.
  unfold u64_add.
  replace (start + Z.of_nat (SEGMENT_TABLE_INDEX + length table + length payload mod 255)
             <=? U64_MAX)%Z with true.
  2:{ symmetry. apply Z.leb_le. unfold SEGMENT_TABLE_INDEX.
      pose proof (Nat.Div0.mod_le (length payload) 255). rewrite Hlen in Hend. lia. }
  assert (E : (start + Z.of_nat (SEGMENT_TABLE_INDEX + length table + length payload mod 255)
               = start + Z.of_nat (length (H27 ++ table ++ payload))
                 - 255 * Z.of_nat (length payload / 255))%Z).
  { rewrite <- Hpage, Hlen. unfold SEGMENT_TABLE_INDEX.
    pose proof (Nat.div_mod (length payload) 255 ltac:(lia)). lia. }
  rewrite E. eexists. reflexivity.
Qed.

Lemma probe_page_written_page_witness :
  exists st',
    probe_page default_reader
      {| inner := page_bytes 2 5 1 0 (lacing 300) (repeat 7%Z 300); position := 0 |} 0 =
      (st', cursor_at {| inner := page_bytes 2 5 1 0 (lacing 300) (repeat 7%Z 300); position := 0 |}
              (0 + 27 + 2),
       Ok {| probe_granule_position := 5; probe_bitstream_serial_number := 1;
             probe_start := 0; probe_end := 74 |}).
Proof.
  destruct (probe_page_written_page default_reader
              {| inner := page_bytes 2 5 1 0 (lacing 300) (repeat 7%Z 300); position := 0 |}
              0 2 5 1 0 (repeat 7%Z 300) [])
    as [st' H].
  - unfold remaining, seek_start, cursor_at. cbn [skipn inner position Z.to_nat].
    rewrite repeat_length, app_nil_r. reflexivity.
  - lia.
  - rewrite repeat_length. vm_compute. discriminate.
  - rewrite repeat_length. unfold MAX_PAGE_DATA_SIZE. lia.
  - unfold U64_MAX. lia.
  - unfold U32_MAX. lia.
  - exists st'. rewrite H. reflexivity.
Defined.


(** X20. A page as the writer emits it with an empty segment table (what
    [begin_logical_stream] writes for empty data) carries no packet: [next_packet]
    with an empty queue reads it, records its serial, granule position and EOS flag
    as current, and returns [Missing] with an empty packet and the cursor just past
    the page's 27 bytes. *)
Theorem next_packet_empty_page_missing :
  forall st packet c junk ht g serial seq rest,
    queued_packets st = [] ->
    remaining c = junk ++ page_bytes ht g serial seq [] [] ++ rest ->
    Forall (fun b => b <> 79%Z) junk -> length junk < MAX_PAGE_SIZE ->
    (0 <= g <= U64_MAX)%Z -> (0 <= serial <= U32_MAX)%Z ->
    exists st',
      next_packet st packet c =
        (st', set_data packet [], cursor_at c (position c + length junk + 27),
         Ok ReadStatus.Missing) /\
      queued_packets st' = [] /\
      current_bitstream_serial_number st' = serial /\
      current_granule_position st' = g /\
      current_page_sequence_number st' = current_page_sequence_number st /\
      current_is_eos st' = (Z.shiftr (Z.land ht EOS_VALUE) 2 =? 1)%Z.
Proof.
  intros st packet c junk ht g serial seq rest Hq Hr Hj Hjl Hg Hs.
  set (crc := crc32 (Writer.assemble_page ht g serial seq 0 0 [] [])).
  set (header := [0%Z; ht] ++ le_bytes 8 g ++ le_bytes 4 serial ++ le_bytes 4 seq
                   ++ le_bytes 4 crc ++ [0%Z]).
  assert (Hpage : page_bytes ht g serial seq [] [] = PAGER_MARKER ++ header ++ [] ++ []).
  { unfold page_bytes, header, Writer.assemble_page. rewrite <- !app_assoc. reflexivity. }
  assert (Hh : length header = 23).
  { unfold header. rewrite !length_app, !WriterPages.length_le_bytes. reflexivity. }
  assert (Ht : @length Z [] = Z.to_nat (nth 22 header 0%Z)).
  { unfold header. cbn [le_bytes app nth]. reflexivity. }
  assert (Hlen : length (PAGER_MARKER ++ header ++ [] ++ []) = 27 + @length Z [] + @length Z []).
  { rewrite !length_app, Hh. reflexivity. }
  rewrite Hpage in Hr.
  unfold next_packet. rewrite Hq. cbv beta iota zeta. cbn [next_packet_loop].
  rewrite (sync_skips_junk c junk (header ++ [] ++ [] ++ rest))
    by (first [exact Hj | exact Hjl | rewrite Hr; rewrite <- !app_assoc; reflexivity]).
  replace (position c + length junk + 4) with (position c + (length junk + 4)) by lia.
  destruct (read_page_data_queue st (cursor_at c (position c + (length junk + 4))) header [] [] rest
              0 0 []) as (st1 & Hrd & Hq1 & E1 & E2 & E3 & E4 & Hb); auto.
  { rewrite ReaderPages.remaining_cursor_at, Hr, (Nat.add_comm (length junk) 4), <- skipn_skipn.
    rewrite (ReaderPages.skipn_app_exact junk _ (length junk)) by reflexivity.
    rewrite <- !app_assoc. apply ReaderPages.skipn_app_exact. reflexivity. }
  { rewrite Hq. reflexivity. }
  rewrite Hrd. rewrite <- Hlen in Hb |- *.
  rewrite ReaderPages.verify_crc32_spec by (first [rewrite Hlen; cbn [length]; lia | exact Hb]).
  set (P := PAGER_MARKER ++ header ++ [] ++ []) in *.
  set (P0 := Writer.assemble_page ht g serial seq 0 0 [] []).
  assert (HzP : zero_crc P = P0).
  { rewrite <- Hpage. unfold page_bytes. cbv zeta.
    apply WriterExtras.zero_crc_assemble_page. }
  assert (Hcrc : (stored_crc P =? crc32 (zero_crc P))%Z = true).
  { rewrite <- Hpage. unfold page_bytes. cbv zeta.
    rewrite WriterExtras.stored_crc_assemble_page by apply WriterExtras.crc32_range.
    rewrite WriterExtras.zero_crc_assemble_page. apply Z.eqb_refl. }
  rewrite Hcrc. cbv beta iota zeta. cbn [negb].
  set (b2 := buf_write (page_buffer st1) 22 [0; 0; 0; 0]%Z).
  change (page_buffer (set_page_buffer st1 b2)) with b2.
  assert (HlP0 : length P0 = length P).
  { rewrite <- HzP. apply ReaderPages.length_zero_crc. rewrite Hlen. cbn [length]. lia. }
  assert (Hb2 : forall i, i < length P -> b2 i = nth i P0 0%Z).
  { intros i Hi. rewrite <- HzP. apply ReaderPages.zero_crc_agree; auto. rewrite Hlen. cbn [length]. lia. }
  assert (Hv : b2 VERSION_INDEX = 0%Z).
  { rewrite Hb2 by (unfold VERSION_INDEX; rewrite Hlen; cbn [length]; lia). reflexivity. }
  assert (Hht : b2 HEADER_TYPE_INDEX = ht).
  { rewrite Hb2 by (unfold HEADER_TYPE_INDEX; rewrite Hlen; cbn [length]; lia).
    exact (WriterPages.assemble_page_header_type ht g serial seq 0 0 [] []). }
  assert (HG : parse_u64_le (buf_read b2 6 14) = g).
  { change 14 with (6 + 8).
    rewrite (ReaderPages.buf_read_agree b2 P0 6 8)
      by (first [rewrite HlP0, Hlen; cbn [length]; lia
                | intros i Hi; apply Hb2; rewrite Hlen; cbn [length]; lia]).
    unfold parse_u64_le. rewrite firstn_firstn. cbn [Nat.min].
    exact (WriterPages.assemble_page_granule ht g serial seq 0 0 [] [] Hg). }
  assert (HS : parse_u32_le (buf_read b2 14 18) = serial).
  { change 18 with (14 + 4).
    rewrite (ReaderPages.buf_read_agree b2 P0 14 4)
      by (first [rewrite HlP0, Hlen; cbn [length]; lia
                | intros i Hi; apply Hb2; rewrite Hlen; cbn [length]; lia]).
    unfold parse_u32_le. rewrite firstn_firstn. cbn [Nat.min].
    exact (WriterExtras.page_serial_assemble_page ht g serial seq 0 0 [] [] Hs). }
  rewrite Hv, Hht, HG, HS. cbn [Z.eqb negb data set_data].
  cbn [Nat.eqb] in Hq1.
  set (eos := (Z.shiftr (Z.land ht EOS_VALUE) 2 =? 1)%Z).
  change (queued_packets (set_current (set_page_buffer st1 b2) serial g eos))
    with (queued_packets st1).
  rewrite Hq1.
  exists (set_current (set_page_buffer st1 b2) serial g eos).
  split; [|cbn; auto].
  unfold cursor_at at 1 3. cbn [position inner length].
  replace (position c + (length junk + 4) + 23 + 0 + 0) with (position c + length junk + 27)
    by lia.
  reflexivity.
Qed.

Lemma next_packet_empty_page_missing_witness :
  exists st',
    next_packet default_reader default_packet
      {| inner := [1%Z] ++ page_bytes BOS_VALUE 0 9 0 [] []; position := 0 |} =
      (st', set_data default_packet [],
       cursor_at {| inner := [1%Z] ++ page_bytes BOS_VALUE 0 9 0 [] []; position := 0 |}
         (0 + length [1%Z] + 27),
       Ok ReadStatus.Missing) /\
    queued_packets st' = [] /\
    current_bitstream_serial_number st' = 9%Z /\
    current_granule_position st' = 0%Z /\
    current_page_sequence_number st' = current_page_sequence_number default_reader /\
    current_is_eos st' = (Z.shiftr (Z.land BOS_VALUE EOS_VALUE) 2 =? 1)%Z.
Proof.
  apply (next_packet_empty_page_missing default_reader default_packet
           {| inner := [1%Z] ++ page_bytes BOS_VALUE 0 9 0 [] []; position := 0 |}
           [1%Z] BOS_VALUE 0 9 0 []).
  - reflexivity.
  - unfold remaining. cbn [skipn inner position]. rewrite app_nil_r. reflexivity.
  - constructor; [discriminate | constructor].
  - cbn [length]. unfold MAX_PAGE_SIZE, MAX_PAGE_HEADER_SIZE, MAX_PAGE_DATA_SIZE. lia.
  - unfold U64_MAX. lia.
  - unfold U32_MAX. lia.
Defined.

End ReaderExtras.
